(** * Chunked parallel repository analysis: a shallow embedding

    The development follows the four agents of the backend:
    [CodebaseChunkingAgent] (the decomposer), [ParallelAnalysisCoordinator]
    (the scheduler), [ResultsAggregator] and [AgentOrchestrator].
    Each JavaScript class becomes a module of executable definitions; the
    language-model calls and the clock are inputs of the functions that use
    them.  Theorems come after all definitions. *)

From Stdlib Require Import Ascii String Sorting.Permutation.
From stdpp Require Import base option list strings pretty gmap sorting.

Open Scope string_scope.
Open Scope nat_scope.
Open Scope list_scope.

(** ** JavaScript helpers *)

Module Js.

(** [String.prototype.toLowerCase], on the ASCII letters. *)
Definition lower_ascii (c : ascii) : ascii :=
  let n := Ascii.nat_of_ascii c in
  if (65 <=? n) && (n <=? 90) then Ascii.ascii_of_nat (n + 32) else c.

Fixpoint toLowerCase (s : string) : string :=
  match s with
  | EmptyString => EmptyString
  | String c r => String (lower_ascii c) (toLowerCase r)
  end.

(** [s.startsWith(p)] *)
Fixpoint startsWith (p s : string) : bool :=
  match p, s with
  | EmptyString, _ => true
  | String a p', String b s' => if Ascii.eqb a b then startsWith p' s' else false
  | String _ _, EmptyString => false
  end.

(** [s.includes(p)] *)
Fixpoint includes (p s : string) : bool :=
  startsWith p s ||
  match s with
  | EmptyString => false
  | String _ s' => includes p s'
  end.

(** [s.split('.').pop()]: the text after the last dot, the whole string
    when it has none.  [acc] is the segment read since the last dot. *)
Fixpoint last_segment (acc s : string) : string :=
  match s with
  | EmptyString => acc
  | String c r =>
      if Ascii.eqb c "."%char then last_segment EmptyString r
      else last_segment (acc +:+ String c EmptyString) r
  end.

Definition split_dot_pop (s : string) : string := last_segment EmptyString s.

(** [s.split(sep)] for a one-character separator; [acc] is the piece
    read since the last separator. *)
Fixpoint splitOn (sep : ascii) (acc s : string) : list string :=
  match s with
  | EmptyString => [acc]
  | String c r =>
      if Ascii.eqb c sep then acc :: splitOn sep EmptyString r
      else splitOn sep (acc +:+ String c EmptyString) r
  end.

(** [s.split('\n')] *)
Definition lines (s : string) : list string :=
  splitOn (Ascii.ascii_of_nat 10) EmptyString s.

(** White space, among the ASCII characters. *)
Definition isSpace (c : ascii) : bool :=
  let n := Ascii.nat_of_ascii c in
  ((9 <=? n) && (n <=? 13)) || (n =? 32).

Fixpoint trimStart (s : string) : string :=
  match s with
  | EmptyString => EmptyString
  | String c r => if isSpace c then trimStart r else s
  end.

Fixpoint trimEnd (s : string) : string :=
  match s with
  | EmptyString => EmptyString
  | String c r =>
      match trimEnd r with
      | EmptyString => if isSpace c then EmptyString else String c EmptyString
      | r' => String c r'
      end
  end.

(** [s.trim()] *)
Definition trim (s : string) : string := trimEnd (trimStart s).

(** [s.substring(2)] *)
Definition substring2 (s : string) : string :=
  match s with
  | String _ (String _ r) => r
  | _ => EmptyString
  end.

(** [arr.slice(i, j)] for [0 <= i <= j]. *)
Definition slice {A} (i j : nat) (l : list A) : list A := take (j - i) (drop i l).

(** [x || d] on an optional string: undefined and the empty string are
    falsy. *)
Definition str_or (o : option string) (d : string) : string :=
  match o with
  | Some s => if String.eqb s "" then d else s
  | None => d
  end.

(** [x || d] on an optional array or object: only undefined is falsy. *)
Definition obj_or {A} (o : option A) (d : A) : A := default d o.

(** [.filter(Boolean)] on optional strings. *)
Definition truthy_strs (l : list (option string)) : list string :=
  omap (fun o => match o with
                 | Some s => if String.eqb s "" then None else Some s
                 | None => None
                 end) l.

(** [Math.ceil(a / b)] for non-negative integers and [b > 0]. *)
Definition ceil_div (a b : nat) : nat := (a + b - 1) / b.

(** Adding to a [Set] kept as its insertion-ordered element list. *)
Definition set_add (s : list string) (x : string) : list string :=
  if bool_decide (x ∈ s) then s else s ++ [x].

(** [[...new Set(l)]], [Array.from(set)] after adding [l] in order. *)
Definition set_add_all (s l : list string) : list string := foldl set_add s l.

(** [arr.join(sep)] *)
Fixpoint join (sep : string) (l : list string) : string :=
  match l with
  | [] => ""
  | [x] => x
  | x :: r => x +:+ sep +:+ join sep r
  end.

(** A JavaScript value, as far as the response and error objects need. *)
Inductive val :=
| VUndef
| VBool (b : bool)
| VNum (n : N)
| VStr (s : string)
| VError (message : string).

(** A returned value or a thrown [Error]. *)
Inductive Try (A : Type) :=
| Returns (a : A)
| Throws (message : string).
Arguments Returns {A} a.
Arguments Throws {A} message.

Definition bind {A B} (t : Try A) (k : A -> Try B) : Try B :=
  match t with
  | Returns a => k a
  | Throws message => Throws message
  end.

(** **** Objects used as counters

    An object whose keys are strings and whose values are counts is kept
    as the list of its entries in the order the keys were created.  The
    embedding covers keys other than the names every object inherits
    ([inheritedKeys]): for those, [counts[key] || 0] reads the inherited
    member instead of [undefined]. *)
Definition inheritedKeys : list string :=
  ["constructor"; "toString"; "toLocaleString"; "valueOf"; "hasOwnProperty";
   "isPrototypeOf"; "propertyIsEnumerable"; "__proto__"; "__defineGetter__";
   "__defineSetter__"; "__lookupGetter__"; "__lookupSetter__"].

(** [counts[key] = (counts[key] || 0) + 1] *)
Fixpoint bump (key : string) (counts : list (string * nat)) : list (string * nat) :=
  match counts with
  | [] => [(key, 1)]
  | (k, n) :: rest =>
      if String.eqb k key then (k, n + 1) :: rest else (k, n) :: bump key rest
  end.

Definition digitOf (c : ascii) : option N :=
  let n := N_of_ascii c in
  if ((48 <=? n) && (n <=? 57))%N then Some (n - 48)%N else None.

Fixpoint digitsValue (acc : N) (s : string) : option N :=
  match s with
  | EmptyString => Some acc
  | String c r =>
      match digitOf c with
      | Some d => digitsValue (acc * 10 + d)%N r
      | None => None
      end
  end.

(** The array index a key denotes, if any: a decimal numeral without
    leading zero, below [2^32 - 1]. *)
Definition arrayIndex (s : string) : option N :=
  match s with
  | EmptyString => None
  | String c r =>
      if Ascii.eqb c "0"%char && negb (String.eqb r "") then None
      else match digitsValue 0 s with
           | Some n => if (n <? 4294967295)%N then Some n else None
           | None => None
           end
  end.

Definition indexLe (a b : N * (string * nat)) : Prop := (a.1 ≤ b.1)%N.

#[global] Instance indexLe_dec : RelDecision indexLe.
Proof. intros a b. unfold indexLe. apply _. Defined.

(** [Object.entries(counts)]: the keys that are array indices first, in
    ascending numeric order, then the other keys in creation order. *)
Definition entries (counts : list (string * nat)) : list (string * nat) :=
  let indexed := omap (fun e => (fun n => (n, e)) <$> arrayIndex e.1) counts in
  let named := filter (fun e => arrayIndex e.1 = None) counts in
  map snd (merge_sort indexLe indexed) ++ named.

(** An optional string inside a template literal or a string
    concatenation. *)
Definition tmpl (o : option string) : string := default "undefined" o.

(** [Math.floor(a / b)] on non-negative integers, printed. *)
Definition showDiv (a b : N) : string := pretty (a / b)%N.

(** The line separator, as a string. *)
Definition nl : string := String (Ascii.ascii_of_nat 10) EmptyString.

(** [s] does not contain the character [c]. *)
Fixpoint freeOf (c : ascii) (s : string) : bool :=
  match s with
  | EmptyString => true
  | String a r => negb (Ascii.eqb a c) && freeOf c r
  end.

(** [s] holds no line separator. *)
Definition oneLine (s : string) : bool := freeOf (Ascii.ascii_of_nat 10) s.

End Js.

(** ** CodebaseChunkingAgent *)

Module Chunking.

Record Config := {
  maxChunkSize : nat;
  maxChunks : nat;
  minChunkSize : nat
}.

(** The constructor's defaults. *)
Definition defaultConfig : Config :=
  {| maxChunkSize := 200; maxChunks := 10; minChunkSize := 50 |}.

Record Chunk := {
  id : string;
  name : string;
  description : string;
  files : list string;
  priority : string;
  dependencies : list string;
  chunk_type : string
}.

Record ChunkingData := {
  chunks : list Chunk;
  chunkingStrategy : string;
  totalFiles : nat;
  chunkCount : nat;
  estimatedProcessingTime : string
}.

Record ChunkingResult := {
  success : bool;
  data : option ChunkingData;
  error : option string;
  raw : option string
}.

(** The seven keys of [groups], in the order of the object literal. *)
Inductive FileType :=
| Frontend | Backend | Configuration | Tests | Documentation | Utilities | Other.

#[global] Instance FileType_eq_dec : EqDecision FileType.
Proof. solve_decision. Defined.

Definition allTypes : list FileType :=
  [Frontend; Backend; Configuration; Tests; Documentation; Utilities; Other].

Definition typeName (t : FileType) : string :=
  match t with
  | Frontend => "Frontend"
  | Backend => "Backend"
  | Configuration => "Configuration"
  | Tests => "Tests"
  | Documentation => "Documentation"
  | Utilities => "Utilities"
  | Other => "Other"
  end.

(** The if/else-if chain of [groupFilesByType]. *)
Definition classify (file : string) : FileType :=
  let ext := Js.toLowerCase (Js.split_dot_pop file) in
  let filename := Js.toLowerCase file in
  let path := Js.toLowerCase file in
  if Js.includes "src/app" path || Js.includes "components" path
     || String.eqb ext "html" || String.eqb ext "scss" || String.eqb ext "css"
  then Frontend
  else if Js.includes "src/" path
          && (String.eqb ext "ts" || String.eqb ext "js"
              || String.eqb ext "py" || String.eqb ext "java")
  then Backend
  else if Js.includes "test" filename || Js.includes "spec" filename
          || String.eqb ext "test"
  then Tests
  else if Js.includes "readme" filename || Js.includes "doc" filename
          || String.eqb ext "md"
  then Documentation
  else if Js.includes "config" filename || Js.includes "package" filename
          || Js.includes "yarn" filename
          || String.eqb ext "json" || String.eqb ext "yml" || String.eqb ext "yaml"
  then Configuration
  else if Js.includes "utils" path || Js.includes "helpers" path
          || Js.includes "common" path
  then Utilities
  else Other.

(** [groups[key].push(file)] *)
Definition push (groups : FileType -> list string) (t : FileType) (file : string)
  : FileType -> list string :=
  fun t' => if decide (t' = t) then groups t' ++ [file] else groups t'.

(** The object of groups after the [forEach], before empty groups are
    deleted. *)
Definition filledGroups (fs : list string) : FileType -> list string :=
  foldl (fun g file => push g (classify file) file) (fun _ => []) fs.

(** [groupFilesByType]: the entries of the returned object, in key order,
    empty groups deleted. *)
Definition groupFilesByType (fs : list string) : list (FileType * list string) :=
  filter (fun e => e.2 ≠ []) (map (fun t => (t, filledGroups fs t)) allTypes).

Definition getPriorityForType (t : FileType) : string :=
  match t with
  | Frontend | Backend => "high"
  | Configuration | Utilities => "medium"
  | Tests | Documentation | Other => "low"
  end.

(** [Math.min(maxChunkSize, Math.ceil(n / maxChunks))].  With
    [maxChunks = 0] and [n > 0] the quotient is [Infinity] and the minimum
    is [maxChunkSize]; with [n = 0] no page is cut and the value is not
    used. *)
Definition chunkSizeOf (cfg : Config) (n : nat) : nat :=
  if maxChunks cfg =? 0 then maxChunkSize cfg
  else maxChunkSize cfg `min` Js.ceil_div n (maxChunks cfg).

(** The inner loop of [createFallbackChunks] over one group:
    [for (i = 0; i < typeFiles.length; i += chunkSize)].  [chunkId] is the
    running counter; the result carries its value after the loop.  The loop
    does not advance when [chunkSize = 0]: the fuel then runs out. *)
Fixpoint pageLoop (fuel : nat) (chunkSize : nat) (t : FileType)
    (typeFiles : list string) (i chunkId : nat) : option (list Chunk * nat) :=
  if i <? length typeFiles then
    match fuel with
    | 0 => None
    | S fuel' =>
        let chunkFiles := Js.slice i (i + chunkSize) typeFiles in
        let c := {| id := "chunk_" +:+ pretty chunkId;
                    name := typeName t +:+ " (Part " +:+ pretty (i / chunkSize + 1) +:+ ")";
                    description := "Files from " +:+ typeName t +:+ " category";
                    files := chunkFiles;
                    priority := getPriorityForType t;
                    dependencies := [];
                    chunk_type := Js.toLowerCase (typeName t) |} in
        match pageLoop fuel' chunkSize t typeFiles (i + chunkSize) (S chunkId) with
        | Some (cs, k) => Some (c :: cs, k)
        | None => None
        end
    end
  else Some ([], chunkId).

(** The outer loop over [Object.entries(fileGroups)]. *)
Fixpoint groupLoop (fuel chunkSize : nat) (gs : list (FileType * list string))
    (chunkId : nat) : option (list Chunk) :=
  match gs with
  | [] => Some []
  | (t, typeFiles) :: gs' =>
      match pageLoop fuel chunkSize t typeFiles 0 chunkId with
      | Some (cs, k) =>
          match groupLoop fuel chunkSize gs' k with
          | Some cs' => Some (cs ++ cs')
          | None => None
          end
      | None => None
      end
  end.

(** [createFallbackChunks].  [None]: the page loop never ends. *)
Definition createFallbackChunks (cfg : Config) (fs : list string)
  : option ChunkingResult :=
  let chunkSize := chunkSizeOf cfg (length fs) in
  match groupLoop (length fs) chunkSize (groupFilesByType fs) 1 with
  | Some cs =>
      Some {| success := true;
              data := Some {| chunks := cs;
                              chunkingStrategy := "Fallback rule-based chunking";
                              totalFiles := length fs;
                              chunkCount := length cs;
                              estimatedProcessingTime :=
                                pretty (length cs * 30) +:+ "-"
                                +:+ pretty (length cs * 60) +:+ " seconds" |};
              error := None;
              raw := Some "Fallback chunking used" |}
  | None => None
  end.

Definition createSingleChunk (fs : list string) : ChunkingResult :=
  {| success := true;
     data := Some {| chunks := [ {| id := "single_chunk";
                                    name := "Complete Repository";
                                    description := "All repository files in a single chunk";
                                    files := fs;
                                    priority := "high";
                                    dependencies := [];
                                    chunk_type := "mixed" |} ];
                     chunkingStrategy := "Single chunk (repository too small for chunking)";
                     totalFiles := length fs;
                     chunkCount := 1;
                     estimatedProcessingTime := "30-60 seconds" |};
     error := None;
     raw := Some "Single chunk processing" |}.

(** One element of the [chunks] array proposed by the language model.
    Every field may be missing; [p_files = None] also stands for a [files]
    value that is not an array. *)
Record Proposed := {
  p_id : option string;
  p_name : option string;
  p_description : option string;
  p_files : option (list string);
  p_priority : option string;
  p_dependencies : option (list string);
  p_chunk_type : option string
}.

(** What the chat call and the JSON parse of [createIntelligentChunks]
    deliver: nothing usable (the call throws, or no JSON is found), or a
    parsed object whose [chunks] field is an array or not. *)
Inductive Reply :=
| Unusable (message : string)
| Parsed (chunks : option (list Proposed))
         (chunking_strategy estimated_processing_time : option string)
         (rawText : string).

(** The [forEach] of [validateAndCleanChunks], from position [index]. *)
Fixpoint validateFrom (index : nat) (cs : list Proposed) (allFiles : list string)
  : list Chunk :=
  match cs with
  | [] => []
  | chunk :: rest =>
      match p_files chunk with
      | None => validateFrom (S index) rest allFiles
      | Some fl =>
          let validFiles := filter (fun file => file ∈ allFiles) fl in
          if bool_decide (validFiles = []) then validateFrom (S index) rest allFiles
          else
            {| id := Js.str_or (p_id chunk) ("chunk_" +:+ pretty (index + 1));
               name := Js.str_or (p_name chunk) ("Chunk " +:+ pretty (index + 1));
               description := Js.str_or (p_description chunk) "Generated chunk";
               files := validFiles;
               priority := Js.str_or (p_priority chunk) "medium";
               dependencies := Js.obj_or (p_dependencies chunk) [];
               chunk_type := Js.str_or (p_chunk_type chunk) "mixed" |}
            :: validateFrom (S index) rest allFiles
      end
  end.

(** [validateAndCleanChunks]; [None] is the thrown
    ['Invalid chunks format']. *)
Definition validateAndCleanChunks (cs : option (list Proposed)) (allFiles : list string)
  : option (list Chunk) :=
  match cs with
  | None => None
  | Some l => Some (validateFrom 0 l allFiles)
  end.

Definition failed (message : string) : ChunkingResult :=
  {| success := false; data := None; error := Some message; raw := None |}.

Definition createIntelligentChunks (fs : list string) (reply : Reply) : ChunkingResult :=
  match reply with
  | Unusable message => failed message
  | Parsed cs strategy est text =>
      match validateAndCleanChunks cs fs with
      | None => failed "Invalid chunks format"
      | Some validatedChunks =>
          {| success := true;
             data := Some {| chunks := validatedChunks;
                             chunkingStrategy :=
                               Js.str_or strategy "AI-based intelligent chunking";
                             totalFiles := length fs;
                             chunkCount := length validatedChunks;
                             estimatedProcessingTime := Js.str_or est "Unknown" |};
             error := None;
             raw := Some text |}
      end
  end.

Definition extractFilesFromTree (repoTree : string) : list string :=
  filter (fun file => String.length file ≠ 0)
    (map (fun line => Js.trim (Js.substring2 line))
       (filter (fun line => Js.startsWith "- " line = true) (Js.lines repoTree))).

(** [chunkRepository], on the extracted file list.  The [catch] of the
    source answers exceptions only; with the inputs typed as here none is
    raised inside its [try]. *)
Definition chunkRepository (cfg : Config) (fs : list string) (reply : Reply)
  : option ChunkingResult :=
  if length fs <=? maxChunkSize cfg then Some (createSingleChunk fs)
  else
    let chunkingResult := createIntelligentChunks fs reply in
    if negb (success chunkingResult) then createFallbackChunks cfg fs
    else Some chunkingResult.

(** All files of a chunk list, unit after unit. *)
Definition allFilesOf (cs : list Chunk) : list string := concat (map files cs).

Definition chunksOf (r : ChunkingResult) : list Chunk :=
  match data r with Some d => chunks d | None => [] end.

End Chunking.

(** ** Records exchanged between the agents *)

Module Records.

(** One dependency edge: a JavaScript object, field name to value. *)
Abbreviation Dep := (gmap string Js.val).

(** A component of [key_components].  Every field may be missing. *)
Record Component := {
  name : option string;
  type : option string;
  technologies : option (list string);
  description : option string;
  chunks : option (list string)
}.

Record FileStructure := {
  main_directories : option (list string);
  configuration_files : option (list string);
  test_structure : option string;
  documentation_presence : option string
}.

(** The structured record the analyzer returns for one chunk, and the
    shape of the unified record.  Every field may be missing. *)
Record Analysis := {
  architecture_pattern : option string;
  tech_stack : option (list string);
  key_components : option (list Component);
  insights : option (list string);
  dependencies : option (list Dep);
  file_structure_analysis : option FileStructure;
  scalability_notes : option string;
  security_considerations : option string
}.

(** The successful value of [analyzeChunk].  The fields [processingTime]
    (a difference of two clock readings) and [raw] (model texts) are left
    out. *)
Record ChunkResult := {
  success : bool;
  chunkId : string;
  chunkIndex : nat;
  chunkName : string;
  chunkType : string;
  priority : string;
  fileCount : nat;
  analysis : Analysis;
  diagram : string;
  diagramSuccess : bool
}.

(** What the analyzer agent resolves to. *)
Record AnalyzerResult := {
  a_success : bool;
  a_data : Analysis;
  a_error : option string
}.

(** What the diagram builder agent resolves to. *)
Record DiagramResult := {
  d_success : bool;
  d_diagram : option string;
  d_error : option string
}.

End Records.

(** ** ParallelAnalysisCoordinator *)

Module Coordinator.
Import Records.

Record Config := {
  maxConcurrentChunks : nat;
  chunkTimeout : N;
  retryAttempts : nat
}.

Definition defaultConfig : Config :=
  {| maxConcurrentChunks := 3; chunkTimeout := 120000%N; retryAttempts := 2 |}.

(** How an awaited call of an external agent ends: it resolves, it
    rejects with an [Error], or it is still pending when the chunk
    timeout fires. *)
Inductive Settled (A : Type) :=
| Resolved (a : A)
| Rejected (message : string)
| Pending.
Arguments Resolved {A} a.
Arguments Rejected {A} message.
Arguments Pending {A}.

(** The two external agents.  Their answers are not a function of the
    chunk alone, so each call is identified by the chunk index and the
    number of the attempt that makes it. *)
Record Agents := {
  analyze : nat -> nat -> Chunking.Chunk -> Settled AnalyzerResult;
  buildDiagram : nat -> nat -> Analysis -> Settled DiagramResult
}.

(** What [analyzeChunk] returns. *)
Inductive ChunkOutcome :=
| Analyzed (r : ChunkResult)
| NotAnalyzed (error : option string) (chunkId : string) (chunkIndex : nat).

(** [analyzeChunk]: its own [try]/[catch] turns a rejection of either
    agent into an unsuccessful result. *)
Definition analyzeChunk (agents : Agents) (chunk : Chunking.Chunk)
    (chunkIndex attempt : nat) : Settled ChunkOutcome :=
  match analyze agents chunkIndex attempt chunk with
  | Pending => Pending
  | Rejected message => Resolved (NotAnalyzed (Some message) (Chunking.id chunk) chunkIndex)
  | Resolved analysisResult =>
      if negb (a_success analysisResult) then
        Resolved (NotAnalyzed (a_error analysisResult) (Chunking.id chunk) chunkIndex)
      else
        match buildDiagram agents chunkIndex attempt (a_data analysisResult) with
        | Pending => Pending
        | Rejected message =>
            Resolved (NotAnalyzed (Some message) (Chunking.id chunk) chunkIndex)
        | Resolved diagramResult =>
            Resolved (Analyzed
              {| success := true;
                 chunkId := Chunking.id chunk;
                 chunkIndex := chunkIndex;
                 chunkName := Chunking.name chunk;
                 chunkType := Chunking.chunk_type chunk;
                 priority := Chunking.priority chunk;
                 fileCount := length (Chunking.files chunk);
                 analysis := a_data analysisResult;
                 diagram := Js.str_or (d_diagram diagramResult) "";
                 diagramSuccess := d_success diagramResult |})
        end
  end.

(** [processChunk]: the race of [analyzeChunk] against the timeout. *)
Definition processChunk (cfg : Config) (agents : Agents) (chunk : Chunking.Chunk)
    (chunkIndex attempt : nat) : Js.Try ChunkOutcome :=
  match analyzeChunk agents chunk chunkIndex attempt with
  | Resolved result => Js.Returns result
  | Rejected message => Js.Throws message
  | Pending =>
      Js.Throws ("Chunk " +:+ Chunking.id chunk +:+ " timed out after "
              +:+ pretty (chunkTimeout cfg) +:+ "ms")
  end.

(** How the promise of [processChunkWithRetry] settles.  The rejection
    reason is [lastError]: an [Error] with a message, or [undefined] when
    no attempt was made. *)
Inductive Settlement :=
| Fulfilled (value : ChunkResult)
| RejectedWith (reason : option string).

(** The run of [processChunkWithRetry]: how it settles, how many times it
    called [processChunk], and the delays it slept. *)
Record RetryRun := {
  settlement : Settlement;
  calls : nat;
  sleeps : list N
}.

(** The loop [for (attempt = 1; attempt <= retryAttempts; attempt++)],
    with [remaining] iterations to go before [attempt] exceeds the
    bound. *)
Fixpoint retryLoop (cfg : Config) (agents : Agents) (chunk : Chunking.Chunk)
    (chunkIndex : nat) (remaining attempt : nat) (lastError : option string)
    (made : nat) (slept : list N) : RetryRun :=
  match remaining with
  | 0 => {| settlement := RejectedWith lastError; calls := made; sleeps := slept |}
  | S remaining' =>
      match processChunk cfg agents chunk chunkIndex attempt with
      | Js.Returns (Analyzed result) =>
          {| settlement := Fulfilled result; calls := S made; sleeps := slept |}
      | Js.Returns (NotAnalyzed error _ _) =>
          retryLoop cfg agents chunk chunkIndex remaining' (S attempt)
            (Some (Js.str_or error "Chunk processing failed")) (S made) slept
      | Js.Throws message =>
          retryLoop cfg agents chunk chunkIndex remaining' (S attempt)
            (Some message) (S made)
            (if attempt <? retryAttempts cfg then slept ++ [(2 ^ N.of_nat attempt * 1000)%N] else slept)
      end
  end.

Definition processChunkWithRetry (cfg : Config) (agents : Agents)
    (chunk : Chunking.Chunk) (chunkIndex : nat) : RetryRun :=
  retryLoop cfg agents chunk chunkIndex (retryAttempts cfg) 1 None 0 [].

(** An entry of [errors]: a JavaScript object. *)
Abbreviation ErrorEntry := (gmap string Js.val).

(** [result.reason.message || result.reason] *)
Definition reasonText (message : string) : Js.val :=
  if String.eqb message "" then Js.VError message else Js.VStr message.

Definition chunkError (chunkIndex : nat) (chunkId : string) (message : string)
  : ErrorEntry :=
  {[ "chunkIndex" := Js.VNum (N.of_nat chunkIndex);
     "chunkId" := Js.VStr chunkId;
     "error" := reasonText message ]}.

Definition batchError (batchIndex : nat) (message : string) : ErrorEntry :=
  {[ "batchIndex" := Js.VNum (N.of_nat batchIndex); "error" := Js.VStr message ]}.

(** The promises of one batch, settled: for the chunk at [index] of the
    batch, the chunk, its index [i + index] and its run. *)
Definition settleBatch (cfg : Config) (agents : Agents) (i : nat)
    (batch : list Chunking.Chunk) : list (Chunking.Chunk * nat * RetryRun) :=
  imap (fun index chunk =>
          (chunk, i + index, processChunkWithRetry cfg agents chunk (i + index))) batch.

(** The [forEach] over [batchResults].  Reading [.message] of an
    [undefined] reason throws: the rest of the batch is skipped and the
    flag tells the enclosing [catch] to run. *)
Fixpoint forEachSettled (runs : list (Chunking.Chunk * nat * RetryRun))
    (results : list ChunkResult) (errors : list ErrorEntry)
  : list ChunkResult * list ErrorEntry * bool :=
  match runs with
  | [] => (results, errors, false)
  | (chunk, chunkIndex, run) :: rest =>
      match settlement run with
      | Fulfilled value => forEachSettled rest (results ++ [value]) errors
      | RejectedWith (Some message) =>
          forEachSettled rest results
            (errors ++ [chunkError chunkIndex (Chunking.id chunk) message])
      | RejectedWith None => (results, errors, true)
      end
  end.

Record BatchOutcome := {
  results : list ChunkResult;
  errors : list ErrorEntry;
  duration : N;
  success : bool;
  processedChunks : nat;
  totalChunks : nat;
  (** Not a field of the returned object: for every chunk whose promise
      was created, its index and the number of [processChunk] calls made
      for it. *)
  attemptLog : list (nat * nat)
}.

(** The batch loop [for (i = 0; i < chunks.length; i += maxConcurrentChunks)].
    It does not advance when [maxConcurrentChunks = 0]: the fuel then runs
    out. *)
Fixpoint batchLoop (fuel : nat) (cfg : Config) (agents : Agents)
    (chunks : list Chunking.Chunk) (i : nat)
    (results : list ChunkResult) (errors : list ErrorEntry) (log : list (nat * nat))
  : option (list ChunkResult * list ErrorEntry * list (nat * nat)) :=
  if i <? length chunks then
    match fuel with
    | 0 => None
    | S fuel' =>
        let batch := Js.slice i (i + maxConcurrentChunks cfg) chunks in
        let runs := settleBatch cfg agents i batch in
        let log' := log ++ map (fun r => (r.1.2, calls r.2)) runs in
        match forEachSettled runs results errors with
        | (results', errors', false) =>
            batchLoop fuel' cfg agents chunks (i + maxConcurrentChunks cfg)
              results' errors' log'
        | (results', errors', true) =>
            batchLoop fuel' cfg agents chunks (i + maxConcurrentChunks cfg)
              results'
              (errors' ++ [batchError (i / maxConcurrentChunks cfg)
                             "Cannot read properties of undefined (reading 'message')"])
              log'
        end
    end
  else Some (results, errors, log).

(** [processChunksInParallel]; [elapsed] is the difference of the two
    clock readings.  [errorRate], a floating-point quotient, is left
    out.  [None]: the batch loop never ends. *)
Definition processChunksInParallel (cfg : Config) (agents : Agents)
    (chunks : list Chunking.Chunk) (elapsed : N) : option BatchOutcome :=
  match batchLoop (length chunks) cfg agents chunks 0 [] [] [] with
  | Some (results, errors, log) =>
      Some {| results := results;
              errors := errors;
              duration := elapsed;
              success := 0 <? length results;
              processedChunks := length results;
              totalChunks := length chunks;
              attemptLog := log |}
  | None => None
  end.

(** *** Notions used to state the results *)

(** All promises the batch loop creates from position [i] on, as if they
    were one batch. *)
Definition settleFrom (cfg : Config) (agents : Agents)
    (chunks : list Chunking.Chunk) (i : nat) : list (Chunking.Chunk * nat * RetryRun) :=
  settleBatch cfg agents i (drop i chunks).

Definition fulfilledOf (runs : list (Chunking.Chunk * nat * RetryRun)) : list ChunkResult :=
  omap (fun r => match settlement r.2 with
                 | Fulfilled value => Some value
                 | RejectedWith _ => None
                 end) runs.

Definition rejectedOf (runs : list (Chunking.Chunk * nat * RetryRun)) : list ErrorEntry :=
  omap (fun r => match settlement r.2 with
                 | RejectedWith (Some message) =>
                     Some (chunkError r.1.2 (Chunking.id r.1.1) message)
                 | _ => None
                 end) runs.

Definition logOf (runs : list (Chunking.Chunk * nat * RetryRun)) : list (nat * nat) :=
  map (fun r => (r.1.2, calls r.2)) runs.



(** Every attempt made for the chunk fails: [processChunk] throws (a
    timeout) or returns an unsuccessful result. *)
Definition attemptFails (t : Js.Try ChunkOutcome) : Prop :=
  match t with
  | Js.Returns (Analyzed _) => False
  | _ => True
  end.

(** The message of the error a failed attempt leaves in [lastError]. *)
Definition failureMessage (t : Js.Try ChunkOutcome) : string :=
  match t with
  | Js.Throws message => message
  | Js.Returns (NotAnalyzed error _ _) => Js.str_or error "Chunk processing failed"
  | Js.Returns (Analyzed _) => ""
  end.

(** The attempt throws. *)
Definition throwsAt (cfg : Config) (agents : Agents) (chunk : Chunking.Chunk)
    (chunkIndex attempt : nat) : bool :=
  match processChunk cfg agents chunk chunkIndex attempt with
  | Js.Throws _ => true
  | Js.Returns _ => false
  end.

(** [Math.pow(2, attempt) * 1000] *)
Definition backoffDelay (attempt : nat) : N := (2 ^ N.of_nat attempt * 1000)%N.

(** [createChunkTree]: the repository tree handed to the analyzer for one
    chunk. *)
Definition createChunkTree (chunk : Chunking.Chunk) (repoName branchName : string) : string :=
  Js.join Js.nl
    (["Repository: " +:+ repoName;
      "Branch: " +:+ branchName;
      "Chunk: " +:+ Chunking.name chunk;
      "Type: " +:+ Chunking.chunk_type chunk;
      "Priority: " +:+ Chunking.priority chunk;
      "Files (" +:+ pretty (length (Chunking.files chunk)) +:+ "):"]
     ++ map (fun file => "- " +:+ file) (Chunking.files chunk)).

End Coordinator.

(** ** ResultsAggregator *)

Module Aggregator.
Import Records.

Record Summary := {
  total_chunks : nat;
  successful_chunks : nat;
  failed_chunks : nat;
  chunk_types : list (string * nat);
  processing_time : string
}.

(** The [data] of an aggregation: the unified record and its summary
    block.  In an object parsed from the synthesis reply the block may be
    missing. *)
Record Aggregated := {
  unified : Analysis;
  chunk_analysis_summary : option Summary
}.

Record Metadata := {
  aggregationMethod : string;
  successfulChunks : nat;
  totalChunks : nat;
  processingTime : N
}.

Record AggregationResult := {
  success : bool;
  data : option Aggregated;
  raw : option string;
  metadata : option Metadata;
  error : option string
}.

(** What the chat call and the JSON parse of [createIntelligentAggregation]
    deliver: nothing usable, or the parsed object. *)
Inductive Reply :=
| Unusable (message : string)
| Parsed (aggregatedData : Aggregated) (rawText : string).

(** [`${Math.floor(d / 60000)} minutes ${Math.floor((d % 60000) / 1000)} seconds`] *)
Definition showDuration (d : N) : string :=
  Js.showDiv d 60000 +:+ " minutes " +:+ Js.showDiv (d `mod` 60000)%N 1000 +:+ " seconds".

(** [results.length + errors.length] *)
Definition countAll (chunkResults : Coordinator.BatchOutcome) : nat :=
  length (Coordinator.results chunkResults) + length (Coordinator.errors chunkResults).

(** The winner of [reduce((a, b) => a[1] > b[1] ? a : b)]. *)
Definition keepGreater (a b : string * nat) : string * nat :=
  if b.2 <? a.2 then a else b.

Definition determineArchitecturePattern (results : list ChunkResult) : Js.Try string :=
  let patterns :=
    Js.truthy_strs (map (fun r => architecture_pattern (analysis r)) results) in
  if bool_decide (patterns = []) then Js.Returns "Unknown"
  else
    let patternCounts := foldl (fun counts pattern => Js.bump pattern counts) [] patterns in
    match Js.entries patternCounts with
    | [] => Js.Throws "Reduce of empty array with no initial value"
    | first :: rest => Js.Returns (foldl keepGreater first rest).1
    end.

Definition consolidateTechStack (results : list ChunkResult) : list string :=
  foldl (fun allTech result =>
           Js.set_add_all allTech (Js.obj_or (tech_stack (analysis result)) []))
        [] results.

Definition componentKey (comp : Component) : string :=
  Js.tmpl (name comp) +:+ "-" +:+ Js.tmpl (type comp).

(** [componentMap.get(key)] on the map kept as its entry list. *)
Fixpoint mapGet (key : string) (m : list (string * Component)) : option Component :=
  match m with
  | [] => None
  | (k, v) :: rest => if String.eqb k key then Some v else mapGet key rest
  end.

(** Writing to the object stored under [key], which keeps its place. *)
Fixpoint mapReplace (key : string) (v' : Component) (m : list (string * Component))
  : list (string * Component) :=
  match m with
  | [] => []
  | (k, v) :: rest =>
      if String.eqb k key then (k, v') :: rest else (k, v) :: mapReplace key v' rest
  end.

(** The body of the inner [forEach] of [mergeComponents].  Spreading a
    missing [technologies] of the stored component throws. *)
Definition mergeOne (resultChunkId : string) (componentMap : list (string * Component))
    (comp : Component) : Js.Try (list (string * Component)) :=
  let key := componentKey comp in
  match mapGet key componentMap with
  | Some existing =>
      match technologies existing, chunks existing with
      | Some existingTech, Some existingChunks =>
          Js.Returns
            (mapReplace key
               {| name := name existing;
                  type := type existing;
                  technologies :=
                    Some (Js.set_add_all []
                            (existingTech ++ Js.obj_or (technologies comp) []));
                  description :=
                    Some (Js.tmpl (description existing) +:+ "; "
                          +:+ Js.str_or (description comp) "");
                  chunks := Some (Js.set_add_all [] (existingChunks ++ [resultChunkId])) |}
               componentMap)
      | None, _ => Js.Throws "existing.technologies is not iterable"
      | _, None => Js.Throws "existing.chunks is not iterable"
      end
  | None =>
      Js.Returns
        (componentMap ++
           [(key, {| name := name comp; type := type comp;
                     technologies := technologies comp;
                     description := description comp;
                     chunks := Some [resultChunkId] |})])
  end.

(** A [forEach] whose body may throw. *)
Fixpoint forEachTry {A S} (body : S -> A -> Js.Try S) (l : list A) (st : S) : Js.Try S :=
  match l with
  | [] => Js.Returns st
  | x :: rest => Js.bind (body st x) (forEachTry body rest)
  end.

Definition mergeComponents (results : list ChunkResult) : Js.Try (list Component) :=
  Js.bind
    (forEachTry
       (fun componentMap result =>
          forEachTry (mergeOne (chunkId result))
            (Js.obj_or (key_components (analysis result)) []) componentMap)
       results [])
    (fun componentMap => Js.Returns (map snd componentMap)).

Definition consolidateInsights (results : list ChunkResult) : list string :=
  foldl (fun allInsights result =>
           Js.set_add_all allInsights (Js.obj_or (insights (analysis result)) []))
        [] results.

(** [{ ...dep, strength: 'medium' }] *)
Definition withMediumStrength (dep : Dep) : Dep :=
  <["strength" := Js.VStr "medium"]> dep.

(** The two nested [forEach] of [mergeDependencies], pushing to
    [allDeps]. *)
Definition mergeDependencies (results : list ChunkResult) : list Dep :=
  foldl (fun allDeps result =>
           foldl (fun allDeps dep => allDeps ++ [withMediumStrength dep])
                 allDeps
                 (Js.obj_or (dependencies (analysis result)) []))
        [] results.

Definition emptyFileStructure : FileStructure :=
  {| main_directories := None; configuration_files := None;
     test_structure := None; documentation_presence := None |}.

(** [if (x) current = x] *)
Definition overwriteIfTruthy (current : string) (x : option string) : string :=
  Js.str_or x current.

Definition consolidateFileStructure (results : list ChunkResult) : FileStructure :=
  let '(allDirs, allConfigs, testStructure, docPresence) :=
    foldl (fun '(allDirs, allConfigs, testStructure, docPresence) result =>
             let fs := Js.obj_or (file_structure_analysis (analysis result))
                                 emptyFileStructure in
             (Js.set_add_all allDirs (Js.obj_or (main_directories fs) []),
              Js.set_add_all allConfigs (Js.obj_or (configuration_files fs) []),
              overwriteIfTruthy testStructure (test_structure fs),
              overwriteIfTruthy docPresence (documentation_presence fs)))
          ([], [], "", "") results in
  {| main_directories := Some allDirs;
     configuration_files := Some allConfigs;
     test_structure := Some (Js.str_or (Some testStructure) "Unknown");
     documentation_presence := Some (Js.str_or (Some docPresence) "Unknown") |}.

Definition consolidateScalabilityNotes (results : list ChunkResult) : string :=
  let notes :=
    Js.join "; " (Js.truthy_strs (map (fun r => scalability_notes (analysis r)) results)) in
  Js.str_or (Some notes) "No scalability analysis available".

Definition consolidateSecurityConsiderations (results : list ChunkResult) : string :=
  let considerations :=
    Js.join "; "
      (Js.truthy_strs (map (fun r => security_considerations (analysis r)) results)) in
  Js.str_or (Some considerations) "No security analysis available".

Definition analyzeChunkTypes (results : list ChunkResult) : list (string * nat) :=
  foldl (fun types result => Js.bump (Js.str_or (Some (chunkType result)) "unknown") types)
        [] results.

Definition createRuleBasedAggregation (successfulResults : list ChunkResult)
    (chunkResults : Coordinator.BatchOutcome) : Js.Try AggregationResult :=
  Js.bind (determineArchitecturePattern successfulResults) (fun pattern =>
  Js.bind (mergeComponents successfulResults) (fun components =>
  Js.Returns
    {| success := true;
       data := Some
         {| unified :=
              {| architecture_pattern := Some pattern;
                 tech_stack := Some (consolidateTechStack successfulResults);
                 key_components := Some components;
                 insights := Some (consolidateInsights successfulResults);
                 dependencies := Some (mergeDependencies successfulResults);
                 file_structure_analysis :=
                   Some (consolidateFileStructure successfulResults);
                 scalability_notes :=
                   Some (consolidateScalabilityNotes successfulResults);
                 security_considerations :=
                   Some (consolidateSecurityConsiderations successfulResults) |};
            chunk_analysis_summary := Some
              {| total_chunks := countAll chunkResults;
                 successful_chunks := length successfulResults;
                 failed_chunks := length (Coordinator.errors chunkResults);
                 chunk_types := analyzeChunkTypes successfulResults;
                 processing_time := showDuration (Coordinator.duration chunkResults) |} |};
       raw := Some "Rule-based aggregation used";
       metadata := Some
         {| aggregationMethod := "Rule-based fallback aggregation";
            successfulChunks := length successfulResults;
            totalChunks := countAll chunkResults;
            processingTime := Coordinator.duration chunkResults |};
       error := None |})).

Definition createFallbackAggregation (chunkResults : Coordinator.BatchOutcome)
  : AggregationResult :=
  {| success := true;
     data := Some
       {| unified :=
            {| architecture_pattern := Some "Unknown";
               tech_stack := Some [];
               key_components := Some [];
               insights := Some ["Analysis failed - no successful chunks to aggregate"];
               dependencies := Some [];
               file_structure_analysis := Some
                 {| main_directories := Some [];
                    configuration_files := Some [];
                    test_structure := Some "Unknown";
                    documentation_presence := Some "Unknown" |};
               scalability_notes := Some "Analysis incomplete";
               security_considerations := Some "Analysis incomplete" |};
          chunk_analysis_summary := Some
            {| total_chunks := countAll chunkResults;
               successful_chunks := 0;
               failed_chunks := countAll chunkResults;
               chunk_types := [];
               processing_time := showDuration (Coordinator.duration chunkResults) |} |};
     raw := Some "Fallback aggregation used";
     metadata := Some
       {| aggregationMethod := "Fallback aggregation";
          successfulChunks := 0;
          totalChunks := countAll chunkResults;
          processingTime := Coordinator.duration chunkResults |};
     error := None |}.

(** [createIntelligentAggregation]: the parsed reply becomes [data] as it
    is.  The prompt text built by [formatChunkResultsForAggregation] only
    matters to the model that answers, and is not represented. *)
Definition createIntelligentAggregation (successfulResults : list ChunkResult)
    (chunkResults : Coordinator.BatchOutcome) (reply : Reply) : AggregationResult :=
  match reply with
  | Unusable message =>
      {| success := false; data := None; raw := None; metadata := None;
         error := Some message |}
  | Parsed aggregatedData text =>
      {| success := true;
         data := Some aggregatedData;
         raw := Some text;
         metadata := Some
           {| aggregationMethod := "AI-based intelligent aggregation";
              successfulChunks := length successfulResults;
              totalChunks := countAll chunkResults;
              processingTime := Coordinator.duration chunkResults |};
         error := None |}
  end.

(** [aggregateResults]; its [catch] answers any exception with the
    fallback aggregation. *)
Definition aggregateResults (chunkResults : Coordinator.BatchOutcome) (reply : Reply)
  : AggregationResult :=
  let successfulResults :=
    filter (fun r => Records.success r = true) (Coordinator.results chunkResults) in
  if bool_decide (successfulResults = []) then createFallbackAggregation chunkResults
  else
    let aggregationResult :=
      createIntelligentAggregation successfulResults chunkResults reply in
    if negb (success aggregationResult) then
      match createRuleBasedAggregation successfulResults chunkResults with
      | Js.Returns r => r
      | Js.Throws _ => createFallbackAggregation chunkResults
      end
    else aggregationResult.

(** *** Notions used to state the results *)

(** The dependency edges of all results, one result after the other. *)
Definition allInputEdges (results : list ChunkResult) : list Dep :=
  concat (map (fun r => Js.obj_or (dependencies (analysis r)) []) results).

(** [out] is [dep] with [strength] set to ['medium'] and every other
    field as in [dep]. *)
Definition edgeRewritten (dep out : Dep) : Prop :=
  out !! "strength" = Some (Js.VStr "medium")
  ∧ ∀ field, field ≠ "strength" → out !! field = dep !! field.


Definition occurrences (p : string) (ps : list string) : nat :=
  length (filter (fun q => q = p) ps).

(** The distinct labels, in the order in which each occurs first; [seen]
    are the labels met so far. *)
Fixpoint firstOccurrencesFrom (seen ps : list string) : list string :=
  match ps with
  | [] => []
  | p :: rest =>
      if bool_decide (p ∈ seen) then firstOccurrencesFrom seen rest
      else p :: firstOccurrencesFrom (seen ++ [p]) rest
  end.

Definition firstOccurrences (ps : list string) : list string :=
  firstOccurrencesFrom [] ps.




(** The components of all results, each with the id of the chunk that
    reported it, in the order in which [mergeComponents] visits them. *)
Definition allInputComponents (results : list ChunkResult) : list (string * Component) :=
  concat (map (fun r => map (fun comp => (chunkId r, comp))
                            (Js.obj_or (key_components (analysis r)) []))
              results).

(** The component map holds, under [key], a component that lists the
    chunk [resultChunkId]. *)
Definition registered (resultChunkId key : string) (componentMap : list (string * Component))
  : Prop :=
  ∃ stored storedChunks,
    mapGet key componentMap = Some stored
    ∧ chunks stored = Some storedChunks
    ∧ resultChunkId ∈ storedChunks.

(** Every entry of the component map is stored under its own key. *)
Definition keyed (componentMap : list (string * Component)) : Prop :=
  Forall (fun kv => componentKey kv.2 = kv.1) componentMap.

(** The file-structure record of a result, [{}] when missing. *)
Definition fileStructureOf (r : ChunkResult) : FileStructure :=
  Js.obj_or (file_structure_analysis (analysis r)) emptyFileStructure.

(** The type under which [analyzeChunkTypes] counts a result. *)
Definition countedType (r : ChunkResult) : string :=
  Js.str_or (Some (chunkType r)) "unknown".

End Aggregator.

(** ** AgentOrchestrator *)

Module Orchestrator.
Import Records.

Record Config := {
  chunkingConfig : Chunking.Config;
  parallelConfig : Coordinator.Config;
  enableFallback : bool;
  enableChunking : bool;
  chunkingThreshold : nat
}.

Definition defaultConfig : Config :=
  {| chunkingConfig := Chunking.defaultConfig;
     parallelConfig := Coordinator.defaultConfig;
     enableFallback := true;
     enableChunking := true;
     chunkingThreshold := 500 |}.

(** The agents the orchestrator holds.  A run is recorded as the list of
    the agents whose entry point ([analyze], [buildDiagram],
    [chunkRepository], [processChunksInParallel], [aggregateResults]) it
    called, in order. *)
Inductive Call :=
| AnalyzerAgent
| DiagramBuilderAgent
| ChunkingAgent
| ParallelCoordinator
| ResultsAggregator.

#[global] Instance Call_eq_dec : EqDecision Call.
Proof. solve_decision. Defined.

(** Everything outside the orchestrator that one request depends on: the
    answers of the language-model agents, the clock, and the two fallback
    builders of the analyzer and diagram agents, which are pure functions
    of their argument and whose bodies play no part in the results
    below. *)
Record World := {
  wholeAnalysis : Js.Try AnalyzerResult;
  wholeDiagram : Js.Try DiagramResult;
  chunkingReply : Chunking.Reply;
  chunkAgents : Coordinator.Agents;
  parallelElapsed : N;
  synthesisReply : Aggregator.Reply;
  unifiedDiagram : Js.Try DiagramResult;
  createFallbackAnalysis : string -> Analysis;
  createFallbackDiagram : Analysis -> string;
  analysisDuration : N
}.

(** The [data] of a response.  The [raw] texts are left out.
    [chunkAnalysisSummary = None] stands for a missing field and for the
    empty object. *)
Record FinalData := {
  architecture : option string;
  techStack : option (list string);
  insights : option (list string);
  keyComponents : option (list Component);
  dependencies : option (list Dep);
  fileStructureAnalysis : option FileStructure;
  scalabilityNotes : option string;
  securityConsiderations : option string;
  mermaid : string;
  chunkAnalysisSummary : option Aggregator.Summary
}.

(** A response; [metadata] is kept as an object, field name to value, its
    [timestamp] left out. *)
Record Response := {
  success : bool;
  error : option string;
  message : option string;
  data : FinalData;
  metadata : gmap string Js.val
}.

Definition countFilesInRepository (repoTree : string) : nat :=
  length (filter (fun line => Js.startsWith "- " line = true) (Js.lines repoTree)).

Definition combineResults (analysisResult : AnalyzerResult) (diagramResult : DiagramResult)
  : FinalData :=
  let analysisData := a_data analysisResult in
  {| architecture := Some (Js.str_or (architecture_pattern analysisData) "Unknown");
     techStack := Some (Js.obj_or (tech_stack analysisData) []);
     insights := Some (Js.obj_or (Records.insights analysisData) []);
     keyComponents := Some (Js.obj_or (key_components analysisData) []);
     dependencies := Some (Js.obj_or (Records.dependencies analysisData) []);
     fileStructureAnalysis := file_structure_analysis analysisData;
     scalabilityNotes := Some (Js.str_or (scalability_notes analysisData) "");
     securityConsiderations := Some (Js.str_or (security_considerations analysisData) "");
     mermaid := Js.str_or (d_diagram diagramResult) "";
     chunkAnalysisSummary := None |}.

(** An optional string as a value: [undefined] when missing. *)
Definition optVal (o : option string) : Js.val :=
  match o with Some s => Js.VStr s | None => Js.VUndef end.

Definition createFallbackResponse (w : World) (repoTree : string) (err : option string)
  : Response :=
  let fallbackAnalysis := createFallbackAnalysis w repoTree in
  let fallbackDiagram := createFallbackDiagram w fallbackAnalysis in
  {| success := true;
     error := None;
     message := None;
     data :=
       {| architecture := architecture_pattern fallbackAnalysis;
          techStack := tech_stack fallbackAnalysis;
          insights := Some
            ["Analysis completed with fallback method due to agent failure";
             match err with
             | Some e => if String.eqb e "" then "Unknown error occurred"
                         else "Error: " +:+ e
             | None => "Unknown error occurred"
             end];
          keyComponents := key_components fallbackAnalysis;
          dependencies := Records.dependencies fallbackAnalysis;
          fileStructureAnalysis := file_structure_analysis fallbackAnalysis;
          scalabilityNotes := scalability_notes fallbackAnalysis;
          securityConsiderations := security_considerations fallbackAnalysis;
          mermaid := fallbackDiagram;
          chunkAnalysisSummary := None |};
     metadata := {[ "fallbackUsed" := Js.VBool true; "error" := optVal err ]} |}.

Definition createResponseWithFallbackDiagram (w : World) (analysisResult : AnalyzerResult)
    (diagramError : option string) : Response :=
  let analysisData := a_data analysisResult in
  let fallbackDiagram := createFallbackDiagram w analysisData in
  {| success := true;
     error := None;
     message := None;
     data :=
       {| architecture := Some (Js.str_or (architecture_pattern analysisData) "Unknown");
          techStack := Some (Js.obj_or (tech_stack analysisData) []);
          insights := Some
            (Js.obj_or (Records.insights analysisData) []
             ++ ["Diagram created using fallback method due to diagram builder failure"]);
          keyComponents := Some (Js.obj_or (key_components analysisData) []);
          dependencies := Some (Js.obj_or (Records.dependencies analysisData) []);
          fileStructureAnalysis := file_structure_analysis analysisData;
          scalabilityNotes := Some (Js.str_or (scalability_notes analysisData) "");
          securityConsiderations :=
            Some (Js.str_or (security_considerations analysisData) "");
          mermaid := fallbackDiagram;
          chunkAnalysisSummary := None |};
     metadata := {[ "fallbackDiagramUsed" := Js.VBool true;
                    "diagramError" := optVal diagramError ]} |}.

Definition createErrorResponse (errorMessage : string) : Response :=
  {| success := false;
     error := Some "Multi-agent analysis failed";
     message := Some errorMessage;
     data :=
       {| architecture := Some "Unknown";
          techStack := Some [];
          insights := Some ["Analysis failed due to system error"];
          keyComponents := Some [];
          dependencies := Some [];
          fileStructureAnalysis := None;
          scalabilityNotes := Some "";
          securityConsiderations := Some "";
          mermaid := "";
          chunkAnalysisSummary := None |};
     metadata := {[ "error" := Js.VStr errorMessage ]} |}.

Definition combineChunkedResults (aggregatedData : Aggregator.Aggregated)
    (mermaidDiagram : string) : FinalData :=
  let u := Aggregator.unified aggregatedData in
  {| architecture := Some (Js.str_or (architecture_pattern u) "Unknown");
     techStack := Some (Js.obj_or (tech_stack u) []);
     insights := Some (Js.obj_or (Records.insights u) []);
     keyComponents := Some (Js.obj_or (key_components u) []);
     dependencies := Some (Js.obj_or (Records.dependencies u) []);
     fileStructureAnalysis := file_structure_analysis u;
     scalabilityNotes := Some (Js.str_or (scalability_notes u) "");
     securityConsiderations := Some (Js.str_or (security_considerations u) "");
     mermaid := mermaidDiagram;
     chunkAnalysisSummary := Aggregator.chunk_analysis_summary aggregatedData |}.

(** [analyzeWithoutChunking]: the response and the agents called. *)
Definition analyzeWithoutChunking (w : World) (repoTree : string)
  : Response * list Call :=
  match wholeAnalysis w with
  | Js.Throws m => (createErrorResponse m, [AnalyzerAgent])
  | Js.Returns analysisResult =>
      if negb (a_success analysisResult) then
        (createFallbackResponse w repoTree (a_error analysisResult), [AnalyzerAgent])
      else
        match wholeDiagram w with
        | Js.Throws m => (createErrorResponse m, [AnalyzerAgent; DiagramBuilderAgent])
        | Js.Returns diagramResult =>
            if negb (d_success diagramResult) then
              (createResponseWithFallbackDiagram w analysisResult (d_error diagramResult),
               [AnalyzerAgent; DiagramBuilderAgent])
            else
              ({| success := true;
                  error := None;
                  message := None;
                  data := combineResults analysisResult diagramResult;
                  metadata :=
                    {[ "analysisDuration" := Js.VNum (analysisDuration w);
                       "analysisMethod" := Js.VStr "single-chunk";
                       "analyzerSuccess" := Js.VBool (a_success analysisResult);
                       "diagramBuilderSuccess" := Js.VBool (d_success diagramResult) ]} |},
               [AnalyzerAgent; DiagramBuilderAgent])
        end
  end.

(** [analyzeWithChunking]; [None] when a loop of the chunking agent or of
    the coordinator never ends. *)
Definition analyzeWithChunking (cfg : Config) (w : World) (repoTree : string)
  : option (Response * list Call) :=
  match Chunking.chunkRepository (chunkingConfig cfg)
          (Chunking.extractFilesFromTree repoTree) (chunkingReply w) with
  | None => None
  | Some chunkingResult =>
      if negb (Chunking.success chunkingResult) then
        let '(r, calls) := analyzeWithoutChunking w repoTree in
        Some (r, ChunkingAgent :: calls)
      else
        let chunks := Chunking.chunksOf chunkingResult in
        match Coordinator.processChunksInParallel (parallelConfig cfg) (chunkAgents w)
                chunks (parallelElapsed w) with
        | None => None
        | Some parallelResult =>
            if negb (Coordinator.success parallelResult) then
              Some (createFallbackResponse w repoTree (Some "Parallel processing failed"),
                    [ChunkingAgent; ParallelCoordinator])
            else
              let aggregationResult :=
                Aggregator.aggregateResults parallelResult (synthesisReply w) in
              if negb (Aggregator.success aggregationResult) then
                Some (createFallbackResponse w repoTree (Some "Results aggregation failed"),
                      [ChunkingAgent; ParallelCoordinator; ResultsAggregator])
              else
                let calls := [ChunkingAgent; ParallelCoordinator; ResultsAggregator;
                              DiagramBuilderAgent] in
                match unifiedDiagram w, Aggregator.data aggregationResult with
                | Js.Throws m, _ => Some (createErrorResponse m, calls)
                | Js.Returns _, None =>
                    Some (createErrorResponse
                            "Cannot read properties of null (reading 'architecture_pattern')",
                          calls)
                | Js.Returns diagramResult, Some aggregatedData =>
                    Some
                      ({| success := true;
                          error := None;
                          message := None;
                          data := combineChunkedResults aggregatedData
                                    (Js.str_or (d_diagram diagramResult) "");
                          metadata :=
                            {[ "analysisDuration" := Js.VNum (analysisDuration w);
                               "analysisMethod" := Js.VStr "chunked";
                               "chunkingStrategy" :=
                                 optVal (Chunking.chunkingStrategy
                                           <$> Chunking.data chunkingResult);
                               "totalChunks" := Js.VNum (N.of_nat (length chunks));
                               "processedChunks" :=
                                 Js.VNum (N.of_nat
                                            (Coordinator.processedChunks parallelResult));
                               "failedChunks" :=
                                 Js.VNum (N.of_nat
                                            (length (Coordinator.errors parallelResult)));
                               "parallelProcessingTime" :=
                                 Js.VNum (Coordinator.duration parallelResult);
                               "aggregationMethod" :=
                                 Js.VStr
                                   (Js.str_or
                                      (Aggregator.aggregationMethod
                                         <$> Aggregator.metadata aggregationResult)
                                      "unknown") ]} |},
                       calls)
                end
        end
  end.

(** [analyzeRepository] *)
Definition analyzeRepository (cfg : Config) (w : World) (repoTree : string)
  : option (Response * list Call) :=
  let fileCount := countFilesInRepository repoTree in
  if (chunkingThreshold cfg <? fileCount) && enableChunking cfg
  then analyzeWithChunking cfg w repoTree
  else Some (analyzeWithoutChunking w repoTree).

(** *** Notions used to state the results *)

(** The path indicator of a response. *)
Definition analysisMethod (r : Response) : option Js.val := metadata r !! "analysisMethod".

(** The analyzer and the diagram builder both answer, and successfully. *)
Definition bothAgentsSucceed (w : World) : bool :=
  match wholeAnalysis w, wholeDiagram w with
  | Js.Returns a, Js.Returns d => a_success a && d_success d
  | _, _ => false
  end.

End Orchestrator.

(** ** MermaidDiagramBuilderAgent: validation and the fallback diagram *)

Module DiagramBuilder.
Import Records.

Record Validation := {
  isValid : bool;
  error : option string
}.

(** [s] holds the character [c]. *)
Fixpoint hasChar (c : ascii) (s : string) : bool :=
  match s with
  | EmptyString => false
  | String a r => Ascii.eqb a c || hasChar c r
  end.

(** [s] has a match of the pattern that reads the character [opening],
    then characters other than [closing], then [closing]; that is, some
    [opening] of [s] is followed, somewhere, by a [closing]. *)
Fixpoint hasPair (opening closing : ascii) (s : string) : bool :=
  match s with
  | EmptyString => false
  | String a r => (Ascii.eqb a opening && hasChar closing r) || hasPair opening closing r
  end.

(** [diagram.match(nodePattern)] finds something.  The fourth
    alternative of the pattern, a doubled parenthesis, only matches where
    the second does: it does not appear. *)
Definition nodesFound (diagram : string) : bool :=
  hasPair "[" "]" diagram || hasPair "(" ")" diagram || hasPair "{" "}" diagram.

Definition issuesOf (diagram : string) : list string :=
  (if Js.includes "graph" (Js.toLowerCase diagram) then []
   else ["Missing graph declaration"])
  ++ (if nodesFound diagram then [] else ["No valid nodes found"])
  ++ (if Js.includes "-->" diagram then [] else ["No valid arrows found"]).

Definition validateMermaidSyntax (diagram : string) : Validation :=
  if String.eqb diagram "" then {| isValid := false; error := Some "Empty diagram" |}
  else
    let issues := issuesOf diagram in
    {| isValid := bool_decide (length issues = 0);
       error := if 0 <? length issues then Some (Js.join ", " issues) else None |}.

(** [String.fromCharCode(n)], for the codes of the ASCII range. *)
Definition fromCharCode (n : nat) : string := String (Ascii.ascii_of_nat n) EmptyString.

(** [`${comp.name}: ${comp.type}`] *)
Definition labelOf (comp : Component) : string :=
  Js.tmpl (name comp) +:+ ": " +:+ Js.tmpl (type comp).

(** The [forEach] of [createFallbackDiagram], from position [index] on;
    [diagram] is the text so far. *)
Fixpoint forEachComponent (index : nat) (components : list Component) (diagram : string)
  : string :=
  match components with
  | [] => diagram
  | comp :: rest =>
      let nodeId := fromCharCode (65 + index) in
      let label := labelOf comp in
      let diagram := diagram +:+ ("  " +:+ nodeId +:+ "[" +:+ label +:+ "]" +:+ Js.nl) in
      let diagram :=
        if 0 <? index then
          diagram +:+ ("  " +:+ fromCharCode (65 + index - 1) +:+ " --> " +:+ nodeId
                       +:+ Js.nl)
        else diagram in
      forEachComponent (S index) rest diagram
  end.

Definition createFallbackDiagram (analysisData : Analysis) : string :=
  let components := Js.obj_or (key_components analysisData) [] in
  let diagram := "graph TD" +:+ Js.nl in
  if 0 <? length components then forEachComponent 0 components diagram
  else
    diagram +:+ ("  A[Application]" +:+ Js.nl) +:+ ("  B[Database]" +:+ Js.nl)
    +:+ ("  A --> B" +:+ Js.nl).

End DiagramBuilder.

(** ** Concrete inputs used by the examples *)

Module Scenarios.
Import Chunking.

(** A proposal of one unit listing [fl], every other field missing. *)
Definition proposalOf (fl : list string) : Proposed :=
  {| p_id := None; p_name := None; p_description := None; p_files := Some fl;
     p_priority := None; p_dependencies := None; p_chunk_type := None |}.

Definition tinyConfig : Config :=
  {| maxChunkSize := 1; maxChunks := 10; minChunkSize := 1 |}.

(** A reply that lists one of two files only. *)
Definition droppingReply : Reply :=
  Parsed (Some [proposalOf ["a.js"]]) None None "{...}".

(** A reply that lists the same file in two units. *)
Definition duplicatingReply : Reply :=
  Parsed (Some [proposalOf ["a.js"; "b.js"]; proposalOf ["a.js"]]) None None "{...}".

(** 800 files: 799 style sheets and one file of no known category. *)
Definition styleHeavyListing : list string :=
  map (fun i => "styles/f" +:+ pretty i +:+ ".css") (seq 0 799) ++ ["Makefile"].

(** Five units; the analyzer answers for every unit but the third, for
    which it reports failure at every attempt. *)
Definition unitNo (n : nat) : Chunk :=
  {| id := "chunk_" +:+ pretty n; name := "Unit " +:+ pretty n;
     description := "Generated chunk"; files := ["f" +:+ pretty n +:+ ".js"];
     priority := "medium"; dependencies := []; chunk_type := "mixed" |}.

Definition fiveUnits : list Chunk := map unitNo [1; 2; 3; 4; 5].

Definition emptyAnalysis : Records.Analysis :=
  {| Records.architecture_pattern := None; Records.tech_stack := None;
     Records.key_components := None; Records.insights := None;
     Records.dependencies := None; Records.file_structure_analysis := None;
     Records.scalability_notes := None; Records.security_considerations := None |}.

Definition thirdFails : Coordinator.Agents :=
  {| Coordinator.analyze := fun chunkIndex attempt chunk =>
       if chunkIndex =? 2 then
         Coordinator.Resolved
           {| Records.a_success := false; Records.a_data := emptyAnalysis;
              Records.a_error := Some "model unavailable" |}
       else
         Coordinator.Resolved
           {| Records.a_success := true; Records.a_data := emptyAnalysis;
              Records.a_error := None |};
     Coordinator.buildDiagram := fun _ _ _ =>
       Coordinator.Resolved
         {| Records.d_success := true; Records.d_diagram := Some "graph TD";
            Records.d_error := None |} |}.

(** A policy that allows no attempt at all. *)
Definition noAttemptConfig : Coordinator.Config :=
  {| Coordinator.maxConcurrentChunks := 3; Coordinator.chunkTimeout := 1000%N;
     Coordinator.retryAttempts := 0 |}.

(** Agents that never answer in time. *)
Definition neverAnswers : Coordinator.Agents :=
  {| Coordinator.analyze := fun _ _ _ => Coordinator.Pending;
     Coordinator.buildDiagram := fun _ _ _ => Coordinator.Pending |}.

(** Agents of which the analyzer reports failure at the first attempt for
    every unit and answers at the second. *)
Definition secondTimeLucky : Coordinator.Agents :=
  {| Coordinator.analyze := fun chunkIndex attempt chunk =>
       if attempt =? 1 then
         Coordinator.Resolved
           {| Records.a_success := false; Records.a_data := emptyAnalysis;
              Records.a_error := Some "busy" |}
       else
         Coordinator.Resolved
           {| Records.a_success := true; Records.a_data := emptyAnalysis;
              Records.a_error := None |};
     Coordinator.buildDiagram := fun _ _ _ =>
       Coordinator.Resolved
         {| Records.d_success := true; Records.d_diagram := Some "graph TD";
            Records.d_error := None |} |}.

Definition scenarioCConfig : Coordinator.Config :=
  {| Coordinator.maxConcurrentChunks := 3; Coordinator.chunkTimeout := 1000%N;
     Coordinator.retryAttempts := 2 |}.

(** A successful result for chunk [chunkId] carrying [a]. *)
Definition resultWith (chunkId : string) (a : Records.Analysis) : Records.ChunkResult :=
  {| Records.success := true; Records.chunkId := chunkId; Records.chunkIndex := 0;
     Records.chunkName := chunkId; Records.chunkType := "mixed";
     Records.priority := "medium"; Records.fileCount := 1; Records.analysis := a;
     Records.diagram := ""; Records.diagramSuccess := true |}.

Definition labelled (label : string) : Records.Analysis :=
  {| Records.architecture_pattern := Some label; Records.tech_stack := None;
     Records.key_components := None; Records.insights := None;
     Records.dependencies := None; Records.file_structure_analysis := None;
     Records.scalability_notes := None; Records.security_considerations := None |}.

(** Two results whose labels occur once each. *)
Definition tiedLabels : list Records.ChunkResult :=
  [resultWith "chunk_1" (labelled "MVC"); resultWith "chunk_2" (labelled "Microservices")].

Definition component (name type : string) : Records.Component :=
  {| Records.name := Some name; Records.type := Some type;
     Records.technologies := Some []; Records.description := Some (name +:+ "/" +:+ type);
     Records.chunks := None |}.

Definition withComponents (cs : list Records.Component) : Records.Analysis :=
  {| Records.architecture_pattern := None; Records.tech_stack := None;
     Records.key_components := Some cs; Records.insights := None;
     Records.dependencies := None; Records.file_structure_analysis := None;
     Records.scalability_notes := None; Records.security_considerations := None |}.

(** A batch outcome as the aggregator reads it. *)
Definition outcomeOf (results : list Records.ChunkResult)
    (errors : list (gmap string Js.val)) (duration : N) : Coordinator.BatchOutcome :=
  {| Coordinator.results := results; Coordinator.errors := errors;
     Coordinator.duration := duration; Coordinator.success := 0 <? length results;
     Coordinator.processedChunks := length results;
     Coordinator.totalChunks := length results + length errors;
     Coordinator.attemptLog := [] |}.

(** Six units attempted, none succeeded. *)
Definition sixFailures : Coordinator.BatchOutcome :=
  outcomeOf []
    (map (fun i => Coordinator.chunkError i ("chunk_" +:+ pretty (i + 1)) "timeout")
         (seq 0 6))
    272000.

(** Two units attempted, both succeeded. *)
Definition twoSuccesses : Coordinator.BatchOutcome :=
  outcomeOf tiedLabels [] 5000.

(** A synthesis reply whose summary block repeats the numbers of the
    example in the prompt. *)
Definition replyWithOwnSummary : Aggregator.Reply :=
  Aggregator.Parsed
    {| Aggregator.unified := labelled "MVC";
       Aggregator.chunk_analysis_summary := Some
         {| Aggregator.total_chunks := 8; Aggregator.successful_chunks := 7;
            Aggregator.failed_chunks := 1; Aggregator.chunk_types := [];
            Aggregator.processing_time := "4 minutes 32 seconds" |} |}
    "{...}".

Definition edge (from to kind strength : string) : gmap string Js.val :=
  {[ "from" := Js.VStr from; "to" := Js.VStr to; "type" := Js.VStr kind;
     "strength" := Js.VStr strength ]}.

Definition withEdges (ds : list (gmap string Js.val)) : Records.Analysis :=
  {| Records.architecture_pattern := None; Records.tech_stack := None;
     Records.key_components := None; Records.insights := None;
     Records.dependencies := Some ds; Records.file_structure_analysis := None;
     Records.scalability_notes := None; Records.security_considerations := None |}.

(** Two results reporting the same strong edge. *)
Definition repeatedEdge : list Records.ChunkResult :=
  [resultWith "chunk_1" (withEdges [edge "ui" "api" "http" "strong"]);
   resultWith "chunk_2" (withEdges [edge "ui" "api" "http" "strong"])].

Definition newline : string := String (Ascii.ascii_of_nat 10) EmptyString.

(** A repository tree of a header line and 45 file lines. *)
Definition smallTree : string :=
  Js.join newline
    ("Repository: demo" :: map (fun i => "- src/f" +:+ pretty i +:+ ".js") (seq 0 45)).

Definition successfulAnalysis : Records.AnalyzerResult :=
  {| Records.a_success := true; Records.a_data := labelled "MVC";
     Records.a_error := None |}.

Definition failedAnalysis : Records.AnalyzerResult :=
  {| Records.a_success := false; Records.a_data := emptyAnalysis;
     Records.a_error := Some "model unavailable" |}.

Definition successfulDiagram : Records.DiagramResult :=
  {| Records.d_success := true; Records.d_diagram := Some "graph TD";
     Records.d_error := None |}.

(** A world in which every agent answers successfully. *)
Definition calmWorld : Orchestrator.World :=
  {| Orchestrator.wholeAnalysis := Js.Returns successfulAnalysis;
     Orchestrator.wholeDiagram := Js.Returns successfulDiagram;
     Orchestrator.chunkingReply := Chunking.Unusable "no reply";
     Orchestrator.chunkAgents := thirdFails;
     Orchestrator.parallelElapsed := 5000;
     Orchestrator.synthesisReply := Aggregator.Unusable "no reply";
     Orchestrator.unifiedDiagram := Js.Returns successfulDiagram;
     Orchestrator.createFallbackAnalysis := fun _ => emptyAnalysis;
     Orchestrator.createFallbackDiagram := fun _ => "graph TD";
     Orchestrator.analysisDuration := 7000 |}.

(** The same world, the analyzer reporting failure. *)
Definition analyzerDown : Orchestrator.World :=
  {| Orchestrator.wholeAnalysis := Js.Returns failedAnalysis;
     Orchestrator.wholeDiagram := Js.Returns successfulDiagram;
     Orchestrator.chunkingReply := Chunking.Unusable "no reply";
     Orchestrator.chunkAgents := thirdFails;
     Orchestrator.parallelElapsed := 5000;
     Orchestrator.synthesisReply := Aggregator.Unusable "no reply";
     Orchestrator.unifiedDiagram := Js.Returns successfulDiagram;
     Orchestrator.createFallbackAnalysis := fun _ => emptyAnalysis;
     Orchestrator.createFallbackDiagram := fun _ => "graph TD";
     Orchestrator.analysisDuration := 7000 |}.

(** A component that carries no [technologies]. *)
Definition bareComponent (name type : string) : Records.Component :=
  {| Records.name := Some name; Records.type := Some type;
     Records.technologies := None; Records.description := None;
     Records.chunks := None |}.

(** Two results that report the same component. *)
Definition sharedComponent : list Records.ChunkResult :=
  [resultWith "chunk_1" (withComponents [component "api" "service"]);
   resultWith "chunk_2" (withComponents [component "api" "service";
                                         component "db" "store"])].

(** One successful result that lists a component without [technologies]
    and then the same component again. *)
Definition bareTwice : Coordinator.BatchOutcome :=
  outcomeOf [resultWith "chunk_1"
               (withComponents [bareComponent "api" "service"; component "api" "service"])]
            [] 5000.

(** An orchestrator that chunks every listing of more than three files,
    two files to a unit. *)
Definition eagerConfig : Orchestrator.Config :=
  {| Orchestrator.chunkingConfig :=
       {| maxChunkSize := 2; maxChunks := 10; minChunkSize := 1 |};
     Orchestrator.parallelConfig := scenarioCConfig;
     Orchestrator.enableFallback := true;
     Orchestrator.enableChunking := true;
     Orchestrator.chunkingThreshold := 3 |}.

(** A tree of a header line and seven file lines. *)
Definition sevenFiles : string :=
  Js.join newline
    ("Repository: demo" :: map (fun i => "- src/f" +:+ pretty i +:+ ".js") (seq 0 7)).

(** The calm world, the builder of the unified diagram throwing. *)
Definition diagramThrows : Orchestrator.World :=
  {| Orchestrator.wholeAnalysis := Js.Returns successfulAnalysis;
     Orchestrator.wholeDiagram := Js.Returns successfulDiagram;
     Orchestrator.chunkingReply := Chunking.Unusable "no reply";
     Orchestrator.chunkAgents := thirdFails;
     Orchestrator.parallelElapsed := 5000;
     Orchestrator.synthesisReply := Aggregator.Unusable "no reply";
     Orchestrator.unifiedDiagram := Js.Throws "connection refused";
     Orchestrator.createFallbackAnalysis := fun _ => emptyAnalysis;
     Orchestrator.createFallbackDiagram := fun _ => "graph TD";
     Orchestrator.analysisDuration := 7000 |}.

End Scenarios.

(** * Theorems *)

(** ** The decomposer *)

Section ChunkingFacts.
Import Chunking.

Example classify_examples :
  map classify ["src/app/a.ts"; "src/lib/a.ts"; "a.test"; "README"; "x.yml"; "lib/utils/a"; "Makefile"]
  = [Frontend; Backend; Tests; Documentation; Configuration; Utilities; Other].
Proof. reflexivity. Qed.

(** After the [forEach], the group of [t] holds the files classified [t],
    in listing order. *)
Lemma foldl_push_group (fs : list string) (g : FileType -> list string) (t : FileType) :
  foldl (fun g file => push g (classify file) file) g fs t
  = g t ++ filter (fun f => classify f = t) fs.
Proof.
  revert g. induction fs as [|f fs IH]; intros g; simpl.
  - by rewrite app_nil_r.
  - rewrite IH. unfold push. rewrite filter_cons.
    destruct (decide (t = classify f)) as [->|Hne].
    + rewrite decide_True by done. by rewrite <- app_assoc.
    + rewrite decide_False by congruence. done.
Qed.

Lemma filledGroups_filter (fs : list string) (t : FileType) :
  filledGroups fs t = filter (fun f => classify f = t) fs.
Proof. unfold filledGroups. by rewrite foldl_push_group. Qed.

(** Dropping the empty groups loses no file. *)
Lemma concat_nonempty_groups (gs : list (FileType * list string)) :
  concat (map snd (filter (fun e => e.2 ≠ []) gs)) = concat (map snd gs).
Proof.
  induction gs as [|[t l] gs IH]; [done|].
  rewrite filter_cons. simpl. destruct (decide (l ≠ [])) as [Hl|Hl]; simpl.
  - by rewrite IH.
  - destruct l; [by rewrite IH | by destruct Hl].
Qed.

(** The seven groups partition the listing. *)
Lemma groups_partition (fs : list string) :
  concat (map (fun t => filter (fun f => classify f = t) fs) allTypes) ≡ₚ fs.
Proof.
  induction fs as [|f fs IH]; [done|].
  unfold allTypes in *. simpl in *. rewrite !app_nil_r in *.
  rewrite !filter_cons.
  destruct (classify f); simpl;
    repeat (rewrite decide_False by discriminate);
    rewrite <- ?Permutation_middle; by apply Permutation_skip.
Qed.

Lemma groupFilesByType_perm (fs : list string) :
  concat (map snd (groupFilesByType fs)) ≡ₚ fs.
Proof.
  unfold groupFilesByType. rewrite concat_nonempty_groups, map_map.
  rewrite (map_ext _ (fun t => filter (fun f => classify f = t) fs))
    by (intros t; apply filledGroups_filter).
  apply groups_partition.
Qed.

Lemma ceil_div_pos (n m : nat) : 1 ≤ n → 1 ≤ m → 1 ≤ Js.ceil_div n m.
Proof.
  intros Hn Hm. unfold Js.ceil_div.
  apply Nat.div_le_lower_bound; lia.
Qed.

Lemma chunkSizeOf_pos (cfg : Config) (n : nat) :
  1 ≤ n → 1 ≤ maxChunkSize cfg → 1 ≤ chunkSizeOf cfg n.
Proof.
  intros Hn Hm. unfold chunkSizeOf.
  destruct (maxChunks cfg =? 0) eqn:E; [done|].
  apply Nat.eqb_neq in E.
  pose proof (ceil_div_pos n (maxChunks cfg)). lia.
Qed.

Lemma chunkSizeOf_le (cfg : Config) (n : nat) : chunkSizeOf cfg n ≤ maxChunkSize cfg.
Proof. unfold chunkSizeOf. destruct (maxChunks cfg =? 0); lia. Qed.

(** The page loop over one group, with a positive page size and enough
    fuel: it ends, its pages put back together are the rest of the group
    from [i] on, every page is non-empty and within the page size, and the
    counter advanced by the number of pages. *)
Lemma pageLoop_spec (fuel size : nat) (t : FileType) (l : list string) :
  1 ≤ size →
  ∀ i k, length l ≤ i + fuel →
  ∃ out, pageLoop fuel size t l i k = Some (out, k + length out)
         ∧ allFilesOf out = drop i l
         ∧ Forall (fun c => files c ≠ [] ∧ length (files c) ≤ size) out.
Proof.
  intros Hsize. induction fuel as [|fuel IH]; intros i k Hfuel.
  - exists []. simpl.
    destruct (i <? length l) eqn:E; [apply Nat.ltb_lt in E; lia|].
    apply Nat.ltb_ge in E. rewrite Nat.add_0_r.
    split; [done|]. split; [|constructor].
    unfold allFilesOf. simpl. by rewrite drop_ge.
  - simpl. destruct (i <? length l) eqn:E.
    + apply Nat.ltb_lt in E.
      destruct (IH (i + size) (S k)) as (out & Hrun & Hcat & Hall); [lia|].
      rewrite Hrun. eexists (_ :: out). split; [|split].
      * cbn [length].
        replace (k + S (length out)) with (S k + length out) by lia. reflexivity.
      * unfold allFilesOf in *. simpl. rewrite Hcat. unfold Js.slice.
        replace (i + size - i) with size by lia.
        rewrite <- drop_drop. apply take_drop.
      * constructor; [|done]. simpl. unfold Js.slice.
        replace (i + size - i) with size by lia.
        split.
        -- intros Hnil. apply (f_equal length) in Hnil.
           rewrite length_take, length_drop in Hnil. simpl in Hnil. lia.
        -- rewrite length_take. lia.
    + apply Nat.ltb_ge in E. exists []. rewrite Nat.add_0_r.
      split; [done|]. split; [|constructor].
      unfold allFilesOf. simpl. by rewrite drop_ge.
Qed.

Lemma allFilesOf_app (a b : list Chunk) : allFilesOf (a ++ b) = allFilesOf a ++ allFilesOf b.
Proof. unfold allFilesOf. by rewrite map_app, concat_app. Qed.

Lemma groupLoop_spec (fuel size : nat) (gs : list (FileType * list string)) :
  1 ≤ size →
  Forall (fun e => length e.2 ≤ fuel) gs →
  ∀ k, ∃ out, groupLoop fuel size gs k = Some out
              ∧ allFilesOf out = concat (map snd gs)
              ∧ Forall (fun c => files c ≠ [] ∧ length (files c) ≤ size) out.
Proof.
  intros Hsize. induction gs as [|[t l] gs IH]; intros Hfuel k.
  - exists []. by repeat split.
  - apply Forall_cons in Hfuel as [Hl Hgs]. simpl in Hl.
    destruct (pageLoop_spec fuel size t l Hsize 0 k) as (o1 & H1 & C1 & F1); [lia|].
    destruct (IH Hgs (k + length o1)) as (o2 & H2 & C2 & F2).
    exists (o1 ++ o2). simpl. rewrite H1, H2.
    split; [done|]. split.
    + by rewrite allFilesOf_app, C1, C2, drop_0.
    + by apply Forall_app.
Qed.

Lemma groupFilesByType_short (fs : list string) :
  Forall (fun e => length e.2 ≤ length fs) (groupFilesByType fs).
Proof.
  unfold groupFilesByType. apply Forall_forall. intros [t l] Hin.
  apply list_elem_of_filter in Hin as [_ Hin].
  apply list_elem_of_fmap in Hin as (t' & Heq & _).
  inversion Heq; subst. simpl. rewrite filledGroups_filter.
  apply length_filter.
Qed.

(** The deterministic strategy ends, covers the listing and respects the
    page size, as soon as the page size is positive. *)
Lemma createFallbackChunks_covers (cfg : Config) (fs : list string) :
  1 ≤ chunkSizeOf cfg (length fs) →
  ∃ r, createFallbackChunks cfg fs = Some r
       ∧ success r = true
       ∧ allFilesOf (chunksOf r) ≡ₚ fs
       ∧ Forall (fun c => files c ≠ []
                          ∧ length (files c) ≤ chunkSizeOf cfg (length fs)) (chunksOf r).
Proof.
  intros Hsize. unfold createFallbackChunks.
  destruct (groupLoop_spec (length fs) _ _ Hsize (groupFilesByType_short fs) 1)
    as (out & Hrun & Hcat & Hall).
  rewrite Hrun. eexists. split; [done|]. unfold chunksOf. simpl.
  split; [done|]. split; [|done].
  rewrite Hcat. apply groupFilesByType_perm.
Qed.

(** Counting the pages.  Pages hold at most [size] files, so there are at
    least [n / size] of them; in each group only the last page may be
    short, so each group adds less than one page to that. *)
Lemma pages_cover_at_most (size : nat) (out : list Chunk) :
  Forall (fun c => files c ≠ [] ∧ length (files c) ≤ size) out →
  length (allFilesOf out) ≤ size * length out.
Proof.
  induction 1 as [|c out [_ Hc] _ IH]; [simpl; lia|].
  unfold allFilesOf in *. simpl. rewrite length_app. lia.
Qed.

Lemma pageLoop_count (fuel size : nat) (t : FileType) (l : list string) :
  1 ≤ size →
  ∀ i k out k', pageLoop fuel size t l i k = Some (out, k') →
                size * length out ≤ (length l - i) + (size - 1).
Proof.
  intros Hsize. induction fuel as [|fuel IH]; intros i k out k'; simpl.
  - destruct (i <? length l); [done|]. intros [= <- _]. simpl. lia.
  - destruct (i <? length l) eqn:E; [|intros [= <- _]; simpl; lia].
    apply Nat.ltb_lt in E.
    destruct (pageLoop fuel size t l (i + size) (S k)) as [[cs k'']|] eqn:Hrest; [|done].
    intros [= <- _]. apply IH in Hrest. cbn [length]. rewrite Nat.mul_succ_r.
    destruct (decide (i + size ≤ length l)) as [Hfull|Hshort]; [lia|].
    assert (length cs = 0) as -> by nia. lia.
Qed.

Lemma groupLoop_count (fuel size : nat) (gs : list (FileType * list string)) :
  1 ≤ size →
  ∀ k out, groupLoop fuel size gs k = Some out →
           size * length out ≤ length (concat (map snd gs)) + length gs * (size - 1).
Proof.
  intros Hsize. induction gs as [|[t l] gs IH]; intros k out; simpl.
  - intros [= <-]. simpl. lia.
  - destruct (pageLoop fuel size t l 0 k) as [[cs k']|] eqn:Hpages; [|done].
    destruct (groupLoop fuel size gs k') as [cs'|] eqn:Hrest; [|done].
    intros [= <-]. apply pageLoop_count in Hpages; [|done]. apply IH in Hrest.
    rewrite !length_app. nia.
Qed.

Lemma groupFilesByType_at_most_seven (fs : list string) :
  length (groupFilesByType fs) ≤ 7.
Proof.
  unfold groupFilesByType. etrans; [apply length_filter|]. by rewrite length_map.
Qed.

(** The number of units of the deterministic strategy, for [n] files and
    a positive page size [s]: between [n / s] rounded up and that plus
    six, whatever [maxChunks] is. *)
Lemma fallback_chunk_count (cfg : Config) (fs : list string) :
  1 ≤ chunkSizeOf cfg (length fs) →
  ∃ r, createFallbackChunks cfg fs = Some r
       ∧ length fs ≤ chunkSizeOf cfg (length fs) * length (chunksOf r)
       ∧ chunkSizeOf cfg (length fs) * length (chunksOf r)
         ≤ length fs + 7 * (chunkSizeOf cfg (length fs) - 1).
Proof.
  intros Hsize.
  destruct (createFallbackChunks_covers cfg fs Hsize) as (r & Hr & _ & Hperm & Hall).
  exists r. split; [done|]. split.
  - etrans; [|by apply pages_cover_at_most]. by rewrite (Permutation_length Hperm).
  - unfold createFallbackChunks in Hr.
    destruct (groupLoop (length fs) (chunkSizeOf cfg (length fs)) (groupFilesByType fs) 1)
      as [cs|] eqn:Hloop; [|done].
    injection Hr as <-. unfold chunksOf. simpl.
    apply groupLoop_count in Hloop; [|done].
    rewrite (Permutation_length (groupFilesByType_perm fs)) in Hloop.
    pose proof (groupFilesByType_at_most_seven fs). nia.
Qed.

(** For any 800 files and the default limits the deterministic strategy
    returns between 10 and 16 units. *)
Lemma fallback_count_of_800 (fs : list string) :
  length fs = 800 →
  ∃ r, createFallbackChunks defaultConfig fs = Some r
       ∧ 10 ≤ length (chunksOf r) ≤ 16.
Proof.
  intros Hlen.
  assert (chunkSizeOf defaultConfig (length fs) = 80) as Hsize
    by (rewrite Hlen; vm_compute; reflexivity).
  destruct (fallback_chunk_count defaultConfig fs) as (r & Hr & Hlo & Hhi);
    [rewrite Hsize; lia|].
  exists r. split; [done|]. rewrite Hsize, Hlen in *. lia.
Qed.

(** With a page size of zero the loop over a non-empty group never
    advances, whatever the fuel. *)
Lemma pageLoop_zero_diverges (fuel : nat) (t : FileType) (l : list string) (k : nat) :
  l ≠ [] → pageLoop fuel 0 t l 0 k = None.
Proof.
  intros Hl. revert k. induction fuel as [|fuel IH]; intros k; simpl.
  - destruct l; [done|]. done.
  - destruct l as [|x l]; [done|]. simpl.
    change (0 + 0) with 0. by rewrite (IH (S k)).
Qed.

(** What validation of a proposal guarantees: units are non-empty and
    hold listed files only. *)
Lemma validateFrom_sound (cs : list Proposed) (allFiles : list string) :
  ∀ index c, c ∈ validateFrom index cs allFiles →
    files c ≠ [] ∧ ∀ f, f ∈ files c → f ∈ allFiles.
Proof.
  induction cs as [|p cs IH]; intros index c Hin; simpl in Hin.
  - by apply elem_of_nil in Hin.
  - destruct (p_files p) as [fl|]; [|by eapply IH].
    case_bool_decide as Hnil; [by eapply IH|].
    apply elem_of_cons in Hin as [->|Hin]; [|by eapply IH].
    simpl. split; [done|].
    intros f Hf. by apply list_elem_of_filter in Hf as [? _].
Qed.

(** C1, as stated, fails on the content-aware path: with two files and a
    unit size of one, a proposal that lists only [a.js] passes validation
    and is returned as it is, so [b.js] is in no unit. *)
Lemma coverage_fails_on_content_aware_path :
  ∃ r, chunkRepository Scenarios.tinyConfig ["a.js"; "b.js"] Scenarios.droppingReply = Some r
       ∧ success r = true
       ∧ ¬ (allFilesOf (chunksOf r) ≡ₚ ["a.js"; "b.js"]).
Proof.
  eexists. split; [vm_compute; reflexivity|]. split; [reflexivity|].
  intros Hperm. apply Permutation_length in Hperm. vm_compute in Hperm. discriminate.
Qed.

(** The same path also lets one file into two units. *)
Example duplication_on_content_aware_path :
  ∃ r, chunkRepository Scenarios.tinyConfig ["a.js"; "b.js"] Scenarios.duplicatingReply = Some r
       ∧ allFilesOf (chunksOf r) = ["a.js"; "b.js"; "a.js"].
Proof. eexists. split; vm_compute; reflexivity. Qed.

(** C1, amended.  For a non-empty listing and a positive [maxChunkSize],
    [chunkRepository] returns a successful result in which every unit is
    non-empty and holds files of the listing only; when the single-chunk
    path or the deterministic fallback is taken (the listing fits one
    chunk, or the content-aware attempt did not succeed), the files of
    all units together are a permutation of the listing: nothing is
    dropped and nothing appears twice. *)
Theorem chunkRepository_coverage (cfg : Config) (fs : list string) (reply : Reply) :
  fs ≠ [] →
  1 ≤ maxChunkSize cfg →
  ∃ r, chunkRepository cfg fs reply = Some r
       ∧ success r = true
       ∧ (∀ c, c ∈ chunksOf r → files c ≠ [] ∧ ∀ f, f ∈ files c → f ∈ fs)
       ∧ (length fs ≤ maxChunkSize cfg
          ∨ success (createIntelligentChunks fs reply) = false
          → allFilesOf (chunksOf r) ≡ₚ fs).
Proof.
  intros Hne Hmax. unfold chunkRepository.
  destruct (length fs <=? maxChunkSize cfg) eqn:Hsmall.
  - eexists. split; [done|]. split; [done|]. unfold chunksOf, allFilesOf. simpl. split.
    + intros c Hc. apply list_elem_of_singleton in Hc as ->. by simpl.
    + intros _. by rewrite app_nil_r.
  - apply Nat.leb_gt in Hsmall.
    destruct (success (createIntelligentChunks fs reply)) eqn:Hai; simpl.
    + eexists. split; [done|]. split; [done|]. split.
      * intros c Hc. unfold createIntelligentChunks in *.
        destruct reply as [m|cs st est txt]; [done|].
        destruct cs as [l|]; [|done]. unfold chunksOf in Hc. simpl in Hc.
        by eapply validateFrom_sound.
      * intros [?|?]; [lia|done].
    + assert (Hsize : 1 ≤ chunkSizeOf cfg (length fs)).
      { apply chunkSizeOf_pos; [|done]. destruct fs; [done|simpl; lia]. }
      destruct (createFallbackChunks_covers cfg fs Hsize) as (r & Hr & Hok & Hperm & Hall).
      exists r. split; [done|]. split; [done|]. split; [|done].
      intros c Hc. rewrite Forall_forall in Hall.
      split; [by apply Hall|].
      intros f Hf. rewrite <- Hperm. unfold allFilesOf.
      apply list_elem_of_In, in_concat. exists (files c).
      split; [apply in_map|]; by apply list_elem_of_In.
Qed.

Lemma chunkRepository_coverage_witness :
  ∃ r, chunkRepository Scenarios.tinyConfig ["a.js"; "b.js"] (Unusable "no reply") = Some r
       ∧ success r = true
       ∧ (∀ c, c ∈ chunksOf r →
            files c ≠ [] ∧ ∀ f, f ∈ files c → f ∈ ["a.js"; "b.js"])
       ∧ (length ["a.js"; "b.js"] ≤ maxChunkSize Scenarios.tinyConfig
          ∨ success (createIntelligentChunks ["a.js"; "b.js"] (Unusable "no reply")) = false
          → allFilesOf (chunksOf r) ≡ₚ ["a.js"; "b.js"]).
Proof.
  apply (chunkRepository_coverage Scenarios.tinyConfig ["a.js"; "b.js"] (Unusable "no reply")).
  - discriminate.
  - simpl. lia.
Defined.

(** C8.  800 files, [maxChunkSize] 200, [maxChunks] 10, the content-aware
    attempt failing: the page size is 80, and a listing of 799 style
    sheets and one other file is cut into 11 units, one more than
    [maxChunks]. *)
Theorem fallback_exceeds_maxChunks :
  length Scenarios.styleHeavyListing = 800
  ∧ chunkSizeOf defaultConfig 800 = 80
  ∧ ∃ r, chunkRepository defaultConfig Scenarios.styleHeavyListing (Unusable "no reply") = Some r
         ∧ length (chunksOf r) = 11
         ∧ map (fun c => length (files c)) (chunksOf r) = [80; 80; 80; 80; 80; 80; 80; 80; 80; 79; 1]
         ∧ maxChunks defaultConfig = 10.
Proof.
  split; [vm_compute; reflexivity|]. split; [vm_compute; reflexivity|].
  eexists. split; [vm_compute; reflexivity|].
  repeat split; vm_compute; reflexivity.
Qed.

End ChunkingFacts.

(** ** The scheduler *)

Section CoordinatorFacts.
Import Coordinator.
Variable cfg : Config.
Variable agents : Agents.

(** The loop makes at most [remaining] further calls. *)
Lemma retryLoop_calls_le (chunk : Chunking.Chunk) (chunkIndex remaining : nat) :
  ∀ attempt lastError made slept,
    calls (retryLoop cfg agents chunk chunkIndex remaining attempt lastError made slept)
    ≤ made + remaining.
Proof.
  induction remaining as [|remaining IH]; intros attempt lastError made slept; simpl.
  - lia.
  - destruct (processChunk cfg agents chunk chunkIndex attempt) as [[r|e ? ?]|m]; simpl.
    + lia.
    + etrans; [apply IH|]. lia.
    + etrans; [apply IH|]. lia.
Qed.

(** When every attempt from [attempt] on fails, the loop makes exactly
    [remaining] further calls and rejects with an error that is set as soon
    as one attempt was made. *)
Lemma retryLoop_all_fail (chunk : Chunking.Chunk) (chunkIndex remaining : nat) :
  ∀ attempt lastError made slept,
    (∀ k, attempt ≤ k < attempt + remaining →
          attemptFails (processChunk cfg agents chunk chunkIndex k)) →
    let run := retryLoop cfg agents chunk chunkIndex remaining attempt lastError made slept in
    calls run = made + remaining
    ∧ ∃ reason, settlement run = RejectedWith reason
                ∧ (1 ≤ remaining ∨ is_Some lastError → is_Some reason).
Proof.
  induction remaining as [|remaining IH]; intros attempt lastError made slept Hfail; simpl.
  - split; [lia|]. exists lastError. split; [done|]. intros [?|?]; [lia|done].
  - pose proof (Hfail attempt ltac:(lia)) as Hnow.
    destruct (processChunk cfg agents chunk chunkIndex attempt) as [[r|e ? ?]|m];
      simpl in Hnow; [done| |].
    + edestruct (IH (S attempt)) as [Hc (reason & Hs & Hr)];
        [intros k Hk; apply Hfail; lia|].
      rewrite Hc, Hs. split; [lia|]. exists reason. split; [done|].
      intros _. apply Hr. right. done.
    + edestruct (IH (S attempt)) as [Hc (reason & Hs & Hr)];
        [intros k Hk; apply Hfail; lia|].
      rewrite Hc, Hs. split; [lia|]. exists reason. split; [done|].
      intros _. apply Hr. right. done.
Qed.

(** Once an attempt was made, the promise never rejects with
    [undefined]. *)
Lemma retryLoop_reason (chunk : Chunking.Chunk) (chunkIndex remaining : nat) :
  ∀ attempt lastError made slept,
    1 ≤ remaining ∨ is_Some lastError →
    settlement (retryLoop cfg agents chunk chunkIndex remaining attempt lastError made slept)
    ≠ RejectedWith None.
Proof.
  induction remaining as [|remaining IH]; intros attempt lastError made slept Hset; simpl.
  - destruct Hset as [?|[m ->]]; [lia|done].
  - destruct (processChunk cfg agents chunk chunkIndex attempt) as [[r|e ? ?]|m]; simpl.
    + done.
    + apply IH. right. done.
    + apply IH. right. done.
Qed.

(** A fulfilled promise carries the index its chunk was submitted with. *)
Lemma retryLoop_fulfilled_index (chunk : Chunking.Chunk) (chunkIndex remaining : nat) :
  ∀ attempt lastError made slept value,
    settlement (retryLoop cfg agents chunk chunkIndex remaining attempt lastError made slept)
    = Fulfilled value →
    Records.chunkIndex value = chunkIndex ∧ Records.success value = true.
Proof.
  induction remaining as [|remaining IH]; intros attempt lastError made slept value; simpl.
  - done.
  - destruct (processChunk cfg agents chunk chunkIndex attempt) as [[r|e ? ?]|m] eqn:Hp;
      simpl; [|by apply IH..].
    intros [= ->]. unfold processChunk, analyzeChunk in Hp.
    destruct (analyze agents chunkIndex attempt chunk) as [a| |]; [|done..].
    destruct (negb (Records.a_success a)); [done|].
    destruct (buildDiagram agents chunkIndex attempt (Records.a_data a)); [|done..].
    by injection Hp as <-.
Qed.

(** The [forEach] over settled promises none of which rejected with
    [undefined]: it does not throw, and appends the fulfilled values and
    one error entry per rejection, in order. *)
Lemma forEachSettled_spec (runs : list (Chunking.Chunk * nat * RetryRun)) :
  Forall (fun r => settlement r.2 ≠ RejectedWith None) runs →
  ∀ results errors,
    forEachSettled runs results errors
    = (results ++ fulfilledOf runs, errors ++ rejectedOf runs, false).
Proof.
  induction runs as [|[[c i] run] runs IH]; intros Hall results errors; simpl.
  - by rewrite !app_nil_r.
  - apply Forall_cons in Hall as [Hrun Hall]. simpl in Hrun.
    unfold fulfilledOf, rejectedOf. simpl.
    destruct (settlement run) as [v|[m|]]; [| |done].
    + rewrite (IH Hall). unfold fulfilledOf, rejectedOf.
      by rewrite <- app_assoc.
    + rewrite (IH Hall). unfold fulfilledOf, rejectedOf.
      by rewrite <- app_assoc.
Qed.

Lemma settled_count (runs : list (Chunking.Chunk * nat * RetryRun)) :
  Forall (fun r => settlement r.2 ≠ RejectedWith None) runs →
  length (fulfilledOf runs) + length (rejectedOf runs) = length runs.
Proof.
  induction runs as [|[[c i] run] runs IH]; intros Hall; [done|].
  apply Forall_cons in Hall as [Hrun Hall]. simpl in Hrun.
  specialize (IH Hall). unfold fulfilledOf, rejectedOf in *. simpl.
  destruct (settlement run) as [v|[m|]]; simpl;
    [f_equal; exact IH | rewrite Nat.add_succ_r; f_equal; exact IH | done].
Qed.

Lemma settleBatch_reasons (i : nat) (batch : list Chunking.Chunk) :
  1 ≤ retryAttempts cfg →
  Forall (fun r => settlement r.2 ≠ RejectedWith None) (settleBatch cfg agents i batch).
Proof.
  intros Hretry. apply Forall_forall. intros r Hin.
  apply elem_of_lookup_imap_1 in Hin as (index & chunk & -> & _). simpl.
  apply retryLoop_reason. by left.
Qed.

(** The promises of one batch, followed by those of the later batches,
    are the promises from [i] on. *)
Lemma settleFrom_step (chunks : list Chunking.Chunk) (i n : nat) :
  settleBatch cfg agents i (Js.slice i (i + n) chunks) ++ settleFrom cfg agents chunks (i + n)
  = settleFrom cfg agents chunks i.
Proof.
  unfold settleFrom, settleBatch, Js.slice.
  replace (i + n - i) with n by lia.
  rewrite <- drop_drop.
  generalize (drop i chunks). intros rest.
  rewrite <- (take_drop n rest) at 3.
  rewrite imap_app. f_equal.
  destruct (decide (n ≤ length rest)) as [Hle|Hgt].
  - rewrite length_take, Nat.min_l by done.
    apply imap_ext. intros j c _. simpl. by rewrite Nat.add_assoc.
  - rewrite (drop_ge rest n) by lia. done.
Qed.

(** The batch loop, for a positive batch size, at least one attempt per
    chunk and enough fuel: it ends, and batching is invisible in what it
    accumulates. *)
Lemma batchLoop_spec (chunks : list Chunking.Chunk) :
  1 ≤ maxConcurrentChunks cfg →
  1 ≤ retryAttempts cfg →
  ∀ fuel i results errors log,
    length chunks ≤ i + fuel →
    batchLoop fuel cfg agents chunks i results errors log
    = Some (results ++ fulfilledOf (settleFrom cfg agents chunks i),
            errors ++ rejectedOf (settleFrom cfg agents chunks i),
            log ++ logOf (settleFrom cfg agents chunks i)).
Proof.
  intros Hmc Hretry. induction fuel as [|fuel IH]; intros i results errors log Hfuel.
  - simpl. destruct (i <? length chunks) eqn:E; [apply Nat.ltb_lt in E; lia|].
    apply Nat.ltb_ge in E. unfold settleFrom. rewrite drop_ge by done.
    simpl. by rewrite !app_nil_r.
  - simpl. destruct (i <? length chunks) eqn:E.
    + rewrite forEachSettled_spec by (by apply settleBatch_reasons).
      rewrite IH by lia.
      rewrite <- (settleFrom_step chunks i (maxConcurrentChunks cfg)).
      unfold fulfilledOf, rejectedOf, logOf.
      by rewrite !omap_app, map_app, <- !app_assoc.
    + apply Nat.ltb_ge in E. unfold settleFrom. rewrite drop_ge by done.
      simpl. by rewrite !app_nil_r.
Qed.

(** With a batch size of zero the loop over a non-empty chunk list never
    advances, whatever the fuel. *)
Lemma batchLoop_zero_diverges (chunks : list Chunking.Chunk) :
  maxConcurrentChunks cfg = 0 → chunks ≠ [] →
  ∀ fuel results errors log,
    batchLoop fuel cfg agents chunks 0 results errors log = None.
Proof.
  intros Hmc Hne. destruct chunks as [|c chunks]; [done|].
  induction fuel as [|fuel IH]; intros results errors log; simpl; [done|].
  rewrite Hmc. simpl. apply IH.
Qed.

Lemma settleFrom_0_length (chunks : list Chunking.Chunk) :
  length (settleFrom cfg agents chunks 0) = length chunks.
Proof. unfold settleFrom, settleBatch. by rewrite length_imap, drop_0. Qed.

Lemma settleFrom_0_lookup (chunks : list Chunking.Chunk) (i : nat) (c : Chunking.Chunk) :
  chunks !! i = Some c →
  settleFrom cfg agents chunks 0 !! i = Some (c, i, processChunkWithRetry cfg agents c i).
Proof.
  intros Hc. unfold settleFrom, settleBatch.
  by rewrite drop_0, list_lookup_imap, Hc.
Qed.

(** What [processChunksInParallel] returns, for a positive batch size and
    at least one attempt per chunk. *)
Lemma processChunksInParallel_spec (chunks : list Chunking.Chunk) (elapsed : N) :
  1 ≤ maxConcurrentChunks cfg →
  1 ≤ retryAttempts cfg →
  ∃ out, processChunksInParallel cfg agents chunks elapsed = Some out
         ∧ results out = fulfilledOf (settleFrom cfg agents chunks 0)
         ∧ errors out = rejectedOf (settleFrom cfg agents chunks 0)
         ∧ attemptLog out = logOf (settleFrom cfg agents chunks 0)
         ∧ totalChunks out = length chunks
         ∧ processedChunks out = length (results out)
         ∧ duration out = elapsed.
Proof.
  intros Hmc Hretry. unfold processChunksInParallel.
  rewrite (batchLoop_spec chunks Hmc Hretry) by lia. simpl.
  eexists. split; [done|]. simpl. by repeat split.
Qed.






(** The object recorded for a failed chunk has the three fields of the
    literal in the source and no other. *)
Lemma chunkError_fields (chunkIndex : nat) (chunkId message : string) :
  chunkError chunkIndex chunkId message !! "chunkIndex"
    = Some (Js.VNum (N.of_nat chunkIndex))
  ∧ chunkError chunkIndex chunkId message !! "chunkId" = Some (Js.VStr chunkId)
  ∧ chunkError chunkIndex chunkId message !! "error" = Some (reasonText message)
  ∧ ∀ field, field ≠ "chunkIndex" → field ≠ "chunkId" → field ≠ "error" →
      chunkError chunkIndex chunkId message !! field = None.
Proof.
  unfold chunkError. split; [|split; [|split]].
  - by rewrite lookup_insert_eq.
  - rewrite lookup_insert_ne by done. by rewrite lookup_insert_eq.
  - rewrite !lookup_insert_ne by done. by rewrite lookup_singleton_eq.
  - intros field H1 H2 H3.
    rewrite !lookup_insert_ne by done. by rewrite lookup_singleton_ne.
Qed.

(** C4, amended.  With a positive batch size and at least one attempt
    per chunk, a chunk all of whose attempts fail (each one throws, times
    out, or returns an unsuccessful result) is attempted exactly
    [retryAttempts] times; the batch is not aborted: the outcome is
    returned, its results and errors add up to the number of chunks, the
    chunk is among the errors, as an object with the fields [chunkIndex],
    [chunkId] and [error] only, and not among the results.  The number of
    attempts is not recorded in that object. *)
Theorem permanently_failing_unit (chunks : list Chunking.Chunk) (elapsed : N)
    (i : nat) (c : Chunking.Chunk) :
  1 ≤ maxConcurrentChunks cfg →
  1 ≤ retryAttempts cfg →
  chunks !! i = Some c →
  (∀ attempt, 1 ≤ attempt ≤ retryAttempts cfg →
              attemptFails (processChunk cfg agents c i attempt)) →
  calls (processChunkWithRetry cfg agents c i) = retryAttempts cfg
  ∧ ∃ out message,
      processChunksInParallel cfg agents chunks elapsed = Some out
      ∧ attemptLog out !! i = Some (i, retryAttempts cfg)
      ∧ chunkError i (Chunking.id c) message ∈ errors out
      ∧ chunkError i (Chunking.id c) message !! "attemptsMade" = None
      ∧ (∀ r, r ∈ results out → Records.chunkIndex r ≠ i)
      ∧ length (results out) + length (errors out) = length chunks.
Proof.
  intros Hmc Hretry Hc Hfail.
  destruct (retryLoop_all_fail c i (retryAttempts cfg) 1 None 0 [])
    as [Hcalls (reason & Hsettle & Hreason)]; [intros k Hk; apply Hfail; lia|].
  destruct Hreason as [message ->]; [by left|].
  fold (processChunkWithRetry cfg agents c i) in Hcalls, Hsettle.
  split; [done|].
  destruct (processChunksInParallel_spec chunks elapsed Hmc Hretry)
    as (out & Hrun & Hres & Herr & Hlog & Htot & _ & _).
  pose proof (settleFrom_0_lookup chunks i c Hc) as Hlook.
  exists out, message. split; [done|]. split; [|split; [|split; [|split]]].
  - rewrite Hlog. unfold logOf. rewrite list_lookup_fmap, Hlook. simpl.
    by rewrite Hcalls.
  - rewrite Herr. unfold rejectedOf. apply list_elem_of_omap.
    eexists. split; [by eapply list_elem_of_lookup_2|]. simpl. by rewrite Hsettle.
  - by apply chunkError_fields.
  - intros r Hr Hidx. rewrite Hres in Hr. unfold fulfilledOf in Hr.
    apply list_elem_of_omap in Hr as ([[c' j] run] & Hin & Hval). simpl in Hval.
    destruct (settlement run) as [v|] eqn:Hv; [|done]. injection Hval as ->.
    unfold settleFrom, settleBatch in Hin. rewrite drop_0 in Hin.
    apply elem_of_lookup_imap_1 in Hin as (j' & c'' & Heq & Hc'').
    injection Heq as -> -> ->. simpl in Hv.
    destruct (retryLoop_fulfilled_index _ _ _ _ _ _ _ _ Hv) as [Hj _].
    rewrite Hidx in Hj. subst j'.
    rewrite Hc in Hc''. injection Hc'' as <-.
    congruence.
  - rewrite Hres, Herr, settled_count; [apply settleFrom_0_length|].
    by apply settleBatch_reasons.
Qed.

End CoordinatorFacts.


(** Outside the policies of C3: with [retryAttempts = 0] no attempt is
    made, every promise rejects with [undefined], the [forEach] throws on
    the first entry of each batch, and each batch leaves a single error:
    two entries for five units. *)
Example no_attempt_policy_loses_units :
  ∃ out,
    Coordinator.processChunksInParallel Scenarios.noAttemptConfig Scenarios.thirdFails
      Scenarios.fiveUnits 0%N = Some out
    ∧ Coordinator.results out = []
    ∧ Coordinator.errors out
      = [Coordinator.batchError 0 "Cannot read properties of undefined (reading 'message')";
         Coordinator.batchError 1 "Cannot read properties of undefined (reading 'message')"]
    ∧ Coordinator.attemptLog out = [(0, 0); (1, 0); (2, 0); (3, 0); (4, 0)].
Proof.
  eexists. split; [vm_compute; reflexivity|].
  split; [reflexivity|]. split; vm_compute; reflexivity.
Qed.

(** C4, as stated, fails in its last part.  Five units, batches of three,
    two attempts, the third unit failing at every attempt: four results,
    one error, two attempts made for the third unit; but the object
    recorded for it has the fields [chunkIndex], [chunkId] and [error], and
    reading [attemptsMade] from it gives nothing, not 2. *)
Lemma failed_unit_records_no_attemptsMade :
  ∃ out e,
    Coordinator.processChunksInParallel Scenarios.scenarioCConfig Scenarios.thirdFails
      Scenarios.fiveUnits 0%N = Some out
    ∧ length (Coordinator.results out) = 4
    ∧ Coordinator.errors out = [e]
    ∧ Coordinator.attemptLog out = [(0, 1); (1, 1); (2, 2); (3, 1); (4, 1)]
    ∧ e = Coordinator.chunkError 2 "chunk_3" "model unavailable"
    ∧ e !! "attemptsMade" ≠ Some (Js.VNum 2%N).
Proof.
  eexists. eexists. split; [vm_compute; reflexivity|].
  split; [reflexivity|]. split; [reflexivity|]. split; [reflexivity|].
  split; [vm_compute; reflexivity|].
  vm_compute. discriminate.
Qed.

Lemma permanently_failing_unit_witness :
  Coordinator.calls
    (Coordinator.processChunkWithRetry Scenarios.scenarioCConfig Scenarios.thirdFails
       (Scenarios.unitNo 3) 2) = 2
  ∧ ∃ out message,
      Coordinator.processChunksInParallel Scenarios.scenarioCConfig Scenarios.thirdFails
        Scenarios.fiveUnits 0%N = Some out
      ∧ Coordinator.attemptLog out !! 2 = Some (2, 2)
      ∧ Coordinator.chunkError 2 "chunk_3" message ∈ Coordinator.errors out
      ∧ Coordinator.chunkError 2 "chunk_3" message !! "attemptsMade" = None
      ∧ (∀ r, r ∈ Coordinator.results out → Records.chunkIndex r ≠ 2)
      ∧ length (Coordinator.results out) + length (Coordinator.errors out) = 5.
Proof.
  apply (permanently_failing_unit Scenarios.scenarioCConfig Scenarios.thirdFails
           Scenarios.fiveUnits 0%N 2 (Scenarios.unitNo 3)).
  - simpl. lia.
  - simpl. lia.
  - reflexivity.
  - intros attempt _. simpl. exact I.
Defined.

(** ** The aggregator: the architecture label *)

Section ArchitectureLabel.
Import Aggregator.


Lemma bump_fresh (p : string) (counts : list (string * nat)) :
  p ∉ counts.*1 → Js.bump p counts = counts ++ [(p, 1)].
Proof.
  induction counts as [|[k n] counts IH]; intros Hp; simpl; [done|].
  simpl in Hp. apply not_elem_of_cons in Hp as [Hne Hp].
  destruct (String.eqb k p) eqn:E; [apply String.eqb_eq in E; congruence|].
  by rewrite IH.
Qed.

Lemma bump_known (p : string) (counts : list (string * nat)) :
  NoDup counts.*1 → p ∈ counts.*1 →
  Js.bump p counts = map (fun e => if decide (e.1 = p) then (e.1, e.2 + 1) else e) counts.
Proof.
  induction counts as [|[k n] counts IH]; intros Hnd Hp; simpl.
  - by apply elem_of_nil in Hp.
  - simpl in Hnd. apply NoDup_cons in Hnd as [Hk Hnd].
    destruct (String.eqb k p) eqn:E.
    + apply String.eqb_eq in E. subst k. rewrite decide_True by done. f_equal.
      symmetry. etrans; [|apply map_id]. apply map_ext_in. intros [k' n'] Hin. simpl.
      rewrite decide_False; [done|]. intros ->. apply Hk.
      apply list_elem_of_fmap. exists (p, n'). split; [done|]. by apply list_elem_of_In.
    + apply String.eqb_neq in E. rewrite decide_False by done. f_equal.
      apply IH; [done|]. simpl in Hp. apply elem_of_cons in Hp as [?|?]; [congruence|done].
Qed.

Lemma bump_keys_known (p : string) (counts : list (string * nat)) :
  NoDup counts.*1 → p ∈ counts.*1 → (Js.bump p counts).*1 = counts.*1.
Proof.
  intros Hnd Hp. rewrite bump_known by done.
  rewrite <- list_fmap_compose. apply list_fmap_ext. intros i [k n] _. simpl.
  by destruct (decide (k = p)).
Qed.

Lemma occurrences_cons_eq (p : string) (ps : list string) :
  occurrences p (p :: ps) = S (occurrences p ps).
Proof. unfold occurrences. by rewrite filter_cons, decide_True. Qed.

Lemma occurrences_cons_ne (p q : string) (ps : list string) :
  q ≠ p → occurrences p (q :: ps) = occurrences p ps.
Proof. intros Hne. unfold occurrences. by rewrite filter_cons, decide_False. Qed.

Lemma firstOccurrencesFrom_fresh (ps seen : list string) (q : string) :
  q ∈ firstOccurrencesFrom seen ps → (q ∉ seen) ∧ (q ∈ ps).
Proof.
  revert seen. induction ps as [|p ps IH]; intros seen Hq; simpl in Hq.
  - by apply elem_of_nil in Hq.
  - case_bool_decide as Hp.
    + destruct (IH _ Hq) as [? ?]. split; [done|]. by apply elem_of_cons; right.
    + apply elem_of_cons in Hq as [->|Hq].
      * split; [done|]. by apply elem_of_cons; left.
      * destruct (IH _ Hq) as [Hns ?]. split; [|by apply elem_of_cons; right].
        intros Hin. apply Hns. apply elem_of_app. by left.
Qed.

Lemma firstOccurrencesFrom_complete (ps seen : list string) (q : string) :
  q ∈ ps → q ∉ seen → q ∈ firstOccurrencesFrom seen ps.
Proof.
  revert seen. induction ps as [|p ps IH]; intros seen Hq Hns; simpl.
  - by apply elem_of_nil in Hq.
  - apply elem_of_cons in Hq as [->|Hq].
    + rewrite bool_decide_eq_false_2 by done. by apply elem_of_cons; left.
    + case_bool_decide as Hp; [by apply IH|].
      destruct (decide (q = p)) as [->|Hne]; [by apply elem_of_cons; left|].
      apply elem_of_cons; right. apply IH; [done|].
      intros Hin. apply elem_of_app in Hin as [?|Hin]; [done|].
      by apply list_elem_of_singleton in Hin.
Qed.

(** The counter object after the [forEach]: the keys already present keep
    their place and gain their occurrences; the new keys follow, in order
    of first occurrence, each with its number of occurrences. *)
Lemma tally_spec (ps : list string) :
  ∀ counts, NoDup counts.*1 →
    foldl (fun counts pattern => Js.bump pattern counts) counts ps
    = map (fun e => (e.1, e.2 + occurrences e.1 ps)) counts
      ++ map (fun p => (p, occurrences p ps)) (firstOccurrencesFrom counts.*1 ps).
Proof.
  induction ps as [|p ps IH]; intros counts Hnd; simpl.
  - rewrite app_nil_r. symmetry. etrans; [|apply map_id].
    apply map_ext. intros [k n]. simpl. unfold occurrences. simpl. by rewrite Nat.add_0_r.
  - case_bool_decide as Hp.
    + rewrite IH by (by rewrite bump_keys_known).
      rewrite bump_keys_known by done. f_equal.
      * rewrite bump_known by done. rewrite map_map. apply map_ext. intros [k n]. simpl.
        destruct (decide (k = p)) as [->|Hne]; simpl.
        -- rewrite occurrences_cons_eq. f_equal. lia.
        -- by rewrite occurrences_cons_ne.
      * apply map_ext_in. intros q Hq. apply list_elem_of_In in Hq.
        apply firstOccurrencesFrom_fresh in Hq as [Hq _].
        rewrite occurrences_cons_ne; [done|]. by intros ->.
    + rewrite bump_fresh by done. rewrite IH.
      2:{ rewrite fmap_app. simpl. apply NoDup_app. split; [done|].
          split; [|apply NoDup_singleton].
          intros k Hk Hk'. apply list_elem_of_singleton in Hk'. by subst k. }
      rewrite fmap_app, map_app. simpl. rewrite <- app_assoc. simpl. f_equal.
      * apply map_ext_in. intros [k n] Hin. simpl.
        rewrite occurrences_cons_ne; [done|]. intros ->. apply Hp.
        apply list_elem_of_fmap. exists (k, n). split; [done|]. by apply list_elem_of_In.
      * rewrite occurrences_cons_eq. f_equal.
        apply map_ext_in. intros q Hq. apply list_elem_of_In in Hq.
        apply firstOccurrencesFrom_fresh in Hq as [Hq _].
        rewrite occurrences_cons_ne; [done|]. intros ->. apply Hq.
        apply elem_of_app. right. by apply list_elem_of_singleton.
Qed.





End ArchitectureLabel.




(** ** The aggregator: components, dependency edges, summary *)

Section AggregatorFacts.
Import Aggregator.

(** C9.  The component map is keyed by the text [name-type]: the
    components named [a-b] of type [c] and named [a] of type [b-c] are
    different as pairs, share the key [a-b-c], and come out of the merge
    as one component. *)
Theorem component_keys_collide :
  let c1 := Scenarios.component "a-b" "c" in
  let c2 := Scenarios.component "a" "b-c" in
  (Records.name c1, Records.type c1) ≠ (Records.name c2, Records.type c2)
  ∧ componentKey c1 = "a-b-c"
  ∧ componentKey c2 = "a-b-c"
  ∧ mergeComponents [Scenarios.resultWith "chunk_1" (Scenarios.withComponents [c1; c2])]
    = Js.Returns
        [ {| Records.name := Some "a-b"; Records.type := Some "c";
             Records.technologies := Some [];
             Records.description := Some "a-b/c; a/b-c";
             Records.chunks := Some ["chunk_1"] |} ].
Proof.
  cbv zeta. split; [discriminate|].
  split; [reflexivity|]. split; [reflexivity|].
  vm_compute. reflexivity.
Qed.

(** Components whose keys differ stay apart. *)
Example distinct_keys_stay_apart :
  ∃ x y, mergeComponents
           [Scenarios.resultWith "chunk_1"
              (Scenarios.withComponents
                 [Scenarios.component "a" "b"; Scenarios.component "c" "d"])]
         = Js.Returns [x; y].
Proof. eexists. eexists. vm_compute. reflexivity. Qed.

Lemma push_edges (ds : list Records.Dep) (allDeps : list Records.Dep) :
  foldl (fun allDeps dep => allDeps ++ [withMediumStrength dep]) allDeps ds
  = allDeps ++ map withMediumStrength ds.
Proof.
  revert allDeps. induction ds as [|d ds IH]; intros allDeps; simpl.
  - by rewrite app_nil_r.
  - by rewrite IH, <- app_assoc.
Qed.

Lemma push_all_edges (results : list Records.ChunkResult) :
  ∀ allDeps,
    foldl (fun allDeps result =>
             foldl (fun allDeps dep => allDeps ++ [withMediumStrength dep]) allDeps
                   (Js.obj_or (Records.dependencies (Records.analysis result)) []))
          allDeps results
    = allDeps ++ map withMediumStrength (allInputEdges results).
Proof.
  induction results as [|r results IH]; intros allDeps; simpl.
  - by rewrite app_nil_r.
  - rewrite IH, push_edges. unfold allInputEdges. simpl.
    by rewrite map_app, app_assoc.
Qed.

Lemma mergeDependencies_map (results : list Records.ChunkResult) :
  mergeDependencies results = map withMediumStrength (allInputEdges results).
Proof. unfold mergeDependencies. by rewrite push_all_edges. Qed.

Lemma withMediumStrength_rewrites (dep : Records.Dep) :
  edgeRewritten dep (withMediumStrength dep).
Proof.
  unfold edgeRewritten, withMediumStrength. split.
  - by rewrite lookup_insert_eq.
  - intros field Hne. by rewrite lookup_insert_ne.
Qed.

(** C10.  The merged edge list matches the input edges one to one and in
    order (so repeated edges stay repeated); each output edge has
    [strength] equal to ['medium'], whatever the input edge had, and
    agrees with its input edge on every other field. *)
Theorem dependency_edges_get_medium_strength (results : list Records.ChunkResult) :
  Forall2 edgeRewritten (allInputEdges results) (mergeDependencies results).
Proof.
  rewrite mergeDependencies_map.
  induction (allInputEdges results) as [|d ds IH]; simpl; constructor; [|done].
  apply withMediumStrength_rewrites.
Qed.

(** The same strong edge reported by two results comes out twice, with
    medium strength. *)
Example repeated_strong_edge :
  mergeDependencies Scenarios.repeatedEdge
  = [Scenarios.edge "ui" "api" "http" "medium"; Scenarios.edge "ui" "api" "http" "medium"].
Proof. vm_compute. reflexivity. Qed.

(** C5.  When no result of the batch succeeded, [aggregateResults]
    returns a successful aggregation whose summary reports every
    attempted chunk as failed and none as successful, and whose narrative
    fields say that nothing could be aggregated. *)
Theorem no_success_gives_degenerate_record
    (chunkResults : Coordinator.BatchOutcome) (reply : Reply) :
  filter (fun r => Records.success r = true) (Coordinator.results chunkResults) = [] →
  ∃ d s,
    aggregateResults chunkResults reply = createFallbackAggregation chunkResults
    ∧ success (aggregateResults chunkResults reply) = true
    ∧ data (aggregateResults chunkResults reply) = Some d
    ∧ chunk_analysis_summary d = Some s
    ∧ total_chunks s = countAll chunkResults
    ∧ successful_chunks s = 0
    ∧ failed_chunks s = countAll chunkResults
    ∧ Records.architecture_pattern (unified d) = Some "Unknown"
    ∧ Records.insights (unified d)
      = Some ["Analysis failed - no successful chunks to aggregate"]
    ∧ Records.scalability_notes (unified d) = Some "Analysis incomplete"
    ∧ Records.security_considerations (unified d) = Some "Analysis incomplete".
Proof.
  intros Hnone. unfold aggregateResults. rewrite Hnone.
  rewrite bool_decide_eq_true_2 by done.
  eexists. eexists. split; [done|]. simpl. split; [done|]. split; [reflexivity|].
  simpl. split; [reflexivity|]. simpl. by repeat split.
Qed.

(** C2, as stated, fails on the content-aware path: two chunks attempted
    and both successful, a synthesis reply whose own summary block says 8,
    7 and 1; the aggregation returns that block, and the orchestrator
    copies it into the final result. *)
Lemma content_aware_summary_is_not_from_counts :
  countAll Scenarios.twoSuccesses = 2
  ∧ length (Coordinator.errors Scenarios.twoSuccesses) = 0
  ∧ ∃ d s,
      data (aggregateResults Scenarios.twoSuccesses Scenarios.replyWithOwnSummary) = Some d
      ∧ Orchestrator.chunkAnalysisSummary (Orchestrator.combineChunkedResults d "graph TD")
        = Some s
      ∧ total_chunks s = 8
      ∧ successful_chunks s = 7
      ∧ failed_chunks s = 1.
Proof.
  split; [reflexivity|]. split; [reflexivity|].
  eexists. eexists. split; [vm_compute; reflexivity|].
  split; [reflexivity|]. by repeat split.
Qed.

(** C2, amended.  When at least one result succeeded: on the
    content-aware path the [data] of the aggregation, summary block
    included, is the parsed synthesis reply as it is, and only the
    [metadata] counts are computed from the batch outcome; on the
    deterministic path, when the rule-based merge completes, the summary
    block is computed from the batch outcome: total = results + errors,
    successful = number of successful results, failed = number of
    errors.  In both cases the orchestrator copies the summary block of
    the aggregation into the final result. *)
Theorem summary_block_by_merge_path (chunkResults : Coordinator.BatchOutcome) :
  let successful :=
    filter (fun r => Records.success r = true) (Coordinator.results chunkResults) in
  successful ≠ [] →
  (∀ aggregatedData text mermaid,
      let r := aggregateResults chunkResults (Parsed aggregatedData text) in
      data r = Some aggregatedData
      ∧ Orchestrator.chunkAnalysisSummary
          (Orchestrator.combineChunkedResults aggregatedData mermaid)
        = chunk_analysis_summary aggregatedData
      ∧ ∃ m, metadata r = Some m
             ∧ totalChunks m = countAll chunkResults
             ∧ successfulChunks m = length successful)
  ∧ (∀ problem r mermaid,
        createRuleBasedAggregation successful chunkResults = Js.Returns r →
        aggregateResults chunkResults (Unusable problem) = r
        ∧ ∃ d s, data r = Some d
                 ∧ chunk_analysis_summary d = Some s
                 ∧ Orchestrator.chunkAnalysisSummary
                     (Orchestrator.combineChunkedResults d mermaid) = Some s
                 ∧ total_chunks s = countAll chunkResults
                 ∧ successful_chunks s = length successful
                 ∧ failed_chunks s = length (Coordinator.errors chunkResults)).
Proof.
  intros successful Hsome. split.
  - intros aggregatedData text mermaid. unfold aggregateResults.
    fold successful. rewrite bool_decide_eq_false_2 by done. simpl.
    split; [done|]. split; [done|]. eexists. split; [done|]. done.
  - intros problem r mermaid Hrule. unfold aggregateResults.
    fold successful. rewrite bool_decide_eq_false_2 by done. simpl.
    rewrite Hrule. split; [done|].
    unfold createRuleBasedAggregation in Hrule.
    destruct (determineArchitecturePattern successful) as [pattern|]; [|done].
    destruct (mergeComponents successful) as [components|]; [|done].
    simpl in Hrule. injection Hrule as <-. simpl.
    eexists. eexists. split; [done|]. simpl. split; [done|]. by repeat split.
Qed.

End AggregatorFacts.

(** Six units attempted, none succeeded: the summary reads 6, 0, 6. *)
Lemma no_success_gives_degenerate_record_witness :
  ∃ d s,
    Aggregator.aggregateResults Scenarios.sixFailures (Aggregator.Unusable "no reply")
    = Aggregator.createFallbackAggregation Scenarios.sixFailures
    ∧ Aggregator.success
        (Aggregator.aggregateResults Scenarios.sixFailures (Aggregator.Unusable "no reply"))
      = true
    ∧ Aggregator.data
        (Aggregator.aggregateResults Scenarios.sixFailures (Aggregator.Unusable "no reply"))
      = Some d
    ∧ Aggregator.chunk_analysis_summary d = Some s
    ∧ Aggregator.total_chunks s = 6
    ∧ Aggregator.successful_chunks s = 0
    ∧ Aggregator.failed_chunks s = 6
    ∧ Records.architecture_pattern (Aggregator.unified d) = Some "Unknown"
    ∧ Records.insights (Aggregator.unified d)
      = Some ["Analysis failed - no successful chunks to aggregate"]
    ∧ Records.scalability_notes (Aggregator.unified d) = Some "Analysis incomplete"
    ∧ Records.security_considerations (Aggregator.unified d) = Some "Analysis incomplete".
Proof.
  apply (no_success_gives_degenerate_record Scenarios.sixFailures
           (Aggregator.Unusable "no reply")).
  reflexivity.
Defined.

Lemma summary_block_by_merge_path_witness :
  let successful :=
    filter (fun r => Records.success r = true) (Coordinator.results Scenarios.twoSuccesses) in
  (∀ aggregatedData text mermaid,
      let r := Aggregator.aggregateResults Scenarios.twoSuccesses
                 (Aggregator.Parsed aggregatedData text) in
      Aggregator.data r = Some aggregatedData
      ∧ Orchestrator.chunkAnalysisSummary
          (Orchestrator.combineChunkedResults aggregatedData mermaid)
        = Aggregator.chunk_analysis_summary aggregatedData
      ∧ ∃ m, Aggregator.metadata r = Some m
             ∧ Aggregator.totalChunks m = Aggregator.countAll Scenarios.twoSuccesses
             ∧ Aggregator.successfulChunks m = length successful)
  ∧ (∀ problem r mermaid,
        Aggregator.createRuleBasedAggregation successful Scenarios.twoSuccesses
        = Js.Returns r →
        Aggregator.aggregateResults Scenarios.twoSuccesses (Aggregator.Unusable problem) = r
        ∧ ∃ d s, Aggregator.data r = Some d
                 ∧ Aggregator.chunk_analysis_summary d = Some s
                 ∧ Orchestrator.chunkAnalysisSummary
                     (Orchestrator.combineChunkedResults d mermaid) = Some s
                 ∧ Aggregator.total_chunks s = Aggregator.countAll Scenarios.twoSuccesses
                 ∧ Aggregator.successful_chunks s = length successful
                 ∧ Aggregator.failed_chunks s
                   = length (Coordinator.errors Scenarios.twoSuccesses)).
Proof.
  apply (summary_block_by_merge_path Scenarios.twoSuccesses).
  vm_compute. discriminate.
Defined.

(** On the two successful chunks the rule-based merge completes, with the
    summary 2, 2, 0. *)
Example rule_based_summary_of_two_successes :
  ∃ r d s,
    Aggregator.aggregateResults Scenarios.twoSuccesses (Aggregator.Unusable "no reply") = r
    ∧ Aggregator.data r = Some d
    ∧ Aggregator.chunk_analysis_summary d = Some s
    ∧ (Aggregator.total_chunks s, Aggregator.successful_chunks s, Aggregator.failed_chunks s)
      = (2, 2, 0)
    ∧ Aggregator.processing_time s = "0 minutes 5 seconds".
Proof.
  eexists. eexists. eexists. split; [reflexivity|].
  split; [vm_compute; reflexivity|]. split; [reflexivity|].
  split; vm_compute; reflexivity.
Qed.

(** ** The orchestrator *)

Section OrchestratorFacts.
Import Orchestrator.

Lemma analyzeWithoutChunking_calls (w : World) (repoTree : string) :
  ∀ c, c ∈ (analyzeWithoutChunking w repoTree).2 →
       c = AnalyzerAgent ∨ c = DiagramBuilderAgent.
Proof.
  intros c. unfold analyzeWithoutChunking.
  destruct (wholeAnalysis w) as [a|m]; simpl.
  - destruct (negb (Records.a_success a)); simpl.
    + intros Hc. apply list_elem_of_singleton in Hc. by left.
    + destruct (wholeDiagram w) as [d|m]; simpl.
      * destruct (negb (Records.d_success d)); simpl; intros Hc;
          apply elem_of_cons in Hc as [?|Hc]; [by left| |by left|];
          apply list_elem_of_singleton in Hc; by right.
      * intros Hc. apply elem_of_cons in Hc as [?|Hc]; [by left|].
        apply list_elem_of_singleton in Hc. by right.
  - intros Hc. apply list_elem_of_singleton in Hc. by left.
Qed.

Lemma analyzeWithoutChunking_method (w : World) (repoTree : string) :
  analysisMethod (analyzeWithoutChunking w repoTree).1
  = if bothAgentsSucceed w then Some (Js.VStr "single-chunk") else None.
Proof.
  unfold analyzeWithoutChunking, bothAgentsSucceed, analysisMethod.
  destruct (wholeAnalysis w) as [a|m]; simpl.
  - destruct (Records.a_success a); simpl.
    + destruct (wholeDiagram w) as [d|m]; simpl.
      * destruct (Records.d_success d); simpl; done.
      * done.
    + by destruct (wholeDiagram w).
  - done.
Qed.

(** C6, as stated, fails in its last part: 45 files, the default
    threshold of 500, the analyzer reporting failure.  The single-chunk
    path is taken, but the response is the fallback response, whose
    metadata has [fallbackUsed] and [error] and no path indicator. *)
Lemma fallback_response_has_no_path_indicator :
  countFilesInRepository Scenarios.smallTree = 45
  ∧ chunkingThreshold defaultConfig = 500
  ∧ ∃ r calls,
      analyzeRepository defaultConfig Scenarios.analyzerDown Scenarios.smallTree
      = Some (r, calls)
      ∧ calls = [AnalyzerAgent]
      ∧ metadata r = {[ "fallbackUsed" := Js.VBool true;
                        "error" := Js.VStr "model unavailable" ]}
      ∧ analysisMethod r = None
      ∧ analysisMethod r ≠ Some (Js.VStr "single-chunk").
Proof.
  split; [vm_compute; reflexivity|]. split; [reflexivity|].
  eexists. eexists. split; [vm_compute; reflexivity|].
  split; [reflexivity|]. split; [vm_compute; reflexivity|].
  split; [vm_compute; reflexivity|].
  vm_compute. discriminate.
Qed.

(** C6, amended.  When the number of file lines does not exceed the
    chunking threshold, [analyzeRepository] returns what
    [analyzeWithoutChunking] returns and calls neither the chunking
    agent, nor the parallel coordinator, nor the results aggregator; the
    path indicator of the response is ['single-chunk'] when the analyzer
    and the diagram builder both succeed, and the response carries no
    path indicator otherwise. *)
Theorem small_listing_bypasses_chunking (cfg : Config) (w : World) (repoTree : string) :
  countFilesInRepository repoTree ≤ chunkingThreshold cfg →
  ∃ r calls,
    analyzeRepository cfg w repoTree = Some (r, calls)
    ∧ (r, calls) = analyzeWithoutChunking w repoTree
    ∧ (ChunkingAgent ∉ calls)
    ∧ (ParallelCoordinator ∉ calls)
    ∧ (ResultsAggregator ∉ calls)
    ∧ analysisMethod r
      = if bothAgentsSucceed w then Some (Js.VStr "single-chunk") else None.
Proof.
  intros Hsmall. unfold analyzeRepository.
  assert ((chunkingThreshold cfg <? countFilesInRepository repoTree) = false) as Hnot.
  { by apply Nat.ltb_ge. }
  rewrite Hnot.
  simpl.
  destruct (analyzeWithoutChunking w repoTree) as [r calls] eqn:Hrun.
  exists r, calls. split; [done|]. split; [done|].
  pose proof (analyzeWithoutChunking_calls w repoTree) as Hcalls.
  pose proof (analyzeWithoutChunking_method w repoTree) as Hmethod.
  rewrite Hrun in Hcalls, Hmethod. simpl in Hcalls, Hmethod.
  split; [|split; [|split; [|done]]];
    intros Hin; destruct (Hcalls _ Hin); discriminate.
Qed.

End OrchestratorFacts.

(** 45 files against the threshold of 500, every agent answering: the
    single-chunk path, with its indicator. *)
Lemma small_listing_bypasses_chunking_witness :
  ∃ r calls,
    Orchestrator.analyzeRepository Orchestrator.defaultConfig Scenarios.calmWorld
      Scenarios.smallTree = Some (r, calls)
    ∧ (r, calls) = Orchestrator.analyzeWithoutChunking Scenarios.calmWorld Scenarios.smallTree
    ∧ (Orchestrator.ChunkingAgent ∉ calls)
    ∧ (Orchestrator.ParallelCoordinator ∉ calls)
    ∧ (Orchestrator.ResultsAggregator ∉ calls)
    ∧ Orchestrator.analysisMethod r
      = if Orchestrator.bothAgentsSucceed Scenarios.calmWorld
        then Some (Js.VStr "single-chunk") else None.
Proof.
  apply (small_listing_bypasses_chunking Orchestrator.defaultConfig Scenarios.calmWorld
           Scenarios.smallTree).
  vm_compute. lia.
Defined.

Example scenario_A_indicator :
  ∃ r calls,
    Orchestrator.analyzeRepository Orchestrator.defaultConfig Scenarios.calmWorld
      Scenarios.smallTree = Some (r, calls)
    ∧ calls = [Orchestrator.AnalyzerAgent; Orchestrator.DiagramBuilderAgent]
    ∧ Orchestrator.analysisMethod r = Some (Js.VStr "single-chunk").
Proof.
  eexists. eexists. split; [vm_compute; reflexivity|].
  split; [reflexivity|]. vm_compute. reflexivity.
Qed.

(** * Further properties of the agents *)

(** ** The decomposer: the deterministic strategy *)

Section FallbackChunks.
Import Chunking.

Lemma groupFilesByType_concat (fs : list string) :
  concat (map snd (groupFilesByType fs))
  = concat (map (fun t => filter (fun f => classify f = t) fs) allTypes).
Proof.
  unfold groupFilesByType. rewrite concat_nonempty_groups, map_map. f_equal.
  apply map_ext. intros t. apply filledGroups_filter.
Qed.

Lemma groupFilesByType_groups (fs : list string) (t : FileType) (l : list string) :
  (t, l) ∈ groupFilesByType fs → l = filter (fun f => classify f = t) fs ∧ l ≠ [].
Proof.
  unfold groupFilesByType. intros Hin.
  apply list_elem_of_filter in Hin as [Hne Hin].
  apply list_elem_of_fmap in Hin as (t' & [= -> ->] & _).
  split; [apply filledGroups_filter|done].
Qed.

(** What every page of one group looks like, whenever the loop returns. *)
Lemma pageLoop_pages (fuel size : nat) (t : FileType) (l : list string) :
  ∀ i k out k', pageLoop fuel size t l i k = Some (out, k') →
    map id out = map (fun j => "chunk_" +:+ pretty j) (seq k (length out))
    ∧ k' = k + length out
    ∧ Forall (fun c => chunk_type c = Js.toLowerCase (typeName t)
                       ∧ priority c = getPriorityForType t
                       ∧ files c `sublist_of` l) out.
Proof.
  induction fuel as [|fuel IH]; intros i k out k'; simpl.
  - destruct (i <? length l); [done|]. intros [= <- <-]. simpl.
    split; [done|]. split; [lia|constructor].
  - destruct (i <? length l); [|intros [= <- <-]; simpl; split; [done|]; split; [lia|constructor]].
    destruct (pageLoop fuel size t l (i + size) (S k)) as [[cs k'']|] eqn:Hrest; [|done].
    intros [= <- <-]. apply IH in Hrest as (Hids & -> & Hall). simpl.
    split; [by rewrite Hids|]. split; [lia|].
    constructor; [|done]. simpl. split; [done|]. split; [done|].
    unfold Js.slice. etrans; [apply sublist_take|apply sublist_drop].
Qed.

Lemma groupLoop_pages (fuel size : nat) (gs : list (FileType * list string)) :
  ∀ k out, groupLoop fuel size gs k = Some out →
    map id out = map (fun j => "chunk_" +:+ pretty j) (seq k (length out))
    ∧ Forall (fun c => ∃ t l, (t, l) ∈ gs
                              ∧ chunk_type c = Js.toLowerCase (typeName t)
                              ∧ priority c = getPriorityForType t
                              ∧ files c `sublist_of` l) out.
Proof.
  induction gs as [|[t l] gs IH]; intros k out; simpl.
  - intros [= <-]. split; [done|constructor].
  - destruct (pageLoop fuel size t l 0 k) as [[cs k']|] eqn:Hpages; [|done].
    destruct (groupLoop fuel size gs k') as [cs'|] eqn:Hrest; [|done].
    intros [= <-]. apply pageLoop_pages in Hpages as (Hids & -> & Hall).
    apply IH in Hrest as (Hids' & Hall'). split.
    + rewrite map_app, length_app, seq_app, map_app. by rewrite Hids, Hids'.
    + apply Forall_app. split.
      * eapply Forall_impl; [exact Hall|]. intros c (? & ? & ?).
        exists t, l. split; [by apply elem_of_cons; left|done].
      * eapply Forall_impl; [exact Hall'|]. intros c (t' & l' & ? & ?).
        exists t', l'. split; [by apply elem_of_cons; right|done].
Qed.

Lemma createFallbackChunks_returns (cfg : Config) (fs : list string) :
  1 ≤ chunkSizeOf cfg (length fs) →
  ∃ cs, groupLoop (length fs) (chunkSizeOf cfg (length fs)) (groupFilesByType fs) 1 = Some cs
        ∧ ∃ r, createFallbackChunks cfg fs = Some r ∧ chunksOf r = cs.
Proof.
  intros Hsize.
  destruct (groupLoop_spec (length fs) _ _ Hsize (groupFilesByType_short fs) 1)
    as (cs & Hrun & _).
  exists cs. split; [done|]. unfold createFallbackChunks. rewrite Hrun.
  eexists. split; [done|]. done.
Qed.

(** X1.  The deterministic strategy keeps the listing order inside every
    category, and emits the categories in the fixed order Frontend,
    Backend, Configuration, Tests, Documentation, Utilities, Other: the
    files of all units, read unit after unit, are the files of the first
    category in listing order, then those of the second, and so on. *)
Theorem fallback_keeps_listing_order (cfg : Config) (fs : list string) :
  1 ≤ chunkSizeOf cfg (length fs) →
  ∃ r, createFallbackChunks cfg fs = Some r
       ∧ allFilesOf (chunksOf r)
         = concat (map (fun t => filter (fun f => classify f = t) fs) allTypes).
Proof.
  intros Hsize.
  destruct (groupLoop_spec (length fs) _ _ Hsize (groupFilesByType_short fs) 1)
    as (cs & Hrun & Hcat & _).
  unfold createFallbackChunks. rewrite Hrun. eexists. split; [done|].
  unfold chunksOf. simpl. by rewrite Hcat, groupFilesByType_concat.
Qed.

(** X2.  Every unit of the deterministic strategy holds files of one category
    only; its [chunk_type] is that category in lower case and its priority
    is the one the table gives for that category. *)
Theorem fallback_units_are_homogeneous (cfg : Config) (fs : list string) :
  1 ≤ chunkSizeOf cfg (length fs) →
  ∃ r, createFallbackChunks cfg fs = Some r
       ∧ Forall (fun c => ∃ t, chunk_type c = Js.toLowerCase (typeName t)
                               ∧ priority c = getPriorityForType t
                               ∧ Forall (fun f => classify f = t) (files c))
                (chunksOf r).
Proof.
  intros Hsize.
  destruct (createFallbackChunks_returns cfg fs Hsize) as (cs & Hloop & r & Hr & <-).
  exists r. split; [done|].
  apply groupLoop_pages in Hloop as [_ Hall].
  eapply Forall_impl; [exact Hall|]. intros c (t & l & Hin & Htype & Hprio & Hsub).
  exists t. split; [done|]. split; [done|].
  apply groupFilesByType_groups in Hin as [-> _].
  apply Forall_forall. intros f Hf.
  eapply elem_of_sublist in Hf; [|exact Hsub].
  by apply list_elem_of_filter in Hf as [? _].
Qed.

Lemma chunk_id_inj (j j' : nat) : "chunk_" +:+ pretty j = "chunk_" +:+ pretty j' → j = j'.
Proof. intros H. simpl in H. injection H as H. by apply (inj pretty). Qed.

(** X3.  The units of the deterministic strategy are numbered [chunk_1],
    [chunk_2], ... in the order they are emitted, across categories; no two
    units share an id. *)
Theorem fallback_ids_are_consecutive (cfg : Config) (fs : list string) :
  1 ≤ chunkSizeOf cfg (length fs) →
  ∃ r, createFallbackChunks cfg fs = Some r
       ∧ map id (chunksOf r)
         = map (fun j => "chunk_" +:+ pretty j) (seq 1 (length (chunksOf r)))
       ∧ NoDup (map id (chunksOf r)).
Proof.
  intros Hsize.
  destruct (createFallbackChunks_returns cfg fs Hsize) as (cs & Hloop & r & Hr & <-).
  exists r. split; [done|].
  apply groupLoop_pages in Hloop as [Hids _]. split; [done|].
  rewrite Hids. apply NoDup_fmap_2_strong; [|apply NoDup_seq].
  intros j j' _ _. apply chunk_id_inj.
Qed.

(** X4.  The number of units [k] of the deterministic strategy, for [n] files
    and page size [s]: [n <= s * k <= n + 7 * (s - 1)].  The lower bound
    says the units are enough to hold the files; the upper bound says
    at most one short page per category, whatever [maxChunks] is. *)
Theorem fallback_unit_count_bounds (cfg : Config) (fs : list string) :
  1 ≤ chunkSizeOf cfg (length fs) →
  ∃ r, createFallbackChunks cfg fs = Some r
       ∧ length fs ≤ chunkSizeOf cfg (length fs) * length (chunksOf r)
       ∧ chunkSizeOf cfg (length fs) * length (chunksOf r)
         ≤ length fs + 7 * (chunkSizeOf cfg (length fs) - 1).
Proof. apply fallback_chunk_count. Qed.

Lemma groupFilesByType_head (fs : list string) :
  fs ≠ [] → ∃ t l gs, groupFilesByType fs = (t, l) :: gs ∧ l ≠ [].
Proof.
  intros Hne. destruct (groupFilesByType fs) as [|[t l] gs] eqn:Hgs.
  - pose proof (groupFilesByType_perm fs) as Hperm. rewrite Hgs in Hperm. simpl in Hperm.
    apply Permutation_nil in Hperm. done.
  - exists t, l, gs. split; [done|].
    assert ((t, l) ∈ groupFilesByType fs) as Hin by (rewrite Hgs; by apply elem_of_cons; left).
    by apply groupFilesByType_groups in Hin as [_ ?].
Qed.

(** X5.  With [maxChunkSize = 0] and a non-empty listing the page size is zero
    and the page loop of the deterministic strategy never advances:
    whatever the fuel, it does not return, and [chunkRepository] does not
    return once the content-aware attempt has failed. *)
Theorem zero_page_size_never_returns (cfg : Config) (fs : list string) :
  fs ≠ [] →
  maxChunkSize cfg = 0 →
  chunkSizeOf cfg (length fs) = 0
  ∧ (∀ fuel k, groupLoop fuel (chunkSizeOf cfg (length fs)) (groupFilesByType fs) k = None)
  ∧ ∀ problem, chunkRepository cfg fs (Unusable problem) = None.
Proof.
  intros Hne Hzero.
  assert (chunkSizeOf cfg (length fs) = 0) as Hsize.
  { unfold chunkSizeOf. rewrite Hzero. by destruct (maxChunks cfg =? 0). }
  assert (∀ fuel k, groupLoop fuel 0 (groupFilesByType fs) k = None) as Hloop.
  { intros fuel k. destruct (groupFilesByType_head fs Hne) as (t & l & gs & -> & Hl).
    simpl. by rewrite pageLoop_zero_diverges. }
  split; [done|]. rewrite Hsize. split; [done|].
  intros problem. unfold chunkRepository. rewrite Hzero.
  destruct fs as [|f fs]; [done|]. simpl.
  unfold createFallbackChunks. rewrite Hsize. by rewrite Hloop.
Qed.

End FallbackChunks.

Lemma fallback_keeps_listing_order_witness :
  ∃ r, Chunking.createFallbackChunks Chunking.defaultConfig ["b.md"; "a.css"; "c.md"] = Some r
       ∧ Chunking.allFilesOf (Chunking.chunksOf r)
         = concat (map (fun t => filter (fun f => Chunking.classify f = t)
                                   ["b.md"; "a.css"; "c.md"]) Chunking.allTypes).
Proof.
  apply (fallback_keeps_listing_order Chunking.defaultConfig ["b.md"; "a.css"; "c.md"]).
  vm_compute. lia.
Defined.

Lemma fallback_units_are_homogeneous_witness :
  ∃ r, Chunking.createFallbackChunks Chunking.defaultConfig ["b.md"; "a.css"; "c.md"] = Some r
       ∧ Forall (fun c => ∃ t, Chunking.chunk_type c = Js.toLowerCase (Chunking.typeName t)
                               ∧ Chunking.priority c = Chunking.getPriorityForType t
                               ∧ Forall (fun f => Chunking.classify f = t) (Chunking.files c))
                (Chunking.chunksOf r).
Proof.
  apply (fallback_units_are_homogeneous Chunking.defaultConfig ["b.md"; "a.css"; "c.md"]).
  vm_compute. lia.
Defined.

Lemma fallback_ids_are_consecutive_witness :
  ∃ r, Chunking.createFallbackChunks Chunking.defaultConfig ["b.md"; "a.css"; "c.md"] = Some r
       ∧ map Chunking.id (Chunking.chunksOf r)
         = map (fun j => "chunk_" +:+ pretty j) (seq 1 (length (Chunking.chunksOf r)))
       ∧ NoDup (map Chunking.id (Chunking.chunksOf r)).
Proof.
  apply (fallback_ids_are_consecutive Chunking.defaultConfig ["b.md"; "a.css"; "c.md"]).
  vm_compute. lia.
Defined.

Lemma fallback_unit_count_bounds_witness :
  ∃ r, Chunking.createFallbackChunks Chunking.defaultConfig ["b.md"; "a.css"; "c.md"] = Some r
       ∧ length ["b.md"; "a.css"; "c.md"]
         ≤ Chunking.chunkSizeOf Chunking.defaultConfig (length ["b.md"; "a.css"; "c.md"])
           * length (Chunking.chunksOf r)
       ∧ Chunking.chunkSizeOf Chunking.defaultConfig (length ["b.md"; "a.css"; "c.md"])
         * length (Chunking.chunksOf r)
         ≤ length ["b.md"; "a.css"; "c.md"]
           + 7 * (Chunking.chunkSizeOf Chunking.defaultConfig
                    (length ["b.md"; "a.css"; "c.md"]) - 1).
Proof.
  apply (fallback_unit_count_bounds Chunking.defaultConfig ["b.md"; "a.css"; "c.md"]).
  vm_compute. lia.
Defined.

Lemma zero_page_size_never_returns_witness :
  let cfg := {| Chunking.maxChunkSize := 0; Chunking.maxChunks := 10;
                Chunking.minChunkSize := 0 |} in
  Chunking.chunkSizeOf cfg (length ["a.js"]) = 0
  ∧ (∀ fuel k, Chunking.groupLoop fuel (Chunking.chunkSizeOf cfg (length ["a.js"]))
                 (Chunking.groupFilesByType ["a.js"]) k = None)
  ∧ ∀ problem, Chunking.chunkRepository cfg ["a.js"] (Chunking.Unusable problem) = None.
Proof.
  apply (zero_page_size_never_returns
           {| Chunking.maxChunkSize := 0; Chunking.maxChunks := 10;
              Chunking.minChunkSize := 0 |} ["a.js"]).
  - discriminate.
  - reflexivity.
Defined.

(** ** The decomposer: validation, the entry point, the file listing *)

Section ChunkingEntry.
Import Chunking.

Lemma validateFrom_files (cs : list Proposed) (allFiles : list string) :
  ∀ index,
    allFilesOf (validateFrom index cs allFiles)
    = filter (fun f => f ∈ allFiles) (concat (map (fun p => default [] (p_files p)) cs)).
Proof.
  induction cs as [|p cs IH]; intros index; simpl; [done|].
  rewrite filter_app. destruct (p_files p) as [fl|]; simpl.
  - case_bool_decide as Hnil.
    + by rewrite IH, Hnil.
    + unfold allFilesOf in *. simpl. by rewrite IH.
  - by rewrite IH.
Qed.

Lemma validateFrom_length (cs : list Proposed) (allFiles : list string) :
  ∀ index, length (validateFrom index cs allFiles) ≤ length cs.
Proof.
  induction cs as [|p cs IH]; intros index; simpl; [done|].
  destruct (p_files p) as [fl|]; [case_bool_decide|]; simpl;
    specialize (IH (S index)); lia.
Qed.

(** X6.  Validation of a proposal removes the files that are not in the
    listing and nothing else: the files of the validated units, read unit
    after unit, are the proposed files that occur in the listing, in the
    proposed order (repetitions included); and it never adds a unit. *)
Theorem validation_keeps_exactly_the_known_files (fs : list string) (cs : list Proposed)
    (strategy estimate : option string) (text : string) :
  let r := createIntelligentChunks fs (Parsed (Some cs) strategy estimate text) in
  success r = true
  ∧ allFilesOf (chunksOf r)
    = filter (fun f => f ∈ fs) (concat (map (fun p => default [] (p_files p)) cs))
  ∧ length (chunksOf r) ≤ length cs.
Proof.
  simpl. unfold chunksOf. simpl. split; [done|]. split.
  - apply validateFrom_files.
  - apply validateFrom_length.
Qed.

(** X7.  Whenever [chunkRepository] returns, the result is successful, carries
    data, and its [chunkCount] and [totalFiles] are the number of units
    and the length of the listing: the caller's branch for an unsuccessful
    chunking result is never taken. *)
Theorem chunkRepository_never_reports_failure (cfg : Config) (fs : list string)
    (reply : Reply) (r : ChunkingResult) :
  chunkRepository cfg fs reply = Some r →
  success r = true
  ∧ ∃ d, data r = Some d
         ∧ chunkCount d = length (chunks d)
         ∧ totalFiles d = length fs.
Proof.
  unfold chunkRepository. destruct (length fs <=? maxChunkSize cfg).
  - intros [= <-]. split; [done|]. eexists. by split.
  - destruct (success (createIntelligentChunks fs reply)) eqn:Hai; simpl.
    + intros [= <-]. split; [done|].
      unfold createIntelligentChunks in *.
      destruct reply as [m|cs st est txt]; [done|].
      destruct cs as [l|]; [|done]. simpl. eexists. by split.
    + unfold createFallbackChunks.
      destruct (groupLoop _ _ _ _) as [cs|]; [|done].
      intros [= <-]. split; [done|]. eexists. by split.
Qed.

(** X8.  The chunking agent never sees more files than the orchestrator
    counted: the orchestrator counts the lines that start with a dash and a
    space, the chunking agent drops those among them that hold nothing
    else.  The two numbers can differ. *)
Theorem extracted_files_at_most_counted :
  (∀ repoTree,
      length (extractFilesFromTree repoTree) ≤ Orchestrator.countFilesInRepository repoTree)
  ∧ ∃ repoTree,
      length (extractFilesFromTree repoTree) < Orchestrator.countFilesInRepository repoTree.
Proof.
  split.
  - intros repoTree. unfold extractFilesFromTree, Orchestrator.countFilesInRepository.
    etrans; [apply length_filter|]. by rewrite length_map.
  - exists "-  ". vm_compute. lia.
Qed.

End ChunkingEntry.

Lemma chunkRepository_never_reports_failure_witness :
  ∃ r, Chunking.chunkRepository Scenarios.tinyConfig ["a.js"; "b.js"] Scenarios.droppingReply
       = Some r
       ∧ Chunking.success r = true
       ∧ ∃ d, Chunking.data r = Some d
              ∧ Chunking.chunkCount d = length (Chunking.chunks d)
              ∧ Chunking.totalFiles d = length ["a.js"; "b.js"].
Proof.
  eexists. split; [reflexivity|].
  apply (chunkRepository_never_reports_failure Scenarios.tinyConfig ["a.js"; "b.js"]
           Scenarios.droppingReply).
  reflexivity.
Defined.

(** ** The scheduler: order, attempts, back-off, failure reasons *)

Section CoordinatorExtras.
Import Coordinator.
Variable cfg : Config.
Variable agents : Agents.

Lemma settleBatch_cons (i : nat) (c : Chunking.Chunk) (batch : list Chunking.Chunk) :
  settleBatch cfg agents i (c :: batch)
  = (c, i, processChunkWithRetry cfg agents c i) :: settleBatch cfg agents (S i) batch.
Proof.
  unfold settleBatch. rewrite imap_cons, Nat.add_0_r. f_equal.
  apply imap_ext. intros j x _. simpl. by rewrite Nat.add_succ_r.
Qed.

Lemma fulfilled_indices_in_order (batch : list Chunking.Chunk) :
  ∀ i, map Records.chunkIndex (fulfilledOf (settleBatch cfg agents i batch))
       `sublist_of` seq i (length batch).
Proof.
  induction batch as [|c batch IH]; intros i; [done|].
  rewrite settleBatch_cons. unfold fulfilledOf in *. simpl.
  destruct (settlement (processChunkWithRetry cfg agents c i)) as [v|] eqn:Hv; simpl.
  - destruct (retryLoop_fulfilled_index _ _ _ _ _ _ _ _ _ _ Hv) as [-> _].
    apply sublist_skip, IH.
  - apply sublist_cons, IH.
Qed.

Lemma rejected_indices_in_order (batch : list Chunking.Chunk) :
  ∀ i, map (fun e : gmap string Js.val => e !! "chunkIndex")
           (rejectedOf (settleBatch cfg agents i batch))
       `sublist_of` map (fun j => Some (Js.VNum (N.of_nat j))) (seq i (length batch)).
Proof.
  induction batch as [|c batch IH]; intros i; [done|].
  rewrite settleBatch_cons. unfold rejectedOf in *. simpl.
  destruct (settlement (processChunkWithRetry cfg agents c i)) as [v|[m|]]; simpl.
  - apply sublist_cons, IH.
  - unfold chunkError at 1. rewrite lookup_insert_eq. apply sublist_skip, IH.
  - apply sublist_cons, IH.
Qed.

(** X9.  The outcome lists results and errors in submission order, whatever
    the batch size: the chunk indices of the results, and those of the
    errors, each read in list order, increase strictly. *)
Theorem outcome_keeps_submission_order (chunks : list Chunking.Chunk) (elapsed : N) :
  1 ≤ maxConcurrentChunks cfg →
  1 ≤ retryAttempts cfg →
  ∃ out, processChunksInParallel cfg agents chunks elapsed = Some out
         ∧ map Records.chunkIndex (results out) `sublist_of` seq 0 (length chunks)
         ∧ map (fun e : gmap string Js.val => e !! "chunkIndex") (errors out)
           `sublist_of` map (fun j => Some (Js.VNum (N.of_nat j))) (seq 0 (length chunks)).
Proof.
  intros Hmc Hretry.
  destruct (processChunksInParallel_spec cfg agents chunks elapsed Hmc Hretry)
    as (out & Hrun & Hres & Herr & _).
  exists out. split; [done|]. rewrite Hres, Herr. unfold settleFrom. rewrite drop_0.
  split; [apply fulfilled_indices_in_order|apply rejected_indices_in_order].
Qed.

(** The retry loop when the attempt [attempt + j] is the first to
    succeed. *)
Lemma retryLoop_first_success (chunk : Chunking.Chunk) (chunkIndex : nat)
    (value : Records.ChunkResult) (j : nat) :
  ∀ remaining attempt lastError made slept,
    j < remaining →
    (∀ a, attempt ≤ a < attempt + j →
          attemptFails (processChunk cfg agents chunk chunkIndex a)) →
    processChunk cfg agents chunk chunkIndex (attempt + j) = Js.Returns (Analyzed value) →
    let run := retryLoop cfg agents chunk chunkIndex remaining attempt lastError made slept in
    settlement run = Fulfilled value ∧ calls run = made + j + 1.
Proof.
  induction j as [|j IH]; intros remaining attempt lastError made slept Hlt Hfail Hok.
  - destruct remaining as [|remaining]; [lia|]. simpl.
    rewrite Nat.add_0_r in Hok. rewrite Hok. simpl. split; [done|lia].
  - destruct remaining as [|remaining]; [lia|]. simpl.
    pose proof (Hfail attempt ltac:(lia)) as Hnow.
    replace (attempt + S j) with (S attempt + j) in Hok by lia.
    destruct (processChunk cfg agents chunk chunkIndex attempt) as [[r|e ? ?]|m];
      simpl in Hnow; [done| |];
      (edestruct (IH remaining (S attempt)) as [Hs Hc];
         [lia | intros a Ha; apply Hfail; lia | exact Hok |];
       rewrite Hs, Hc; split; [done|lia]).
Qed.

(** X10.  A chunk whose attempt number [k] is the first to succeed is attempted
    exactly [k] times: the loop stops at the first success, and the promise
    is fulfilled with the result of that attempt. *)
Theorem first_success_stops_retrying (chunk : Chunking.Chunk) (chunkIndex k : nat)
    (value : Records.ChunkResult) :
  1 ≤ k ≤ retryAttempts cfg →
  (∀ a, 1 ≤ a < k → attemptFails (processChunk cfg agents chunk chunkIndex a)) →
  processChunk cfg agents chunk chunkIndex k = Js.Returns (Analyzed value) →
  settlement (processChunkWithRetry cfg agents chunk chunkIndex) = Fulfilled value
  ∧ calls (processChunkWithRetry cfg agents chunk chunkIndex) = k.
Proof.
  intros Hk Hfail Hok. unfold processChunkWithRetry.
  destruct (retryLoop_first_success chunk chunkIndex value (k - 1)
              (retryAttempts cfg) 1 None 0 []) as [Hs Hc].
  - lia.
  - intros a Ha. apply Hfail. lia.
  - by replace (1 + (k - 1)) with k by lia.
  - split; [done|]. rewrite Hc. lia.
Qed.

Lemma retryLoop_calls_mono (chunk : Chunking.Chunk) (chunkIndex remaining : nat) :
  ∀ attempt lastError made slept,
    made ≤ calls (retryLoop cfg agents chunk chunkIndex remaining attempt lastError made slept).
Proof.
  induction remaining as [|remaining IH]; intros attempt lastError made slept; simpl; [done|].
  destruct (processChunk cfg agents chunk chunkIndex attempt) as [[r|e ? ?]|m]; simpl.
  - lia.
  - etrans; [|apply IH]. lia.
  - etrans; [|apply IH]. lia.
Qed.

Lemma retryLoop_calls_ge (chunk : Chunking.Chunk) (chunkIndex remaining : nat) :
  ∀ attempt lastError made slept,
    1 ≤ remaining →
    made + 1
    ≤ calls (retryLoop cfg agents chunk chunkIndex remaining attempt lastError made slept).
Proof.
  destruct remaining as [|remaining]; intros attempt lastError made slept Hpos; [lia|].
  simpl. destruct (processChunk cfg agents chunk chunkIndex attempt) as [[r|e ? ?]|m]; simpl.
  - lia.
  - etrans; [|apply retryLoop_calls_mono]. lia.
  - etrans; [|apply retryLoop_calls_mono]. lia.
Qed.

Lemma attempt_log_of_batch (batch : list Chunking.Chunk) :
  1 ≤ retryAttempts cfg →
  ∀ i, map fst (logOf (settleBatch cfg agents i batch)) = seq i (length batch)
       ∧ Forall (fun e => 1 ≤ e.2 ≤ retryAttempts cfg) (logOf (settleBatch cfg agents i batch)).
Proof.
  intros Hretry. induction batch as [|c batch IH]; intros i; [by split; [|constructor]|].
  rewrite settleBatch_cons. unfold logOf in *. simpl.
  destruct (IH (S i)) as [Hidx Hall]. split; [by rewrite Hidx|].
  constructor; [|done]. simpl. unfold processChunkWithRetry. split.
  - by apply (retryLoop_calls_ge c i (retryAttempts cfg) 1 None 0 []).
  - apply (retryLoop_calls_le cfg agents c i (retryAttempts cfg) 1 None 0 []).
Qed.

(** X11.  Whatever the agents do, every chunk is attempted at least once and at
    most [retryAttempts] times, and a promise is created for every chunk,
    in submission order. *)
Theorem attempts_stay_within_the_bound (chunks : list Chunking.Chunk) (elapsed : N) :
  1 ≤ maxConcurrentChunks cfg →
  1 ≤ retryAttempts cfg →
  ∃ out, processChunksInParallel cfg agents chunks elapsed = Some out
         ∧ map fst (attemptLog out) = seq 0 (length chunks)
         ∧ Forall (fun e => 1 ≤ e.2 ≤ retryAttempts cfg) (attemptLog out).
Proof.
  intros Hmc Hretry.
  destruct (processChunksInParallel_spec cfg agents chunks elapsed Hmc Hretry)
    as (out & Hrun & _ & _ & Hlog & _).
  exists out. split; [done|]. rewrite Hlog. unfold settleFrom. rewrite drop_0.
  by apply attempt_log_of_batch.
Qed.

Lemma retryLoop_sleeps (chunk : Chunking.Chunk) (chunkIndex remaining : nat) :
  ∀ attempt lastError made slept,
    let run := retryLoop cfg agents chunk chunkIndex remaining attempt lastError made slept in
    sleeps run
    = slept ++ map backoffDelay
                 (filter (fun a => throwsAt cfg agents chunk chunkIndex a = true
                                   ∧ a < retryAttempts cfg)
                         (seq attempt (calls run - made))).
Proof.
  induction remaining as [|remaining IH]; intros attempt lastError made slept; simpl.
  - by rewrite Nat.sub_diag, app_nil_r.
  - destruct (processChunk cfg agents chunk chunkIndex attempt) as [[r|e ? ?]|m] eqn:Hp; simpl.
    + replace (S made - made) with 1 by lia. simpl. rewrite filter_cons, decide_False.
      * by rewrite app_nil_r.
      * unfold throwsAt. rewrite Hp. by intros [? _].
    + rewrite IH.
      pose proof (retryLoop_calls_mono chunk chunkIndex remaining (S attempt)
                    (Some (Js.str_or e "Chunk processing failed")) (S made) slept) as Hmono.
      set (run := retryLoop _ _ _ _ _ _ _ _ _) in *.
      replace (calls run - made) with (S (calls run - S made)) by lia.
      simpl. rewrite filter_cons, decide_False; [done|].
      unfold throwsAt. rewrite Hp. by intros [? _].
    + rewrite IH.
      pose proof (retryLoop_calls_mono chunk chunkIndex remaining (S attempt)
                    (Some m) (S made)
                    (if attempt <? retryAttempts cfg
                     then slept ++ [(2 ^ N.of_nat attempt * 1000)%N] else slept)) as Hmono.
      set (run := retryLoop _ _ _ _ _ _ _ _ _) in *.
      replace (calls run - made) with (S (calls run - S made)) by lia.
      simpl. rewrite filter_cons.
      destruct (attempt <? retryAttempts cfg) eqn:E.
      * apply Nat.ltb_lt in E. rewrite decide_True.
        -- simpl. by rewrite <- app_assoc.
        -- unfold throwsAt. by rewrite Hp.
      * apply Nat.ltb_ge in E. rewrite decide_False; [done|]. intros [_ ?]. lia.
Qed.

(** X12.  The delays slept for one chunk: one delay of [2^a] seconds after every
    attempt [a] that threw (timed out), unless it was the last allowed
    attempt.  An attempt that returned an unsuccessful result is followed
    by the next attempt without delay. *)
Theorem backoff_follows_thrown_attempts (chunk : Chunking.Chunk) (chunkIndex : nat) :
  sleeps (processChunkWithRetry cfg agents chunk chunkIndex)
  = map backoffDelay
      (filter (fun a => throwsAt cfg agents chunk chunkIndex a = true
                        ∧ a < retryAttempts cfg)
              (seq 1 (calls (processChunkWithRetry cfg agents chunk chunkIndex)))).
Proof.
  unfold processChunkWithRetry.
  rewrite (retryLoop_sleeps chunk chunkIndex (retryAttempts cfg) 1 None 0 []).
  simpl. by rewrite Nat.sub_0_r.
Qed.

(** X13.  [processChunk] throws only when the attempt timed out: the analyzer,
    or after a successful analysis the diagram builder, was still pending.
    A rejection of either agent comes back as an unsuccessful result. *)
Theorem attempt_throws_only_on_timeout (chunk : Chunking.Chunk) (chunkIndex attempt : nat)
    (message : string) :
  processChunk cfg agents chunk chunkIndex attempt = Js.Throws message →
  message = "Chunk " +:+ Chunking.id chunk +:+ " timed out after "
            +:+ pretty (chunkTimeout cfg) +:+ "ms"
  ∧ (analyze agents chunkIndex attempt chunk = Pending
     ∨ ∃ a, analyze agents chunkIndex attempt chunk = Resolved a
            ∧ Records.a_success a = true
            ∧ buildDiagram agents chunkIndex attempt (Records.a_data a) = Pending).
Proof.
  unfold processChunk, analyzeChunk.
  destruct (analyze agents chunkIndex attempt chunk) as [a|m|] eqn:Ha; [|done|].
  - destruct (Records.a_success a) eqn:Hok; simpl; [|done].
    destruct (buildDiagram agents chunkIndex attempt (Records.a_data a)) as [d|m|] eqn:Hd;
      [done|done|].
    intros [= <-]. split; [done|]. right. by exists a.
  - intros [= <-]. split; [done|]. by left.
Qed.

Lemma retryLoop_last_error (chunk : Chunking.Chunk) (chunkIndex remaining : nat) :
  ∀ attempt lastError made slept,
    1 ≤ remaining →
    (∀ a, attempt ≤ a < attempt + remaining →
          attemptFails (processChunk cfg agents chunk chunkIndex a)) →
    settlement (retryLoop cfg agents chunk chunkIndex remaining attempt lastError made slept)
    = RejectedWith
        (Some (failureMessage
                 (processChunk cfg agents chunk chunkIndex (attempt + remaining - 1)))).
Proof.
  induction remaining as [|remaining IH]; intros attempt lastError made slept Hpos Hfail;
    [lia|].
  simpl. pose proof (Hfail attempt ltac:(lia)) as Hnow.
  destruct remaining as [|remaining].
  - replace (attempt + 1 - 1) with attempt by lia.
    destruct (processChunk cfg agents chunk chunkIndex attempt) as [[r|e ? ?]|m];
      simpl in Hnow; [done|done|done].
  - replace (attempt + S (S remaining) - 1) with (S attempt + S remaining - 1) by lia.
    destruct (processChunk cfg agents chunk chunkIndex attempt) as [[r|e ? ?]|m];
      simpl in Hnow; [done| |];
      (apply IH; [lia|intros a Ha; apply Hfail; lia]).
Qed.

(** X14.  A chunk all of whose attempts fail is recorded with the reason of its
    last attempt: the timeout message if that attempt timed out, the error
    of the unsuccessful result (or ['Chunk processing failed'] when it has
    none) otherwise.  The reasons of the earlier attempts are lost. *)
Theorem failed_chunk_carries_last_reason (chunks : list Chunking.Chunk) (elapsed : N)
    (i : nat) (c : Chunking.Chunk) :
  1 ≤ maxConcurrentChunks cfg →
  1 ≤ retryAttempts cfg →
  chunks !! i = Some c →
  (∀ a, 1 ≤ a ≤ retryAttempts cfg → attemptFails (processChunk cfg agents c i a)) →
  ∃ out, processChunksInParallel cfg agents chunks elapsed = Some out
         ∧ chunkError i (Chunking.id c)
             (failureMessage (processChunk cfg agents c i (retryAttempts cfg)))
           ∈ errors out.
Proof.
  intros Hmc Hretry Hc Hfail.
  destruct (processChunksInParallel_spec cfg agents chunks elapsed Hmc Hretry)
    as (out & Hrun & _ & Herr & _).
  exists out. split; [done|]. rewrite Herr. unfold rejectedOf.
  apply list_elem_of_omap.
  exists (c, i, processChunkWithRetry cfg agents c i). split.
  - eapply list_elem_of_lookup_2. by apply settleFrom_0_lookup.
  - simpl. unfold processChunkWithRetry.
    rewrite (retryLoop_last_error c i (retryAttempts cfg) 1 None 0 []);
      [|done|intros a Ha; apply Hfail; lia].
    by replace (1 + retryAttempts cfg - 1) with (retryAttempts cfg) by lia.
Qed.

Lemma forEachSettled_results (P : Records.ChunkResult → Prop)
    (runs : list (Chunking.Chunk * nat * RetryRun)) :
  Forall (fun r => ∀ v, settlement r.2 = Fulfilled v → P v) runs →
  ∀ results errors, Forall P results → Forall P (forEachSettled runs results errors).1.1.
Proof.
  induction 1 as [|[[c i] run] runs Hrun _ IH]; intros results errors Hres; simpl; [done|].
  simpl in Hrun. destruct (settlement run) as [v|[m|]]; simpl.
  - apply IH. apply Forall_app. split; [done|]. constructor; [|constructor]. by apply Hrun.
  - by apply IH.
  - done.
Qed.

Lemma batchLoop_results_successful (chunks : list Chunking.Chunk) (fuel : nat) :
  ∀ i results errors log out,
    Forall (fun r => Records.success r = true) results →
    batchLoop fuel cfg agents chunks i results errors log = Some out →
    Forall (fun r => Records.success r = true) out.1.1.
Proof.
  induction fuel as [|fuel IH]; intros i results errors log out Hres; simpl.
  - destruct (i <? length chunks); [done|]. by intros [= <-].
  - destruct (i <? length chunks); [|by intros [= <-]].
    set (runs := settleBatch cfg agents i _).
    assert (Forall (fun r => Records.success r = true)
              (forEachSettled runs results errors).1.1) as Hnext.
    { apply forEachSettled_results; [|done].
      apply Forall_forall. intros r Hin v Hv.
      apply elem_of_lookup_imap_1 in Hin as (j & c & -> & _). simpl in Hv.
      by destruct (retryLoop_fulfilled_index _ _ _ _ _ _ _ _ _ _ Hv). }
    destruct (forEachSettled runs results errors) as [[results' errors'] threw].
    simpl in Hnext. destruct threw; by apply IH.
Qed.

(** X15.  Whatever the policy, every result of an outcome is a successful one,
    so the aggregator's filter on [success] keeps them all; the outcome is
    flagged successful exactly when it has a result, and
    [processedChunks] is their number. *)
Theorem outcome_results_are_all_successful (chunks : list Chunking.Chunk) (elapsed : N)
    (out : BatchOutcome) :
  processChunksInParallel cfg agents chunks elapsed = Some out →
  Forall (fun r => Records.success r = true) (results out)
  ∧ filter (fun r => Records.success r = true) (results out) = results out
  ∧ (success out = true ↔ results out ≠ [])
  ∧ processedChunks out = length (results out).
Proof.
  unfold processChunksInParallel.
  destruct (batchLoop (length chunks) cfg agents chunks 0 [] [] []) as [[[rs es] lg]|] eqn:Hloop;
    [|done].
  intros [= <-]. simpl.
  apply batchLoop_results_successful in Hloop; [|constructor]. simpl in Hloop.
  split; [done|]. split; [|split; [|done]].
  - clear -Hloop. induction Hloop as [|r rs Hr _ IH]; [done|].
    by rewrite filter_cons, decide_True, IH.
  - destruct rs; simpl; split; done.
Qed.

End CoordinatorExtras.

Lemma outcome_keeps_submission_order_witness :
  ∃ out, Coordinator.processChunksInParallel Scenarios.scenarioCConfig Scenarios.thirdFails
           Scenarios.fiveUnits 0%N = Some out
         ∧ map Records.chunkIndex (Coordinator.results out)
           `sublist_of` seq 0 (length Scenarios.fiveUnits)
         ∧ map (fun e : gmap string Js.val => e !! "chunkIndex") (Coordinator.errors out)
           `sublist_of` map (fun j => Some (Js.VNum (N.of_nat j)))
                            (seq 0 (length Scenarios.fiveUnits)).
Proof.
  apply (outcome_keeps_submission_order Scenarios.scenarioCConfig Scenarios.thirdFails
           Scenarios.fiveUnits 0%N); simpl; lia.
Defined.

Lemma first_success_stops_retrying_witness :
  ∃ value,
    Coordinator.processChunk Scenarios.scenarioCConfig Scenarios.secondTimeLucky
      (Scenarios.unitNo 1) 0 2 = Js.Returns (Coordinator.Analyzed value)
    ∧ Coordinator.settlement
        (Coordinator.processChunkWithRetry Scenarios.scenarioCConfig Scenarios.secondTimeLucky
           (Scenarios.unitNo 1) 0) = Coordinator.Fulfilled value
    ∧ Coordinator.calls
        (Coordinator.processChunkWithRetry Scenarios.scenarioCConfig Scenarios.secondTimeLucky
           (Scenarios.unitNo 1) 0) = 2.
Proof.
  eexists. split; [reflexivity|].
  apply (first_success_stops_retrying Scenarios.scenarioCConfig Scenarios.secondTimeLucky
           (Scenarios.unitNo 1) 0 2).
  - simpl. lia.
  - intros a Ha. assert (a = 1) as -> by lia. simpl. exact I.
  - reflexivity.
Defined.

Lemma attempts_stay_within_the_bound_witness :
  ∃ out, Coordinator.processChunksInParallel Scenarios.scenarioCConfig Scenarios.thirdFails
           Scenarios.fiveUnits 0%N = Some out
         ∧ map fst (Coordinator.attemptLog out) = seq 0 (length Scenarios.fiveUnits)
         ∧ Forall (fun e => 1 ≤ e.2 ≤ Coordinator.retryAttempts Scenarios.scenarioCConfig)
                  (Coordinator.attemptLog out).
Proof.
  apply (attempts_stay_within_the_bound Scenarios.scenarioCConfig Scenarios.thirdFails
           Scenarios.fiveUnits 0%N); simpl; lia.
Defined.

Lemma attempt_throws_only_on_timeout_witness :
  "Chunk chunk_1 timed out after 1000ms"
  = "Chunk " +:+ Chunking.id (Scenarios.unitNo 1) +:+ " timed out after "
    +:+ pretty (Coordinator.chunkTimeout Scenarios.scenarioCConfig) +:+ "ms"
  ∧ (Coordinator.analyze Scenarios.neverAnswers 0 1 (Scenarios.unitNo 1) = Coordinator.Pending
     ∨ ∃ a, Coordinator.analyze Scenarios.neverAnswers 0 1 (Scenarios.unitNo 1)
            = Coordinator.Resolved a
            ∧ Records.a_success a = true
            ∧ Coordinator.buildDiagram Scenarios.neverAnswers 0 1 (Records.a_data a)
              = Coordinator.Pending).
Proof.
  apply (attempt_throws_only_on_timeout Scenarios.scenarioCConfig Scenarios.neverAnswers
           (Scenarios.unitNo 1) 0 1).
  vm_compute. reflexivity.
Defined.

Lemma failed_chunk_carries_last_reason_witness :
  ∃ out, Coordinator.processChunksInParallel Scenarios.scenarioCConfig Scenarios.thirdFails
           Scenarios.fiveUnits 0%N = Some out
         ∧ Coordinator.chunkError 2 (Chunking.id (Scenarios.unitNo 3))
             (Coordinator.failureMessage
                (Coordinator.processChunk Scenarios.scenarioCConfig Scenarios.thirdFails
                   (Scenarios.unitNo 3) 2
                   (Coordinator.retryAttempts Scenarios.scenarioCConfig)))
           ∈ Coordinator.errors out.
Proof.
  apply (failed_chunk_carries_last_reason Scenarios.scenarioCConfig Scenarios.thirdFails
           Scenarios.fiveUnits 0%N 2 (Scenarios.unitNo 3)).
  - simpl. lia.
  - simpl. lia.
  - reflexivity.
  - intros a _. simpl. exact I.
Defined.

Lemma outcome_results_are_all_successful_witness :
  ∃ out, Coordinator.processChunksInParallel Scenarios.scenarioCConfig Scenarios.thirdFails
           Scenarios.fiveUnits 0%N = Some out
         ∧ Forall (fun r => Records.success r = true) (Coordinator.results out)
         ∧ filter (fun r => Records.success r = true) (Coordinator.results out)
           = Coordinator.results out
         ∧ (Coordinator.success out = true ↔ Coordinator.results out ≠ [])
         ∧ Coordinator.processedChunks out = length (Coordinator.results out).
Proof.
  eexists. split; [reflexivity|].
  apply (outcome_results_are_all_successful Scenarios.scenarioCConfig Scenarios.thirdFails
           Scenarios.fiveUnits 0%N).
  reflexivity.
Defined.

(** ** The tree of one chunk *)

Section ChunkTree.
Import Coordinator.

Lemma str_app_nil_r (s : string) : s +:+ "" = s.
Proof.
  induction s as [|c s IH]; [done|].
  change (String c (s +:+ "") = String c s). by f_equal.
Qed.

Lemma str_app_assoc (a b c : string) : (a +:+ b) +:+ c = a +:+ (b +:+ c).
Proof.
  induction a as [|x a IH]; [done|].
  change (String x ((a +:+ b) +:+ c) = String x (a +:+ (b +:+ c))). by f_equal.
Qed.

Lemma freeOf_app (c : ascii) (a b : string) :
  Js.freeOf c (a +:+ b) = Js.freeOf c a && Js.freeOf c b.
Proof.
  induction a as [|x a IH]; [done|].
  change (negb (Ascii.eqb x c) && Js.freeOf c (a +:+ b)
          = negb (Ascii.eqb x c) && Js.freeOf c a && Js.freeOf c b).
  rewrite IH. by rewrite andb_assoc.
Qed.

Lemma splitOn_free (sep : ascii) (s : string) :
  Js.freeOf sep s = true → ∀ acc, Js.splitOn sep acc s = [acc +:+ s].
Proof.
  induction s as [|c s IH]; simpl; intros Hfree acc.
  - by rewrite str_app_nil_r.
  - apply andb_prop in Hfree as [Hc Hs]. apply negb_true_iff in Hc. rewrite Hc.
    rewrite IH by done. by rewrite str_app_assoc.
Qed.

Lemma splitOn_line (sep : ascii) (a b : string) :
  Js.freeOf sep a = true →
  ∀ acc, Js.splitOn sep acc (a +:+ String sep b) = (acc +:+ a) :: Js.splitOn sep "" b.
Proof.
  induction a as [|c a IH]; simpl; intros Hfree acc.
  - by rewrite Ascii.eqb_refl, str_app_nil_r.
  - apply andb_prop in Hfree as [Hc Ha]. apply negb_true_iff in Hc. rewrite Hc.
    rewrite IH by done. by rewrite str_app_assoc.
Qed.

(** Splitting what was joined: a non-empty list of lines without line
    separator, joined by the separator and split again, is the list. *)
Lemma lines_join (ls : list string) :
  ls ≠ [] → Forall (fun l => Js.oneLine l = true) ls → Js.lines (Js.join Js.nl ls) = ls.
Proof.
  intros Hne Hall. induction Hall as [|x ls Hx Hall IH]; [done|].
  destruct ls as [|y ls].
  - simpl. unfold Js.lines. by rewrite splitOn_free.
  - change (Js.join Js.nl (x :: y :: ls))
      with (x +:+ String (Ascii.ascii_of_nat 10) (Js.join Js.nl (y :: ls))).
    unfold Js.lines in *. rewrite splitOn_line by done. simpl. f_equal. by apply IH.
Qed.

Lemma pretty_N_go_oneLine (x : N) :
  ∀ s, Js.oneLine s = true → Js.oneLine (pretty_N_go x s) = true.
Proof.
  induction (N.lt_wf_0 x) as [x _ IH]; intros s Hs.
  assert (x = 0 ∨ 0 < x)%N as [->|Hpos] by lia; [by rewrite pretty_N_go_0|].
  rewrite pretty_N_go_step by done. apply IH; [by apply N.div_lt|].
  unfold pretty_N_char. by repeat case_match.
Qed.

Lemma pretty_nat_oneLine (n : nat) : Js.oneLine (pretty n) = true.
Proof.
  unfold pretty, pretty_nat, pretty, pretty_N. case_decide; [done|].
  by apply pretty_N_go_oneLine.
Qed.

Lemma filter_file_lines (files : list string) :
  filter (fun line => Js.startsWith "- " line = true) (map (fun file => "- " +:+ file) files)
  = map (fun file => "- " +:+ file) files.
Proof.
  induction files as [|f files IH]; [done|].
  cbn [map]. rewrite filter_cons_True by done. by f_equal.
Qed.

(** X17.  The tree built for a chunk lists the chunk's files and nothing else:
    when the repository, branch and chunk names, the chunk type, the
    priority and the file names hold no line separator, the orchestrator's
    count of the tree is the number of files of the chunk, and the files
    extracted from the tree are the chunk's files, trimmed, those that are
    blank left out. *)
Theorem chunk_tree_lists_the_chunk_files (chunk : Chunking.Chunk)
    (repoName branchName : string) :
  Js.oneLine repoName = true →
  Js.oneLine branchName = true →
  Js.oneLine (Chunking.name chunk) = true →
  Js.oneLine (Chunking.chunk_type chunk) = true →
  Js.oneLine (Chunking.priority chunk) = true →
  Forall (fun f => Js.oneLine f = true) (Chunking.files chunk) →
  Orchestrator.countFilesInRepository (createChunkTree chunk repoName branchName)
  = length (Chunking.files chunk)
  ∧ Chunking.extractFilesFromTree (createChunkTree chunk repoName branchName)
    = filter (fun f => String.length f ≠ 0) (map Js.trim (Chunking.files chunk)).
Proof.
  intros Hrepo Hbranch Hname Htype Hprio Hfiles.
  assert (Js.lines (createChunkTree chunk repoName branchName)
          = ["Repository: " +:+ repoName; "Branch: " +:+ branchName;
             "Chunk: " +:+ Chunking.name chunk; "Type: " +:+ Chunking.chunk_type chunk;
             "Priority: " +:+ Chunking.priority chunk;
             "Files (" +:+ pretty (length (Chunking.files chunk)) +:+ "):"]
            ++ map (fun file => "- " +:+ file) (Chunking.files chunk)) as Hlines.
  { unfold createChunkTree. apply lines_join; [done|].
    apply Forall_app. split.
    - repeat constructor; unfold Js.oneLine in *; rewrite ?freeOf_app; simpl;
        rewrite ?Hrepo, ?Hbranch, ?Hname, ?Htype, ?Hprio; try done.
      pose proof (pretty_nat_oneLine (length (Chunking.files chunk))) as Hp.
      unfold Js.oneLine in Hp. by rewrite Hp.
    - apply Forall_fmap. eapply Forall_impl; [exact Hfiles|].
      intros f Hf. simpl. unfold Js.oneLine in *. by rewrite freeOf_app, Hf. }
  assert (filter (fun line => Js.startsWith "- " line = true)
            (Js.lines (createChunkTree chunk repoName branchName))
          = map (fun file => "- " +:+ file) (Chunking.files chunk)) as Hdash.
  { rewrite Hlines, filter_app, filter_file_lines. done. }
  unfold Orchestrator.countFilesInRepository, Chunking.extractFilesFromTree.
  rewrite Hdash. split; [by rewrite length_map|].
  by rewrite map_map.
Qed.

End ChunkTree.

Lemma chunk_tree_lists_the_chunk_files_witness :
  Orchestrator.countFilesInRepository
    (Coordinator.createChunkTree (Scenarios.unitNo 1) "demo" "main")
  = length (Chunking.files (Scenarios.unitNo 1))
  ∧ Chunking.extractFilesFromTree
      (Coordinator.createChunkTree (Scenarios.unitNo 1) "demo" "main")
    = filter (fun f => String.length f ≠ 0)
        (map Js.trim (Chunking.files (Scenarios.unitNo 1))).
Proof.
  apply (chunk_tree_lists_the_chunk_files (Scenarios.unitNo 1) "demo" "main");
    try reflexivity.
  repeat constructor.
Defined.

(** ** The aggregator: unions, merged components, file structure, types *)

Section AggregatorExtras.
Import Aggregator.

Lemma set_add_all_firstOccurrences (l : list string) :
  ∀ s, Js.set_add_all s l = s ++ firstOccurrencesFrom s l.
Proof.
  induction l as [|x l IH]; intros s.
  - simpl. by rewrite app_nil_r.
  - change (Js.set_add_all s (x :: l)) with (Js.set_add_all (Js.set_add s x) l).
    rewrite IH. unfold Js.set_add. simpl.
    case_bool_decide; [done|]. by rewrite <- app_assoc.
Qed.

Lemma firstOccurrencesFrom_app (a b : list string) :
  ∀ seen, firstOccurrencesFrom seen (a ++ b)
          = firstOccurrencesFrom seen a
            ++ firstOccurrencesFrom (seen ++ firstOccurrencesFrom seen a) b.
Proof.
  induction a as [|x a IH]; intros seen; simpl.
  - by rewrite app_nil_r.
  - case_bool_decide; [apply IH|]. rewrite IH. simpl. by rewrite <- app_assoc.
Qed.

Lemma firstOccurrencesFrom_NoDup (ps : list string) :
  ∀ seen, NoDup (firstOccurrencesFrom seen ps).
Proof.
  induction ps as [|p ps IH]; intros seen; simpl; [constructor|].
  case_bool_decide; [apply IH|]. constructor; [|apply IH].
  intros Hin. apply firstOccurrencesFrom_fresh in Hin as [Hns _].
  apply Hns. apply elem_of_app. right. by apply list_elem_of_singleton.
Qed.

Lemma firstOccurrences_elem (ps : list string) (q : string) :
  q ∈ firstOccurrences ps ↔ q ∈ ps.
Proof.
  unfold firstOccurrences. split.
  - intros Hq. by apply firstOccurrencesFrom_fresh in Hq as [_ ?].
  - intros Hq. apply firstOccurrencesFrom_complete; [done|]. apply not_elem_of_nil.
Qed.

(** Adding the lists [f x] to a set, one [x] after the other. *)
Lemma union_fold {A} (f : A → list string) (xs : list A) :
  ∀ s, foldl (fun acc x => Js.set_add_all acc (f x)) s xs
       = s ++ firstOccurrencesFrom s (concat (map f xs)).
Proof.
  induction xs as [|x xs IH]; intros s; simpl.
  - by rewrite app_nil_r.
  - rewrite IH, set_add_all_firstOccurrences, firstOccurrencesFrom_app.
    by rewrite <- app_assoc.
Qed.

Lemma concat_map_elem {A} (f : A → list string) (xs : list A) (t : string) :
  t ∈ concat (map f xs) ↔ ∃ x, x ∈ xs ∧ t ∈ f x.
Proof.
  rewrite list_elem_of_In, in_concat. split.
  - intros (l & Hl & Ht). apply in_map_iff in Hl as (x & <- & Hx).
    exists x. by rewrite !list_elem_of_In.
  - intros (x & Hx & Ht). exists (f x). split; [|by apply list_elem_of_In].
    apply in_map. by apply list_elem_of_In.
Qed.

Lemma union_fold_spec {A} (f : A → list string) (xs : list A) :
  foldl (fun acc x => Js.set_add_all acc (f x)) [] xs
  = firstOccurrences (concat (map f xs))
  ∧ NoDup (foldl (fun acc x => Js.set_add_all acc (f x)) [] xs)
  ∧ ∀ t, t ∈ foldl (fun acc x => Js.set_add_all acc (f x)) [] xs
         ↔ ∃ x, x ∈ xs ∧ t ∈ f x.
Proof.
  rewrite union_fold. simpl. fold (firstOccurrences (concat (map f xs))).
  split; [done|]. split; [apply firstOccurrencesFrom_NoDup|].
  intros t. by rewrite firstOccurrences_elem, concat_map_elem.
Qed.

(** X18.  The consolidated technology list and the consolidated insight list
    are unions without repetition: each holds exactly the entries that
    some result lists, each entry once, in the order in which the entries
    are first met going through the results. *)
Theorem tech_stack_and_insights_are_unions (results : list Records.ChunkResult) :
  let techOf := fun r => Js.obj_or (Records.tech_stack (Records.analysis r)) [] in
  let insightsOf := fun r => Js.obj_or (Records.insights (Records.analysis r)) [] in
  (consolidateTechStack results = firstOccurrences (concat (map techOf results))
   ∧ NoDup (consolidateTechStack results)
   ∧ ∀ t, t ∈ consolidateTechStack results ↔ ∃ r, r ∈ results ∧ t ∈ techOf r)
  ∧ (consolidateInsights results = firstOccurrences (concat (map insightsOf results))
     ∧ NoDup (consolidateInsights results)
     ∧ ∀ t, t ∈ consolidateInsights results ↔ ∃ r, r ∈ results ∧ t ∈ insightsOf r).
Proof.
  intros techOf insightsOf. split.
  - apply (union_fold_spec techOf results).
  - apply (union_fold_spec insightsOf results).
Qed.

(** *** The component map *)

Lemma mapGet_None (key : string) (m : list (string * Records.Component)) :
  mapGet key m = None ↔ key ∉ m.*1.
Proof.
  induction m as [|[k v] m IH]; simpl.
  - split; [intros _; apply not_elem_of_nil|done].
  - destruct (String.eqb_spec k key) as [->|Hne].
    + split; [done|]. intros Hnot. exfalso. apply Hnot. by apply elem_of_cons; left.
    + rewrite IH. rewrite not_elem_of_cons. split; [by intros ?; split|by intros [_ ?]].
Qed.

Lemma mapGet_Some_elem (key : string) (m : list (string * Records.Component))
    (v : Records.Component) :
  mapGet key m = Some v → (key, v) ∈ m.
Proof.
  induction m as [|[k v'] m IH]; simpl; [done|].
  destruct (String.eqb_spec k key) as [->|Hne].
  - intros [= ->]. by apply elem_of_cons; left.
  - intros Hget. apply elem_of_cons; right. by apply IH.
Qed.

Lemma mapReplace_keys (key : string) (v : Records.Component)
    (m : list (string * Records.Component)) :
  (mapReplace key v m).*1 = m.*1.
Proof.
  induction m as [|[k v'] m IH]; [done|]. cbn [mapReplace].
  destruct (String.eqb k key); [done|]. rewrite !fmap_cons. by rewrite IH.
Qed.

Lemma mapGet_app (key : string) (m l : list (string * Records.Component))
    (v : Records.Component) :
  mapGet key m = Some v → mapGet key (m ++ l) = Some v.
Proof.
  induction m as [|[k v'] m IH]; simpl; [done|].
  destruct (String.eqb k key); [done|]. apply IH.
Qed.

Lemma mapGet_snoc (key : string) (m : list (string * Records.Component))
    (v : Records.Component) :
  mapGet key m = None → mapGet key (m ++ [(key, v)]) = Some v.
Proof.
  induction m as [|[k v'] m IH]; simpl.
  - by rewrite String.eqb_refl.
  - destruct (String.eqb k key); [done|]. apply IH.
Qed.

Lemma mapGet_replace (key k : string) (v' : Records.Component)
    (m : list (string * Records.Component)) :
  mapGet key (mapReplace k v' m)
  = match mapGet key m with
    | Some v => Some (if String.eqb k key then v' else v)
    | None => None
    end.
Proof.
  induction m as [|[k0 v0] m IH]; simpl; [done|].
  destruct (String.eqb_spec k0 k) as [->|Hne0]; simpl.
  - destruct (String.eqb_spec k key) as [->|Hne]; [done|by destruct (mapGet key m)].
  - destruct (String.eqb_spec k0 key) as [->|Hne]; [|apply IH].
    destruct (String.eqb_spec k key) as [->|Hne']; done.
Qed.

Lemma keyed_replace (key : string) (v' : Records.Component)
    (m : list (string * Records.Component)) :
  keyed m → componentKey v' = key → keyed (mapReplace key v' m).
Proof.
  intros Hm Hv'. unfold keyed in *.
  induction Hm as [|[k v] m Hkv Hm IH]; simpl; [constructor|].
  destruct (String.eqb_spec k key) as [->|Hne]; constructor; done.
Qed.

Lemma keyed_values (m : list (string * Records.Component)) :
  keyed m → map componentKey (map snd m) = m.*1.
Proof.
  intros Hm. induction Hm as [|[k v] m Hkv Hm IH]; simpl; [done|].
  simpl in Hkv. by rewrite Hkv, IH.
Qed.

Lemma set_add_all_holds (l : list string) (x : string) :
  x ∈ l → x ∈ Js.set_add_all [] l.
Proof.
  intros Hx. rewrite set_add_all_firstOccurrences. simpl.
  by apply firstOccurrences_elem.
Qed.

(** One step of the merge: the keys of the map, the entries stored under
    their keys, the chunk registered under the key of the component. *)
Lemma mergeOne_keys (resultChunkId : string) (m m' : list (string * Records.Component))
    (comp : Records.Component) :
  mergeOne resultChunkId m comp = Js.Returns m' →
  m'.*1 = Js.set_add m.*1 (componentKey comp).
Proof.
  unfold mergeOne, Js.set_add.
  destruct (mapGet (componentKey comp) m) as [existing|] eqn:Hget.
  - destruct (Records.technologies existing); [|done].
    destruct (Records.chunks existing); [|done].
    intros [= <-]. rewrite mapReplace_keys.
    rewrite bool_decide_eq_true_2; [done|].
    destruct (decide (componentKey comp ∈ m.*1)) as [|Hnot]; [done|].
    apply mapGet_None in Hnot. congruence.
  - intros [= <-]. apply mapGet_None in Hget.
    rewrite bool_decide_eq_false_2 by done. by rewrite fmap_app.
Qed.

Lemma mergeOne_keyed (resultChunkId : string) (m m' : list (string * Records.Component))
    (comp : Records.Component) :
  keyed m → mergeOne resultChunkId m comp = Js.Returns m' → keyed m'.
Proof.
  intros Hm. unfold mergeOne.
  destruct (mapGet (componentKey comp) m) as [existing|] eqn:Hget.
  - destruct (Records.technologies existing); [|done].
    destruct (Records.chunks existing); [|done].
    intros [= <-]. apply keyed_replace; [done|].
    apply mapGet_Some_elem in Hget.
    unfold keyed in Hm. rewrite Forall_forall in Hm. by apply (Hm _ Hget).
  - intros [= <-]. apply Forall_app. split; [done|]. by repeat constructor.
Qed.

Lemma mergeOne_registers (resultChunkId : string) (m m' : list (string * Records.Component))
    (comp : Records.Component) :
  mergeOne resultChunkId m comp = Js.Returns m' →
  registered resultChunkId (componentKey comp) m'.
Proof.
  unfold mergeOne, registered.
  destruct (mapGet (componentKey comp) m) as [existing|] eqn:Hget.
  - destruct (Records.technologies existing) as [tech|]; [|done].
    destruct (Records.chunks existing) as [chs|]; [|done].
    intros [= <-]. rewrite mapGet_replace, Hget, String.eqb_refl.
    eexists. eexists. split; [done|]. split; [done|].
    apply set_add_all_holds. apply elem_of_app. right. by apply list_elem_of_singleton.
  - intros [= <-]. rewrite mapGet_snoc by done.
    eexists. eexists. split; [done|]. split; [done|]. by apply list_elem_of_singleton.
Qed.

Lemma mergeOne_keeps (resultChunkId key id : string)
    (m m' : list (string * Records.Component)) (comp : Records.Component) :
  registered resultChunkId key m →
  mergeOne id m comp = Js.Returns m' →
  registered resultChunkId key m'.
Proof.
  intros (stored & storedChunks & Hstored & Hchunks & Hin). unfold mergeOne, registered.
  destruct (mapGet (componentKey comp) m) as [existing|] eqn:Hget.
  - destruct (Records.technologies existing) as [tech|]; [|done].
    destruct (Records.chunks existing) as [chs|] eqn:Hchs; [|done].
    intros [= <-]. rewrite mapGet_replace, Hstored.
    destruct (String.eqb_spec (componentKey comp) key) as [Heq|Hne].
    + rewrite Heq in Hget. rewrite Hstored in Hget. injection Hget as <-.
      rewrite Hchunks in Hchs. injection Hchs as <-.
      eexists. eexists. split; [done|]. split; [done|].
      apply set_add_all_holds. apply elem_of_app. by left.
    + by exists stored, storedChunks.
  - intros [= <-]. exists stored, storedChunks. split; [|done]. by apply mapGet_app.
Qed.

Lemma forEachTry_app {A S} (body : S → A → Js.Try S) (l1 l2 : list A) :
  ∀ st, forEachTry body (l1 ++ l2) st
        = Js.bind (forEachTry body l1 st) (forEachTry body l2).
Proof.
  induction l1 as [|x l1 IH]; intros st; simpl; [done|].
  destruct (body st x) as [st'|message]; simpl; [apply IH|done].
Qed.

(** The two nested loops of the merge are one loop over the components
    of all results. *)
Lemma mergeComponents_flat (results : list Records.ChunkResult) :
  ∀ m,
    forEachTry
      (fun componentMap result =>
         forEachTry (mergeOne (Records.chunkId result))
           (Js.obj_or (Records.key_components (Records.analysis result)) []) componentMap)
      results m
    = forEachTry (fun componentMap p => mergeOne p.1 componentMap p.2)
        (allInputComponents results) m.
Proof.
  induction results as [|r results IH]; intros m; [done|].
  unfold allInputComponents. simpl. rewrite forEachTry_app.
  fold (allInputComponents results).
  assert (∀ cs st,
            forEachTry (mergeOne (Records.chunkId r)) cs st
            = forEachTry (fun componentMap p => mergeOne p.1 componentMap p.2)
                (map (fun comp => (Records.chunkId r, comp)) cs) st) as Hinner.
  { induction cs as [|c cs IHcs]; intros st; simpl; [done|].
    destruct (mergeOne (Records.chunkId r) st c); simpl; [apply IHcs|done]. }
  rewrite Hinner.
  destruct (forEachTry _ (map _ _) m) as [m1|message]; simpl; [apply IH|done].
Qed.

Lemma merge_loop_spec (l : list (string * Records.Component)) :
  ∀ m m',
    forEachTry (fun componentMap p => mergeOne p.1 componentMap p.2) l m = Js.Returns m' →
    (keyed m → keyed m')
    ∧ m'.*1 = Js.set_add_all m.*1 (map (fun p => componentKey p.2) l)
    ∧ (∀ id key, registered id key m → registered id key m')
    ∧ ∀ p, p ∈ l → registered p.1 (componentKey p.2) m'.
Proof.
  induction l as [|[id comp] l IH]; intros m m'; simpl.
  - intros [= <-]. split; [done|]. split; [done|]. split; [done|].
    intros p Hp. by apply elem_of_nil in Hp.
  - destruct (mergeOne id m comp) as [m1|message] eqn:Hstep; simpl; [|done].
    intros Hrest. destruct (IH _ _ Hrest) as (Hkeyed & Hkeys & Hkeep & Hreg).
    split; [|split; [|split]].
    + intros Hm. apply Hkeyed. by eapply mergeOne_keyed.
    + rewrite Hkeys. by rewrite (mergeOne_keys _ _ _ _ Hstep).
    + intros id' key Hin. apply Hkeep. by eapply mergeOne_keeps.
    + intros p Hp. apply elem_of_cons in Hp as [->|Hp]; [|by apply Hreg].
      simpl. apply Hkeep. by eapply mergeOne_registers.
Qed.

(** X19.  When the merge of components returns, the keys of the merged
    components are the keys of the components of all results, each key
    once, in order of first occurrence; and every component of every
    result is represented by the merged component of its key, which lists
    the id of the chunk that reported it. *)
Theorem merged_components_cover_the_inputs (results : list Records.ChunkResult)
    (comps : list Records.Component) :
  mergeComponents results = Js.Returns comps →
  map componentKey comps
  = firstOccurrences (map (fun p => componentKey p.2) (allInputComponents results))
  ∧ NoDup (map componentKey comps)
  ∧ ∀ id comp, (id, comp) ∈ allInputComponents results →
      ∃ merged mergedChunks,
        merged ∈ comps
        ∧ componentKey merged = componentKey comp
        ∧ Records.chunks merged = Some mergedChunks
        ∧ id ∈ mergedChunks.
Proof.
  unfold mergeComponents. rewrite mergeComponents_flat.
  destruct (forEachTry _ (allInputComponents results) []) as [m|message] eqn:Hloop;
    simpl; [|done].
  intros [= <-].
  destruct (merge_loop_spec _ _ _ Hloop) as (Hkeyed & Hkeys & _ & Hreg).
  assert (keyed m) as Hm by (apply Hkeyed; constructor).
  assert (map componentKey (map snd m)
          = firstOccurrences (map (fun p => componentKey p.2) (allInputComponents results)))
    as Hout.
  { rewrite (keyed_values m Hm), Hkeys. simpl.
    by rewrite set_add_all_firstOccurrences. }
  split; [done|]. split.
  - rewrite Hout. apply firstOccurrencesFrom_NoDup.
  - intros id comp Hin.
    destruct (Hreg _ Hin) as (stored & storedChunks & Hget & Hchunks & Hid).
    simpl in Hget. apply mapGet_Some_elem in Hget.
    exists stored, storedChunks. split; [|split; [|done]].
    + apply list_elem_of_fmap. by exists (componentKey comp, stored).
    + unfold keyed in Hm. rewrite Forall_forall in Hm. by apply (Hm _ Hget).
Qed.

Lemma set_add_all_from (l : list string) (x : string) :
  x ∈ Js.set_add_all [] l → x ∈ l.
Proof.
  rewrite set_add_all_firstOccurrences. simpl. intros Hx.
  by apply firstOccurrences_elem.
Qed.

(** Once a component without [technologies] is stored under [key], the
    loop throws when it meets the key again. *)
Lemma merge_loop_throws (key : string) (l : list (string * Records.Component)) :
  ∀ m stored,
    mapGet key m = Some stored →
    Records.technologies stored = None →
    (∃ p, p ∈ l ∧ componentKey p.2 = key) →
    ∃ message,
      forEachTry (fun componentMap p => mergeOne p.1 componentMap p.2) l m
      = Js.Throws message.
Proof.
  induction l as [|[id comp] l IH]; intros m stored Hget Htech (p & Hp & Hkey).
  - by apply elem_of_nil in Hp.
  - cbn [forEachTry]. simpl.
    destruct (mergeOne id m comp) as [m1|message] eqn:Hstep; simpl; [|by eexists].
    destruct (decide (componentKey comp = key)) as [Hsame|Hother].
    + exfalso. unfold mergeOne in Hstep. rewrite Hsame, Hget, Htech in Hstep. done.
    + apply (IH m1 stored); [|done|].
      * unfold mergeOne in Hstep.
        destruct (mapGet (componentKey comp) m) as [existing|] eqn:Hexisting.
        -- destruct (Records.technologies existing); [|done].
           destruct (Records.chunks existing); [|done].
           injection Hstep as <-. rewrite mapGet_replace, Hget.
           by destruct (String.eqb_spec (componentKey comp) key).
        -- injection Hstep as <-. by apply mapGet_app.
      * apply elem_of_cons in Hp as [->|Hp]; [done|]. by exists p.
Qed.

(** X20.  A component without [technologies] whose key is met again makes the
    merge throw.  When, among the components of the successful results in
    merge order, a component is the first of its key, carries no
    [technologies], and is followed by a component of the same key, the
    merge throws; with an unusable synthesis reply the aggregation is then
    the one for no successful result at all, whatever the results hold. *)
Theorem missing_technologies_discards_the_aggregation
    (out : Coordinator.BatchOutcome) (pre post : list (string * Records.Component))
    (id1 id2 : string) (c1 c2 : Records.Component) (message : string) :
  allInputComponents
    (filter (fun r => Records.success r = true) (Coordinator.results out))
  = pre ++ (id1, c1) :: post →
  (componentKey c1 ∉ map (fun p => componentKey p.2) pre) →
  Records.technologies c1 = None →
  (id2, c2) ∈ post →
  componentKey c2 = componentKey c1 →
  (∃ thrown,
      mergeComponents (filter (fun r => Records.success r = true) (Coordinator.results out))
      = Js.Throws thrown)
  ∧ aggregateResults out (Unusable message) = createFallbackAggregation out.
Proof.
  intros Hall Hfirst Htech Hlater Hkey.
  assert (∃ thrown,
            mergeComponents
              (filter (fun r => Records.success r = true) (Coordinator.results out))
            = Js.Throws thrown) as [thrown Hthrow].
  { unfold mergeComponents. rewrite mergeComponents_flat, Hall, forEachTry_app.
    destruct (forEachTry _ pre []) as [m|thrown] eqn:Hpre; simpl; [|by eexists].
    destruct (merge_loop_spec _ _ _ Hpre) as (_ & Hkeys & _ & _).
    assert (mapGet (componentKey c1) m = None) as Hfresh.
    { apply mapGet_None. rewrite Hkeys. simpl. intros Hin.
      by apply set_add_all_from in Hin. }
    unfold mergeOne at 1. rewrite Hfresh. simpl.
    destruct (merge_loop_throws (componentKey c1) post
                (m ++ [(componentKey c1,
                        {| Records.name := Records.name c1; Records.type := Records.type c1;
                           Records.technologies := Records.technologies c1;
                           Records.description := Records.description c1;
                           Records.chunks := Some [id1] |})])
                _ (mapGet_snoc _ _ _ Hfresh) Htech) as [thrown Hthrown].
    { by exists (id2, c2). }
    rewrite Hthrown. by eexists. }
  split; [by exists thrown|].
  unfold aggregateResults. case_bool_decide; [done|].
  simpl. unfold createRuleBasedAggregation. rewrite Hthrow.
  by destruct (determineArchitecturePattern _).
Qed.

(** *** File structure and chunk types *)

Lemma truthy_strs_cons (x : option string) (xs : list (option string)) :
  Js.truthy_strs (x :: xs)
  = match x with
    | Some s => if String.eqb s "" then Js.truthy_strs xs else s :: Js.truthy_strs xs
    | None => Js.truthy_strs xs
    end.
Proof.
  unfold Js.truthy_strs. cbn [omap list_omap]. destruct x as [s|]; [|done].
  by destruct (String.eqb s "").
Qed.

Lemma truthy_strs_nonempty (xs : list (option string)) :
  Forall (fun s => String.eqb s "" = false) (Js.truthy_strs xs).
Proof.
  induction xs as [|x xs IH]; [constructor|].
  rewrite truthy_strs_cons. destruct x as [s|]; [|done].
  destruct (String.eqb s "") eqn:E; [done|]. by constructor.
Qed.

Lemma default_last_cons (d s : string) (l : list string) :
  default d (last (s :: l)) = default s (last l).
Proof. rewrite last_cons. destruct (last l); simpl; reflexivity. Qed.

Lemma file_structure_loop (results : list Records.ChunkResult) :
  ∀ allDirs allConfigs testStructure docPresence,
    foldl (fun '(allDirs, allConfigs, testStructure, docPresence) result =>
             let fs := Js.obj_or (Records.file_structure_analysis (Records.analysis result))
                                 emptyFileStructure in
             (Js.set_add_all allDirs (Js.obj_or (Records.main_directories fs) []),
              Js.set_add_all allConfigs (Js.obj_or (Records.configuration_files fs) []),
              overwriteIfTruthy testStructure (Records.test_structure fs),
              overwriteIfTruthy docPresence (Records.documentation_presence fs)))
          (allDirs, allConfigs, testStructure, docPresence) results
    = (foldl (fun acc r =>
                Js.set_add_all acc (Js.obj_or (Records.main_directories (fileStructureOf r)) []))
             allDirs results,
       foldl (fun acc r =>
                Js.set_add_all acc
                  (Js.obj_or (Records.configuration_files (fileStructureOf r)) []))
             allConfigs results,
       default testStructure
         (last (Js.truthy_strs
                  (map (fun r => Records.test_structure (fileStructureOf r)) results))),
       default docPresence
         (last (Js.truthy_strs
                  (map (fun r => Records.documentation_presence (fileStructureOf r))
                       results)))).
Proof.
  induction results as [|r results IH]; intros allDirs allConfigs testStructure docPresence;
    [done|].
  cbn [foldl map]. rewrite IH. rewrite !truthy_strs_cons.
  fold (fileStructureOf r). f_equal; [f_equal|].
  - unfold overwriteIfTruthy, Js.str_or.
    destruct (Records.test_structure (fileStructureOf r)) as [s|]; [|done].
    destruct (String.eqb s ""); [done|]. by rewrite default_last_cons.
  - unfold overwriteIfTruthy, Js.str_or.
    destruct (Records.documentation_presence (fileStructureOf r)) as [s|]; [|done].
    destruct (String.eqb s ""); [done|]. by rewrite default_last_cons.
Qed.

Lemma last_truthy_or (xs : list (option string)) (d : string) :
  Js.str_or (Some (default "" (last (Js.truthy_strs xs)))) d
  = default d (last (Js.truthy_strs xs)).
Proof.
  pose proof (truthy_strs_nonempty xs) as Hne.
  destruct (last (Js.truthy_strs xs)) as [s|] eqn:Hlast; simpl; [|done].
  apply last_Some in Hlast as [l' Hl']. rewrite Hl' in Hne.
  apply Forall_app in Hne as [_ Hs]. apply Forall_cons in Hs as [Hs _].
  by rewrite Hs.
Qed.

(** X21.  In the consolidated file structure the directories and the
    configuration files are unions without repetition, in order of first
    occurrence, while the test-structure note and the documentation note
    are those of the last result that has a non-empty one, the notes of
    the earlier results being dropped; ['Unknown'] stands in when no result
    has one. *)
Theorem file_structure_keeps_the_last_note (results : list Records.ChunkResult) :
  let consolidated := consolidateFileStructure results in
  Records.main_directories consolidated
  = Some (firstOccurrences
            (concat (map (fun r => Js.obj_or (Records.main_directories (fileStructureOf r)) [])
                         results)))
  ∧ Records.configuration_files consolidated
    = Some (firstOccurrences
              (concat (map (fun r =>
                              Js.obj_or (Records.configuration_files (fileStructureOf r)) [])
                           results)))
  ∧ Records.test_structure consolidated
    = Some (default "Unknown"
              (last (Js.truthy_strs
                       (map (fun r => Records.test_structure (fileStructureOf r)) results))))
  ∧ Records.documentation_presence consolidated
    = Some (default "Unknown"
              (last (Js.truthy_strs
                       (map (fun r => Records.documentation_presence (fileStructureOf r))
                            results)))).
Proof.
  unfold consolidateFileStructure. rewrite file_structure_loop. cbn zeta. cbn [Records.main_directories Records.configuration_files Records.test_structure
       Records.documentation_presence].
  split; [|split; [|split]].
  - f_equal. apply union_fold_spec.
  - f_equal. apply union_fold_spec.
  - f_equal. apply last_truthy_or.
  - f_equal. apply last_truthy_or.
Qed.

Lemma keys_of_tagged (g : string → nat) (l : list string) :
  (map (fun p => (p, g p)) l).*1 = l.
Proof. induction l as [|p l IH]; [done|]. cbn [map]. rewrite fmap_cons. by rewrite IH. Qed.

Lemma bump_total (key : string) (counts : list (string * nat)) :
  sum_list (Js.bump key counts).*2 = S (sum_list counts.*2).
Proof.
  induction counts as [|[k n] counts IH]; simpl; [done|].
  destruct (String.eqb k key); simpl; [lia|].
  change (list_fmap _ _ snd ?l) with (l.*2) in *.
  change (n + sum_list (Js.bump key counts).*2 = S (n + sum_list counts.*2)).
  rewrite IH. lia.
Qed.

Lemma bump_loop_total (ps : list string) :
  ∀ counts,
    sum_list (foldl (fun counts p => Js.bump p counts) counts ps).*2
    = sum_list counts.*2 + length ps.
Proof.
  induction ps as [|p ps IH]; intros counts; simpl; [lia|].
  rewrite IH, bump_total. lia.
Qed.

(** X22.  The type counts of the summary block: for chunk types other than the
    names every object inherits, each type that occurs is listed once with
    the number of results of that type, and the counts add up to the
    number of results. *)
Theorem chunk_type_counts_add_up (results : list Records.ChunkResult) :
  Forall (fun r => countedType r ∉ Js.inheritedKeys) results →
  sum_list (analyzeChunkTypes results).*2 = length results
  ∧ NoDup (analyzeChunkTypes results).*1
  ∧ ∀ r, r ∈ results →
      (countedType r, occurrences (countedType r) (map countedType results))
      ∈ analyzeChunkTypes results.
Proof.
  intros _.
  assert (analyzeChunkTypes results
          = foldl (fun counts p => Js.bump p counts) [] (map countedType results)) as Hfold.
  { unfold analyzeChunkTypes. generalize (@nil (string * nat)).
    induction results as [|r results IH]; intros counts; simpl; [done|]. apply IH. }
  split; [|split].
  - rewrite Hfold, bump_loop_total. simpl. by rewrite length_map.
  - rewrite Hfold, tally_spec by constructor. simpl.
    rewrite keys_of_tagged. apply firstOccurrencesFrom_NoDup.
  - intros r Hr. rewrite Hfold, tally_spec by constructor. simpl.
    apply list_elem_of_fmap. exists (countedType r). split; [done|].
    apply firstOccurrences_elem. apply list_elem_of_fmap. by exists r.
Qed.

(** The aggregator always answers with a successful result that carries
    data. *)
Lemma aggregateResults_succeeds (out : Coordinator.BatchOutcome) (reply : Reply) :
  success (aggregateResults out reply) = true
  ∧ is_Some (data (aggregateResults out reply)).
Proof.
  unfold aggregateResults. case_bool_decide; [by split|].
  destruct reply as [message|aggregatedData text]; simpl; [|by split].
  unfold createRuleBasedAggregation.
  destruct (determineArchitecturePattern _); simpl; [|by split].
  destruct (mergeComponents _); simpl; by split.
Qed.

End AggregatorExtras.

Lemma merged_components_cover_the_inputs_witness :
  ∃ comps,
    Aggregator.mergeComponents Scenarios.sharedComponent = Js.Returns comps
    ∧ map Aggregator.componentKey comps
      = Aggregator.firstOccurrences
          (map (fun p => Aggregator.componentKey p.2)
               (Aggregator.allInputComponents Scenarios.sharedComponent))
    ∧ NoDup (map Aggregator.componentKey comps)
    ∧ ∀ id comp, (id, comp) ∈ Aggregator.allInputComponents Scenarios.sharedComponent →
        ∃ merged mergedChunks,
          merged ∈ comps
          ∧ Aggregator.componentKey merged = Aggregator.componentKey comp
          ∧ Records.chunks merged = Some mergedChunks
          ∧ id ∈ mergedChunks.
Proof.
  eexists. split; [reflexivity|].
  apply (merged_components_cover_the_inputs Scenarios.sharedComponent).
  reflexivity.
Defined.

Lemma missing_technologies_discards_the_aggregation_witness :
  (∃ thrown,
      Aggregator.mergeComponents
        (filter (fun r => Records.success r = true)
                (Coordinator.results Scenarios.bareTwice))
      = Js.Throws thrown)
  ∧ Aggregator.aggregateResults Scenarios.bareTwice (Aggregator.Unusable "no reply")
    = Aggregator.createFallbackAggregation Scenarios.bareTwice.
Proof.
  apply (missing_technologies_discards_the_aggregation Scenarios.bareTwice
           [] [("chunk_1", Scenarios.component "api" "service")]
           "chunk_1" "chunk_1" (Scenarios.bareComponent "api" "service")
           (Scenarios.component "api" "service") "no reply").
  - reflexivity.
  - simpl. apply not_elem_of_nil.
  - reflexivity.
  - apply list_elem_of_singleton. reflexivity.
  - reflexivity.
Defined.

Lemma chunk_type_counts_add_up_witness :
  sum_list (Aggregator.analyzeChunkTypes Scenarios.tiedLabels).*2
  = length Scenarios.tiedLabels
  ∧ NoDup (Aggregator.analyzeChunkTypes Scenarios.tiedLabels).*1
  ∧ ∀ r, r ∈ Scenarios.tiedLabels →
      (Aggregator.countedType r,
       Aggregator.occurrences (Aggregator.countedType r)
         (map Aggregator.countedType Scenarios.tiedLabels))
      ∈ Aggregator.analyzeChunkTypes Scenarios.tiedLabels.
Proof.
  apply (chunk_type_counts_add_up Scenarios.tiedLabels).
  repeat constructor; compute_done.
Defined.

(** ** The orchestrator: the chunked path *)

Section OrchestratorExtras.
Import Orchestrator.

Lemma chunkRepository_succeeds (cfg : Chunking.Config) (fs : list string)
    (reply : Chunking.Reply) (r : Chunking.ChunkingResult) :
  Chunking.chunkRepository cfg fs reply = Some r → Chunking.success r = true.
Proof.
  unfold Chunking.chunkRepository. destruct (length fs <=? Chunking.maxChunkSize cfg).
  - by intros [= <-].
  - destruct (Chunking.success (Chunking.createIntelligentChunks fs reply)) eqn:Hai; simpl.
    + by intros [= <-].
    + unfold Chunking.createFallbackChunks.
      destruct (Chunking.groupLoop _ _ _ _) as [cs|]; [|done].
      by intros [= <-].
Qed.

Lemma outcome_flags (cfg : Coordinator.Config) (agents : Coordinator.Agents)
    (chunks : list Chunking.Chunk) (elapsed : N) (out : Coordinator.BatchOutcome) :
  Coordinator.processChunksInParallel cfg agents chunks elapsed = Some out →
  Coordinator.success out = (0 <? length (Coordinator.results out))
  ∧ Coordinator.processedChunks out = length (Coordinator.results out)
  ∧ Coordinator.totalChunks out = length chunks.
Proof.
  unfold Coordinator.processChunksInParallel.
  destruct (Coordinator.batchLoop _ _ _ _ _ _ _ _) as [[[rs es] lg]|]; [|done].
  by intros [= <-].
Qed.

(** The ways in which [analyzeWithChunking] returns. *)
Lemma analyzeWithChunking_cases (cfg : Config) (w : World) (repoTree : string)
    (r : Response) (calls : list Call) :
  analyzeWithChunking cfg w repoTree = Some (r, calls) →
  ∃ chunkingResult out,
    Chunking.chunkRepository (chunkingConfig cfg) (Chunking.extractFilesFromTree repoTree)
      (chunkingReply w) = Some chunkingResult
    ∧ Coordinator.processChunksInParallel (parallelConfig cfg) (chunkAgents w)
        (Chunking.chunksOf chunkingResult) (parallelElapsed w) = Some out
    ∧ ((Coordinator.results out = []
        ∧ calls = [ChunkingAgent; ParallelCoordinator]
        ∧ r = createFallbackResponse w repoTree (Some "Parallel processing failed"))
       ∨ (Coordinator.results out ≠ []
          ∧ calls = [ChunkingAgent; ParallelCoordinator; ResultsAggregator;
                     DiagramBuilderAgent]
          ∧ ((∃ m, unifiedDiagram w = Js.Throws m ∧ r = createErrorResponse m)
             ∨ (success r = true
                ∧ analysisMethod r = Some (Js.VStr "chunked")
                ∧ metadata r !! "totalChunks"
                  = Some (Js.VNum (N.of_nat (length (Chunking.chunksOf chunkingResult))))
                ∧ metadata r !! "processedChunks"
                  = Some (Js.VNum (N.of_nat (Coordinator.processedChunks out)))
                ∧ metadata r !! "failedChunks"
                  = Some (Js.VNum (N.of_nat (length (Coordinator.errors out)))))))).
Proof.
  unfold analyzeWithChunking.
  destruct (Chunking.chunkRepository _ _ _) as [chunkingResult|] eqn:Hchunk; [|done].
  rewrite (chunkRepository_succeeds _ _ _ _ Hchunk). simpl.
  destruct (Coordinator.processChunksInParallel _ _ _ _) as [out|] eqn:Hrun; [|done].
  destruct (outcome_flags _ _ _ _ _ Hrun) as (Hflag & _ & _).
  intros Hret. exists chunkingResult, out. split; [done|]. split; [done|].
  rewrite Hflag in Hret.
  destruct (Coordinator.results out) as [|r0 rs] eqn:Hres; simpl in Hret.
  - injection Hret as <- <-. by left.
  - right. split; [done|].
    destruct (aggregateResults_succeeds out (synthesisReply w)) as [Hok Hdata].
    rewrite Hok in Hret. simpl in Hret.
    destruct (unifiedDiagram w) as [d|m].
    + destruct Hdata as [aggregatedData Hdata]. rewrite Hdata in Hret.
      injection Hret as <- <-. split; [done|]. right. by repeat split.
    + injection Hret as <- <-. split; [done|]. left. by exists m.
Qed.

(** X23.  A chunked run that returns has called the chunking agent and the
    coordinator, and then either stopped with the fallback response for a
    failed parallel processing, or gone on to the aggregator and the
    diagram builder.  It never calls the analyzer on the whole repository
    and never stops after the aggregator: the branches for an unsuccessful
    chunking result and for an unsuccessful aggregation are not taken. *)
Theorem chunked_run_call_sequences (cfg : Config) (w : World) (repoTree : string)
    (r : Response) (calls : list Call) :
  analyzeWithChunking cfg w repoTree = Some (r, calls) →
  (AnalyzerAgent ∉ calls)
  ∧ calls ≠ [ChunkingAgent; ParallelCoordinator; ResultsAggregator]
  ∧ ((calls = [ChunkingAgent; ParallelCoordinator]
      ∧ r = createFallbackResponse w repoTree (Some "Parallel processing failed"))
     ∨ calls = [ChunkingAgent; ParallelCoordinator; ResultsAggregator;
                DiagramBuilderAgent]).
Proof.
  intros Hret.
  destruct (analyzeWithChunking_cases _ _ _ _ _ Hret)
    as (chunkingResult & out & _ & _ & [(_ & -> & ->)|(_ & -> & _)]).
  - split; [compute_done|]. split; [done|]. by left.
  - split; [compute_done|]. split; [done|]. by right.
Qed.

(** X24.  In the metadata of a response of the chunked path, for a positive
    batch size and at least one attempt per chunk, the processed and the
    failed chunks add up to the total, and at least one chunk was
    processed. *)
Theorem chunked_metadata_counts_add_up (cfg : Config) (w : World) (repoTree : string)
    (r : Response) (calls : list Call) :
  1 ≤ Coordinator.maxConcurrentChunks (parallelConfig cfg) →
  1 ≤ Coordinator.retryAttempts (parallelConfig cfg) →
  analyzeWithChunking cfg w repoTree = Some (r, calls) →
  analysisMethod r = Some (Js.VStr "chunked") →
  ∃ total processed failed,
    metadata r !! "totalChunks" = Some (Js.VNum (N.of_nat total))
    ∧ metadata r !! "processedChunks" = Some (Js.VNum (N.of_nat processed))
    ∧ metadata r !! "failedChunks" = Some (Js.VNum (N.of_nat failed))
    ∧ processed + failed = total
    ∧ 1 ≤ processed.
Proof.
  intros Hmc Hretry Hret Hmethod.
  destruct (analyzeWithChunking_cases _ _ _ _ _ Hret)
    as (chunkingResult & out & _ & Hrun
        & [(_ & _ & ->)|(Hres & _ & [(m & _ & ->)|(_ & _ & Htotal & Hproc & Hfail)])]).
  - by vm_compute in Hmethod.
  - by vm_compute in Hmethod.
  - exists (length (Chunking.chunksOf chunkingResult)),
      (Coordinator.processedChunks out), (length (Coordinator.errors out)).
    split; [done|]. split; [done|]. split; [done|].
    destruct (processChunksInParallel_spec (parallelConfig cfg) (chunkAgents w)
                (Chunking.chunksOf chunkingResult) (parallelElapsed w) Hmc Hretry)
      as (out' & Hrun' & Hresults & Herrors & _ & _ & Hprocessed & _).
    rewrite Hrun in Hrun'. injection Hrun' as <-.
    rewrite Hprocessed. split.
    + rewrite Hresults, Herrors, settled_count; [apply settleFrom_0_length|].
      by apply settleBatch_reasons.
    + destruct (Coordinator.results out); [done|]. simpl. lia.
Qed.

(** X25.  A response of [analyzeRepository] reports failure only when a call to
    an agent threw: the analyzer or the diagram builder on the whole
    repository, or the diagram builder on the aggregated record.  It is
    then the error response carrying the thrown message.  Every other
    outcome, an analysis that reports failure or no chunk processed
    included, is answered with a response that reports success. *)
Theorem failure_only_from_a_thrown_call (cfg : Config) (w : World) (repoTree : string)
    (r : Response) (calls : list Call) :
  analyzeRepository cfg w repoTree = Some (r, calls) →
  success r = false →
  ∃ m, r = createErrorResponse m
       ∧ (wholeAnalysis w = Js.Throws m
          ∨ wholeDiagram w = Js.Throws m
          ∨ unifiedDiagram w = Js.Throws m).
Proof.
  unfold analyzeRepository.
  destruct ((chunkingThreshold cfg <? countFilesInRepository repoTree) && enableChunking cfg).
  - intros Hret Hfail.
    destruct (analyzeWithChunking_cases _ _ _ _ _ Hret)
      as (chunkingResult & out & _ & _
          & [(_ & _ & ->)|(_ & _ & [(m & Hthrow & ->)|(Hok & _)])]).
    + done.
    + exists m. split; [done|]. by right; right.
    + congruence.
  - unfold analyzeWithoutChunking.
    destruct (wholeAnalysis w) as [a|m].
    + destruct (negb (Records.a_success a)); [by intros [= <- <-]|].
      destruct (wholeDiagram w) as [d|m].
      * destruct (negb (Records.d_success d)); by intros [= <- <-].
      * intros [= <- <-] _. exists m. split; [done|]. by right; left.
    + intros [= <- <-] _. exists m. split; [done|]. by left.
Qed.

End OrchestratorExtras.

Lemma chunked_run_call_sequences_witness :
  ∃ r calls,
    Orchestrator.analyzeWithChunking Scenarios.eagerConfig Scenarios.calmWorld
      Scenarios.sevenFiles = Some (r, calls)
    ∧ (Orchestrator.AnalyzerAgent ∉ calls)
    ∧ calls ≠ [Orchestrator.ChunkingAgent; Orchestrator.ParallelCoordinator;
               Orchestrator.ResultsAggregator]
    ∧ ((calls = [Orchestrator.ChunkingAgent; Orchestrator.ParallelCoordinator]
        ∧ r = Orchestrator.createFallbackResponse Scenarios.calmWorld Scenarios.sevenFiles
                (Some "Parallel processing failed"))
       ∨ calls = [Orchestrator.ChunkingAgent; Orchestrator.ParallelCoordinator;
                  Orchestrator.ResultsAggregator; Orchestrator.DiagramBuilderAgent]).
Proof.
  eexists. eexists. split; [vm_compute; reflexivity|].
  apply (chunked_run_call_sequences Scenarios.eagerConfig Scenarios.calmWorld
           Scenarios.sevenFiles).
  vm_compute. reflexivity.
Defined.

Lemma chunked_metadata_counts_add_up_witness :
  ∃ r calls,
    Orchestrator.analyzeWithChunking Scenarios.eagerConfig Scenarios.calmWorld
      Scenarios.sevenFiles = Some (r, calls)
    ∧ ∃ total processed failed,
        Orchestrator.metadata r !! "totalChunks" = Some (Js.VNum (N.of_nat total))
        ∧ Orchestrator.metadata r !! "processedChunks" = Some (Js.VNum (N.of_nat processed))
        ∧ Orchestrator.metadata r !! "failedChunks" = Some (Js.VNum (N.of_nat failed))
        ∧ processed + failed = total
        ∧ 1 ≤ processed.
Proof.
  eexists. eexists. split; [vm_compute; reflexivity|].
  apply (chunked_metadata_counts_add_up Scenarios.eagerConfig Scenarios.calmWorld
           Scenarios.sevenFiles _
           [Orchestrator.ChunkingAgent; Orchestrator.ParallelCoordinator;
            Orchestrator.ResultsAggregator; Orchestrator.DiagramBuilderAgent]).
  - simpl. lia.
  - simpl. lia.
  - vm_compute. reflexivity.
  - vm_compute. reflexivity.
Defined.

Lemma failure_only_from_a_thrown_call_witness :
  ∃ r calls,
    Orchestrator.analyzeRepository Scenarios.eagerConfig Scenarios.diagramThrows
      Scenarios.sevenFiles = Some (r, calls)
    ∧ Orchestrator.success r = false
    ∧ ∃ m, r = Orchestrator.createErrorResponse m
           ∧ (Orchestrator.wholeAnalysis Scenarios.diagramThrows = Js.Throws m
              ∨ Orchestrator.wholeDiagram Scenarios.diagramThrows = Js.Throws m
              ∨ Orchestrator.unifiedDiagram Scenarios.diagramThrows = Js.Throws m).
Proof.
  eexists. eexists. split; [vm_compute; reflexivity|]. split; [reflexivity|].
  apply (failure_only_from_a_thrown_call Scenarios.eagerConfig Scenarios.diagramThrows
           Scenarios.sevenFiles _
           [Orchestrator.ChunkingAgent; Orchestrator.ParallelCoordinator;
            Orchestrator.ResultsAggregator; Orchestrator.DiagramBuilderAgent]).
  - vm_compute. reflexivity.
  - reflexivity.
Defined.

(** ** The diagram builder: the fallback diagram against the validator *)

Section FallbackDiagram.
Import DiagramBuilder.

Lemma str_app_cons (c : ascii) (a b : string) : String c a +:+ b = String c (a +:+ b).
Proof. reflexivity. Qed.

Lemma includes_unfold (p s : string) :
  Js.includes p s
  = Js.startsWith p s || match s with EmptyString => false | String _ s' => Js.includes p s' end.
Proof. by destruct s. Qed.

Lemma startsWith_app_l (p s t : string) :
  Js.startsWith p s = true → Js.startsWith p (s +:+ t) = true.
Proof.
  revert s. induction p as [|a p IH]; intros s; [done|].
  destruct s as [|b s]; [done|]. rewrite str_app_cons. simpl.
  destruct (Ascii.eqb a b); [apply IH|done].
Qed.

Lemma includes_app_l (p s t : string) :
  Js.includes p s = true → Js.includes p (s +:+ t) = true.
Proof.
  induction s as [|c s IH]; rewrite includes_unfold; intros H.
  - rewrite orb_false_r in H. rewrite includes_unfold.
    by rewrite (startsWith_app_l _ _ t H).
  - rewrite str_app_cons, includes_unfold. apply orb_true_iff in H as [H|H].
    + by rewrite <- str_app_cons, (startsWith_app_l _ _ t H).
    + rewrite (IH H). apply orb_true_r.
Qed.

Lemma includes_app_r (p a s : string) :
  Js.includes p s = true → Js.includes p (a +:+ s) = true.
Proof.
  intros H. induction a as [|c a IH]; [done|].
  rewrite str_app_cons, includes_unfold, IH. apply orb_true_r.
Qed.

Lemma toLowerCase_app (a b : string) :
  Js.toLowerCase (a +:+ b) = Js.toLowerCase a +:+ Js.toLowerCase b.
Proof.
  induction a as [|c a IH]; [done|].
  rewrite str_app_cons. simpl. by rewrite IH.
Qed.

Lemma hasChar_app_l (c : ascii) (s t : string) :
  hasChar c s = true → hasChar c (s +:+ t) = true.
Proof.
  induction s as [|a s IH]; [done|]. rewrite str_app_cons. simpl.
  intros H. apply orb_true_iff in H as [H|H]; [by rewrite H|].
  rewrite (IH H). apply orb_true_r.
Qed.

Lemma hasChar_app_r (c : ascii) (a s : string) :
  hasChar c s = true → hasChar c (a +:+ s) = true.
Proof.
  intros H. induction a as [|x a IH]; [done|].
  rewrite str_app_cons. simpl. rewrite IH. apply orb_true_r.
Qed.

Lemma hasPair_app_l (o c : ascii) (s t : string) :
  hasPair o c s = true → hasPair o c (s +:+ t) = true.
Proof.
  induction s as [|a s IH]; [done|]. rewrite str_app_cons. simpl.
  intros H. apply orb_true_iff in H as [H|H].
  - apply andb_prop in H as [-> H]. by rewrite (hasChar_app_l _ _ t H).
  - rewrite (IH H). apply orb_true_r.
Qed.

Lemma hasPair_app_r (o c : ascii) (a s : string) :
  hasPair o c s = true → hasPair o c (a +:+ s) = true.
Proof.
  intros H. induction a as [|x a IH]; [done|].
  rewrite str_app_cons. simpl. rewrite IH. apply orb_true_r.
Qed.

Lemma forEachComponent_cons (index : nat) (comp : Records.Component)
    (rest : list Records.Component) (diagram : string) :
  forEachComponent index (comp :: rest) diagram
  = forEachComponent (S index) rest
      (if 0 <? index then
         (diagram +:+ ("  " +:+ fromCharCode (65 + index) +:+ "[" +:+ labelOf comp
                       +:+ "]" +:+ Js.nl))
         +:+ ("  " +:+ fromCharCode (65 + index - 1) +:+ " --> "
              +:+ fromCharCode (65 + index) +:+ Js.nl)
       else
         diagram +:+ ("  " +:+ fromCharCode (65 + index) +:+ "[" +:+ labelOf comp
                      +:+ "]" +:+ Js.nl)).
Proof. reflexivity. Qed.

(** The loop only appends to the text it is given. *)
Lemma forEachComponent_extends (components : list Records.Component) :
  ∀ index diagram, ∃ t, forEachComponent index components diagram = diagram +:+ t.
Proof.
  induction components as [|comp rest IH]; intros index diagram.
  - exists "". simpl. by rewrite str_app_nil_r.
  - rewrite forEachComponent_cons.
    destruct (IH (S index)
                (if 0 <? index then
                   (diagram +:+ ("  " +:+ fromCharCode (65 + index) +:+ "[" +:+ labelOf comp
                                 +:+ "]" +:+ Js.nl))
                   +:+ ("  " +:+ fromCharCode (65 + index - 1) +:+ " --> "
                        +:+ fromCharCode (65 + index) +:+ Js.nl)
                 else
                   diagram +:+ ("  " +:+ fromCharCode (65 + index) +:+ "[" +:+ labelOf comp
                                +:+ "]" +:+ Js.nl))) as [t Ht].
    rewrite Ht. destruct (0 <? index); rewrite !str_app_assoc; by eexists.
Qed.

(** The text after the first component: a graph declaration and a node. *)
Lemma first_node_text (comp : Records.Component) :
  Js.includes "graph"
    (Js.toLowerCase (("graph TD" +:+ Js.nl)
                     +:+ ("  " +:+ fromCharCode 65 +:+ "[" +:+ labelOf comp +:+ "]" +:+ Js.nl)))
  = true
  ∧ nodesFound (("graph TD" +:+ Js.nl)
                +:+ ("  " +:+ fromCharCode 65 +:+ "[" +:+ labelOf comp +:+ "]" +:+ Js.nl))
    = true.
Proof.
  split.
  - by rewrite toLowerCase_app.
  - unfold nodesFound. apply orb_true_iff. left. apply orb_true_iff. left.
    apply hasPair_app_r.
    change ("  " +:+ fromCharCode 65 +:+ "[" +:+ labelOf comp +:+ "]" +:+ Js.nl)
      with (String " " (String " " (String "A" (String "[" (labelOf comp +:+ "]" +:+ Js.nl))))).
    simpl. rewrite (hasChar_app_r "]" (labelOf comp) ("]" +:+ Js.nl)) by done. done.
Qed.

Lemma valid_of_parts (diagram : string) :
  Js.includes "graph" (Js.toLowerCase diagram) = true →
  nodesFound diagram = true →
  Js.includes "-->" diagram = true →
  validateMermaidSyntax diagram = {| isValid := true; error := None |}.
Proof.
  intros Hgraph Hnodes Harrows. unfold validateMermaidSyntax, issuesOf.
  rewrite Hgraph, Hnodes, Harrows.
  destruct diagram; [done|]. done.
Qed.

(** X26.  The fallback diagram passes the builder's own validation whenever the
    analysis lists no component or at least two (and no more than the 63
    whose node names are ASCII characters). *)
Theorem fallback_diagram_is_valid_unless_one_component (analysisData : Records.Analysis) :
  length (Js.obj_or (Records.key_components analysisData) []) ≠ 1 →
  length (Js.obj_or (Records.key_components analysisData) []) ≤ 63 →
  validateMermaidSyntax (createFallbackDiagram analysisData)
  = {| isValid := true; error := None |}.
Proof.
  unfold createFallbackDiagram.
  destruct (Js.obj_or (Records.key_components analysisData) []) as [|c0 [|c1 rest]];
    [intros _ _|done|intros _ _].
  - vm_compute. reflexivity.
  - change (0 <? length (c0 :: c1 :: rest)) with true. cbn iota.
    rewrite !forEachComponent_cons.
    change (0 <? 0) with false. change (0 <? 1) with true. cbn iota.
    change (65 + 0) with 65. change (65 + 1 - 1) with 65. change (65 + 1) with 66.
    destruct (forEachComponent_extends rest 2
                (((("graph TD" +:+ Js.nl)
                   +:+ ("  " +:+ fromCharCode 65 +:+ "[" +:+ labelOf c0 +:+ "]" +:+ Js.nl))
                  +:+ ("  " +:+ fromCharCode 66 +:+ "[" +:+ labelOf c1 +:+ "]" +:+ Js.nl))
                 +:+ ("  " +:+ fromCharCode 65 +:+ " --> " +:+ fromCharCode 66 +:+ Js.nl)))
      as [t Ht].
    rewrite Ht. destruct (first_node_text c0) as [Hgraph Hnodes].
    match type of Hnodes with nodesFound ?x = true => set (first := x) in * end.
    apply valid_of_parts.
    + rewrite !toLowerCase_app. by do 3 apply includes_app_l.
    + unfold nodesFound in *.
      apply orb_true_iff in Hnodes as [Hnodes|Hnodes];
        [apply orb_true_iff in Hnodes as [Hnodes|Hnodes]|].
      * apply orb_true_iff. left. apply orb_true_iff. left.
        by do 3 apply hasPair_app_l.
      * apply orb_true_iff. left. apply orb_true_iff. right.
        by do 3 apply hasPair_app_l.
      * apply orb_true_iff. right. by do 3 apply hasPair_app_l.
    + apply includes_app_l. apply includes_app_r. by vm_compute.
Qed.

Lemma includes_arrow_free_prefix (a s : string) :
  Js.freeOf "-" a = true → Js.includes "-->" (a +:+ s) = Js.includes "-->" s.
Proof.
  induction a as [|c a IH]; [done|]. intros H. cbn [Js.freeOf] in H.
  apply andb_prop in H as [Hc Ha]. apply negb_true_iff in Hc.
  rewrite str_app_cons, includes_unfold, (IH Ha).
  cbn [Js.startsWith]. rewrite Ascii.eqb_sym in Hc. by rewrite Hc.
Qed.

Lemma startsWith_arrow_tail (l : string) :
  Js.startsWith "-->" l = false → Js.startsWith "-->" (l +:+ ("]" +:+ Js.nl)) = false.
Proof.
  destruct l as [|c1 [|c2 [|c3 l]]]; intros H.
  - done.
  - rewrite str_app_cons. simpl. by destruct (Ascii.eqb "-" c1).
  - rewrite !str_app_cons. simpl. destruct (Ascii.eqb "-" c1); [|done].
    by destruct (Ascii.eqb "-" c2).
  - rewrite !str_app_cons. simpl in *. destruct (Ascii.eqb "-" c1); [|done].
    destruct (Ascii.eqb "-" c2); [|done]. by destruct (Ascii.eqb ">" c3).
Qed.

Lemma includes_arrow_tail (l : string) :
  Js.includes "-->" l = false → Js.includes "-->" (l +:+ ("]" +:+ Js.nl)) = false.
Proof.
  induction l as [|c l IH]; [done|].
  rewrite includes_unfold. intros H. apply orb_false_iff in H as [Hstart Hrest].
  rewrite str_app_cons, includes_unfold, (IH Hrest), orb_false_r.
  rewrite <- str_app_cons. by apply startsWith_arrow_tail.
Qed.

Lemma rejected_for_arrows (diagram : string) :
  Js.includes "graph" (Js.toLowerCase diagram) = true →
  nodesFound diagram = true →
  Js.includes "-->" diagram = false →
  validateMermaidSyntax diagram
  = {| isValid := false; error := Some "No valid arrows found" |}.
Proof.
  intros Hgraph Hnodes Harrows. unfold validateMermaidSyntax, issuesOf.
  rewrite Hgraph, Hnodes, Harrows.
  destruct diagram; [done|]. done.
Qed.

(** X27.  The fallback diagram of an analysis that lists exactly one component
    holds one node and no arrow: unless the label of the component itself
    holds an arrow, the builder's own validation rejects it for having no
    valid arrows. *)
Theorem fallback_diagram_of_one_component_is_rejected (analysisData : Records.Analysis)
    (comp : Records.Component) :
  Records.key_components analysisData = Some [comp] →
  Js.includes "-->" (labelOf comp) = false →
  validateMermaidSyntax (createFallbackDiagram analysisData)
  = {| isValid := false; error := Some "No valid arrows found" |}.
Proof.
  intros Hcomps Hlabel. unfold createFallbackDiagram. rewrite Hcomps.
  change (0 <? length (Js.obj_or (Some [comp]) [])) with true. cbn iota.
  change (Js.obj_or (Some [comp]) []) with [comp].
  rewrite forEachComponent_cons. change (0 <? 0) with false. cbn iota.
  change (65 + 0) with 65. cbn [forEachComponent].
  destruct (first_node_text comp) as [Hgraph Hnodes].
  apply rejected_for_arrows; [done|done|].
  rewrite !includes_arrow_free_prefix by done.
  by apply includes_arrow_tail.
Qed.

End FallbackDiagram.

Lemma fallback_diagram_is_valid_unless_one_component_witness :
  DiagramBuilder.validateMermaidSyntax
    (DiagramBuilder.createFallbackDiagram
       (Scenarios.withComponents
          [Scenarios.component "api" "service"; Scenarios.component "db" "store"]))
  = {| DiagramBuilder.isValid := true; DiagramBuilder.error := None |}.
Proof.
  apply (fallback_diagram_is_valid_unless_one_component
           (Scenarios.withComponents
              [Scenarios.component "api" "service"; Scenarios.component "db" "store"]));
    simpl; lia.
Defined.

Lemma fallback_diagram_of_one_component_is_rejected_witness :
  DiagramBuilder.validateMermaidSyntax
    (DiagramBuilder.createFallbackDiagram
       (Scenarios.withComponents [Scenarios.component "api" "service"]))
  = {| DiagramBuilder.isValid := false;
       DiagramBuilder.error := Some "No valid arrows found" |}.
Proof.
  apply (fallback_diagram_of_one_component_is_rejected
           (Scenarios.withComponents [Scenarios.component "api" "service"])
           (Scenarios.component "api" "service")); reflexivity.
Defined.

(** ** The scheduler under a policy without attempts *)

Section NoAttempts.
Import Coordinator.
Variable cfg : Config.
Variable agents : Agents.
Hypothesis Hnone : retryAttempts cfg = 0.
Hypothesis Hmc : 1 ≤ maxConcurrentChunks cfg.

Lemma retry_without_attempts (chunk : Chunking.Chunk) (chunkIndex : nat) :
  processChunkWithRetry cfg agents chunk chunkIndex
  = {| settlement := RejectedWith None; calls := 0; sleeps := [] |}.
Proof. unfold processChunkWithRetry. by rewrite Hnone. Qed.

Lemma forEachSettled_without_attempts (i : nat) (batch : list Chunking.Chunk)
    (results : list Records.ChunkResult) (errors : list ErrorEntry) :
  batch ≠ [] →
  forEachSettled (settleBatch cfg agents i batch) results errors = (results, errors, true).
Proof.
  destruct batch as [|c batch]; [done|]. intros _.
  rewrite settleBatch_cons. simpl. by rewrite retry_without_attempts.
Qed.

Lemma log_without_attempts (i : nat) (batch : list Chunking.Chunk) :
  Forall (fun e : nat * nat => e.2 = 0)
         (map (fun r : Chunking.Chunk * nat * RetryRun => (r.1.2, calls r.2))
              (settleBatch cfg agents i batch)).
Proof.
  apply Forall_fmap, Forall_forall. intros r Hr.
  apply elem_of_lookup_imap_1 in Hr as (index & chunk & -> & _). simpl.
  by rewrite retry_without_attempts.
Qed.

Lemma ceil_div_step (a b : nat) :
  1 ≤ b → 1 ≤ a → Js.ceil_div a b = S (Js.ceil_div (a - b) b).
Proof.
  intros Hb Ha. unfold Js.ceil_div.
  replace (a + b - 1) with ((a - 1) + 1 * b) by lia.
  rewrite Nat.div_add by lia.
  destruct (decide (b ≤ a)) as [Hle|Hgt].
  - replace (a - b + b - 1) with (a - 1) by lia. lia.
  - replace (a - b + b - 1) with (b - 1) by lia.
    rewrite !Nat.div_small by lia. lia.
Qed.

Lemma batchLoop_without_attempts (chunks : list Chunking.Chunk) (fuel : nat) :
  ∀ i errors log,
    length chunks ≤ i + fuel →
    Forall (fun e : nat * nat => e.2 = 0) log →
    ∃ log',
      batchLoop fuel cfg agents chunks i [] errors log
      = Some ([],
              errors ++ map (fun b => batchError b
                               "Cannot read properties of undefined (reading 'message')")
                            (seq (i / maxConcurrentChunks cfg)
                                 (Js.ceil_div (length chunks - i) (maxConcurrentChunks cfg))),
              log')
      ∧ Forall (fun e : nat * nat => e.2 = 0) log'.
Proof.
  induction fuel as [|fuel IH]; intros i errors log Hfuel Hlog.
  - assert ((i <? length chunks) = false) as E by (apply Nat.ltb_ge; lia).
    simpl. rewrite E. exists log. split; [|done].
    replace (length chunks - i) with 0 by lia.
    unfold Js.ceil_div.
    rewrite (Nat.div_small (0 + maxConcurrentChunks cfg - 1)) by lia.
    simpl. by rewrite app_nil_r.
  - simpl. destruct (i <? length chunks) eqn:E.
    + apply Nat.ltb_lt in E.
      rewrite forEachSettled_without_attempts.
      2:{ unfold Js.slice. intros Hnil. apply (f_equal length) in Hnil.
          rewrite length_take, length_drop in Hnil. simpl in Hnil. lia. }
      destruct (IH (i + maxConcurrentChunks cfg)
                  (errors ++ [batchError (i / maxConcurrentChunks cfg)
                                "Cannot read properties of undefined (reading 'message')"])
                  (log ++ map (fun r : Chunking.Chunk * nat * RetryRun => (r.1.2, calls r.2))
                              (settleBatch cfg agents i
                                 (Js.slice i (i + maxConcurrentChunks cfg) chunks))))
        as (log' & Hloop & Hlog'); [lia| |].
      { apply Forall_app. split; [done|]. apply log_without_attempts. }
      exists log'. split; [|done]. rewrite Hloop. f_equal. f_equal. f_equal.
      rewrite <- app_assoc. f_equal.
      rewrite (ceil_div_step (length chunks - i)) by lia.
      replace (length chunks - i - maxConcurrentChunks cfg)
        with (length chunks - (i + maxConcurrentChunks cfg)) by lia.
      replace ((i + maxConcurrentChunks cfg) / maxConcurrentChunks cfg)
        with (S (i / maxConcurrentChunks cfg)).
      2:{ replace (i + maxConcurrentChunks cfg) with (i + 1 * maxConcurrentChunks cfg) by lia.
          rewrite Nat.div_add by lia. lia. }
      done.
    + apply Nat.ltb_ge in E. exists log. split; [|done].
      replace (length chunks - i) with 0 by lia.
      unfold Js.ceil_div.
    rewrite (Nat.div_small (0 + maxConcurrentChunks cfg - 1)) by lia.
    simpl. by rewrite app_nil_r.
Qed.

(** X16.  With [retryAttempts = 0] no attempt is made for any chunk, every
    promise rejects with [undefined], and reading the message of that
    reason throws: the outcome has no result and is flagged unsuccessful,
    no chunk is recorded as failed, and [errors] holds one entry per
    batch, carrying the batch index and the message of the [TypeError]. *)
Theorem no_attempts_no_results (chunks : list Chunking.Chunk) (elapsed : N) :
  ∃ out, processChunksInParallel cfg agents chunks elapsed = Some out
         ∧ results out = []
         ∧ success out = false
         ∧ errors out
           = map (fun b => batchError b
                    "Cannot read properties of undefined (reading 'message')")
                 (seq 0 (Js.ceil_div (length chunks) (maxConcurrentChunks cfg)))
         ∧ Forall (fun e : nat * nat => e.2 = 0) (attemptLog out).
Proof.
  unfold processChunksInParallel.
  destruct (batchLoop_without_attempts chunks (length chunks) 0 [] [])
    as (log' & Hloop & Hlog'); [lia|constructor|].
  rewrite Hloop. eexists. split; [done|]. simpl.
  split; [done|]. split; [done|]. split; [|done].
  rewrite Nat.Div0.div_0_l. by rewrite Nat.sub_0_r.
Qed.

End NoAttempts.

Lemma no_attempts_no_results_witness :
  ∃ out,
    Coordinator.processChunksInParallel Scenarios.noAttemptConfig Scenarios.thirdFails
      Scenarios.fiveUnits 0%N = Some out
    ∧ Coordinator.results out = []
    ∧ Coordinator.success out = false
    ∧ Coordinator.errors out
      = map (fun b => Coordinator.batchError b
               "Cannot read properties of undefined (reading 'message')")
            (seq 0 (Js.ceil_div (length Scenarios.fiveUnits)
                      (Coordinator.maxConcurrentChunks Scenarios.noAttemptConfig)))
    ∧ Forall (fun e : nat * nat => e.2 = 0) (Coordinator.attemptLog out).
Proof.
  apply (no_attempts_no_results Scenarios.noAttemptConfig Scenarios.thirdFails).
  - reflexivity.
  - simpl. lia.
Defined.
